(** * NSE MACD scanner: indicator engine, signal classifier, crossover
      detector, alert ledger and notification throttle

    A shallow embedding of [app_simple_macd.py].  Python floats are IEEE-754
    binary64 numbers and are modelled by [spec_float] with precision 53 and
    exponent bound 1024; Python ints are [Z]; Python exceptions are the
    [Raise] branch of [result]; the set of alert keys kept in the session
    state is a [gset string]. *)

From Stdlib Require Import ZArith Ascii SpecFloat Lia.
From stdpp Require Import base list strings gmap.

(** ** Python values *)

Module Py.

(** *** Exceptions *)

Inductive exn : Type :=
| ZeroDivisionError
| IndexError
| ProviderError.

Inductive result (A : Type) : Type :=
| Ok (a : A)
| Raise (e : exn).
Global Arguments Ok {A} a.
Global Arguments Raise {A} e.

Global Instance result_ret : MRet result := fun _ a => Ok a.
Global Instance result_bind : MBind result := fun _ _ f m =>
  match m with
  | Ok a => f a
  | Raise e => Raise e
  end.

(** [for x in xs: s = body(s, x)], stopping at the first exception. *)
Fixpoint for_each {A S : Type} (xs : list A) (body : S -> A -> result S) (s : S)
  : result S :=
  match xs with
  | [] => Ok s
  | x :: xs' => s' ← body s x; for_each xs' body s'
  end.

(** [[f(x) for x in xs]], stopping at the first exception. *)
Fixpoint comprehension {A B : Type} (f : A -> result B) (xs : list A)
  : result (list B) :=
  match xs with
  | [] => Ok []
  | x :: xs' => y ← f x; ys ← comprehension f xs'; Ok (y :: ys)
  end.

(** *** Lists *)

(** [l[i]] for an int [i]: a negative index counts from the end, an index
    outside the list raises [IndexError]. *)
Definition index {A : Type} (l : list A) (i : Z) : result A :=
  let j := (if i <? 0 then Z.of_nat (length l) + i else i)%Z in
  if (j <? 0)%Z then Raise IndexError
  else match l !! Z.to_nat j with
       | Some x => Ok x
       | None => Raise IndexError
       end.

(** [range(a, b)] and [len]. *)
Definition range (a b : Z) : list Z := seqZ a (b - a).
Definition len {A : Type} (l : list A) : Z := Z.of_nat (length l).

(** *** Floats *)

Definition float : Type := spec_float.

Definition prec : Z := 53.
Definition emax : Z := 1024.

(** [float(z)]: the int rounded to the nearest binary64 number. *)
Definition of_int (z : Z) : float := binary_normalize prec emax z 0 false.

(** An int as an exact (unrounded) operand of a true division. *)
Definition exact_int (z : Z) : spec_float :=
  match z with
  | Z0 => S754_zero false
  | Zpos p => S754_finite false p 0
  | Zneg p => S754_finite true p 0
  end.

Definition fadd (x y : float) : float := SFadd prec emax x y.
Definition fsub (x y : float) : float := SFsub prec emax x y.
Definition fmul (x y : float) : float := SFmul prec emax x y.
Definition flt (x y : float) : bool := SFltb x y.
Definition fle (x y : float) : bool := SFleb x y.
Definition fgt (x y : float) : bool := SFltb y x.
Definition fge (x y : float) : bool := SFleb y x.

(** [a / b] on two ints: the exact quotient rounded once to binary64;
    [ZeroDivisionError] when [b] is zero. *)
Definition int_truediv (a b : Z) : result float :=
  if (b =? 0)%Z then Raise ZeroDivisionError
  else Ok (SFdiv prec emax (exact_int a) (exact_int b)).

(** [x / n] for a float [x] and a non-zero int [n] (the int is converted
    first). *)
Definition fdiv_int (x : float) (n : Z) : float := SFdiv prec emax x (of_int n).

Definition is_nan (x : float) : bool :=
  match x with
  | S754_nan => true
  | _ => false
  end.

Definition nan : float := S754_nan.

Global Arguments of_int : simpl never.
Global Arguments fadd : simpl never.
Global Arguments fsub : simpl never.
Global Arguments fmul : simpl never.
Global Arguments flt : simpl never.
Global Arguments fle : simpl never.
Global Arguments fgt : simpl never.
Global Arguments fge : simpl never.
Global Arguments int_truediv : simpl never.
Global Arguments fdiv_int : simpl never.

End Py.

Import Py.

(** ** Indicator engine *)

(** The expression [x * k + prev * (1 - k)] of the loop body. *)
Definition ema_step (k x prev : float) : float :=
  fadd (fmul x k) (fmul prev (fsub (of_int 1) k)).
Global Arguments ema_step : simpl never.

(** [calculate_ema(data, period)]. *)
Definition calculate_ema (data : list float) (period : Z) : result (list float) :=
  match data with
  | [] => Ok []
  | _ :: _ =>
      k ← int_truediv 2 (period + 1);
      d0 ← index data 0;
      for_each (range 1 (len data))
        (fun ema_array i =>
           x ← index data i;
           prev ← index ema_array (i - 1);
           let ema_value := ema_step k x prev in
           Ok (ema_array ++ [ema_value]))
        [d0]
  end.

(** The same sequence by recursion on the input after its first element:
    each value is one step from the previous one. *)
Fixpoint ema_from (k prev : float) (rest : list float) : list float :=
  match rest with
  | [] => []
  | x :: rest' => let e := ema_step k x prev in e :: ema_from k e rest'
  end.

(** ** Signal classifier *)

Definition STRONG_BUY : string := "STRONG BUY".
Definition STRONG_SELL : string := "STRONG SELL".
Definition WEAK_BUY : string := "WEAK BUY".
Definition WEAK_SELL : string := "WEAK SELL".
Definition BUY : string := "BUY".
Definition SELL : string := "SELL".
Definition NO_SIGNAL : string := "NO SIGNAL".

(** The [if]/[elif] chain in the signal loop of [calculate_macd]; the
    literal [0] is compared as a float. *)
Definition classify (macd_val signal_val : float) : string :=
  let zero := of_int 0 in
  if fgt macd_val signal_val && fgt macd_val zero && fgt signal_val zero then STRONG_BUY
  else if flt macd_val signal_val && flt macd_val zero && flt signal_val zero then STRONG_SELL
  else if fgt macd_val signal_val && flt macd_val zero then WEAK_BUY
  else if flt macd_val signal_val && fgt macd_val zero then WEAK_SELL
  else if fgt macd_val signal_val then BUY
  else if flt macd_val signal_val then SELL
  else NO_SIGNAL.

(** ** MACD *)

(** The dict returned by [calculate_macd]. *)
Record macd_data : Type := {
  macd : float;
  signal : float;
  histogram : float;
  signals : list string
}.

(** The local variables of [calculate_macd] when it reaches its [return]. *)
Record macd_locals : Type := {
  fast_ema : list float;
  slow_ema : list float;
  macd_line : list float;
  signal_line : list float;
  histogram_val : float;
  signals_list : list string
}.

(** The body of [calculate_macd] after the length guard. *)
Definition macd_body (close_prices : list float) : result macd_locals :=
  fast ← calculate_ema close_prices 12;
  slow ← calculate_ema close_prices 26;
  line ← comprehension
           (fun i => f ← index fast i; s ← index slow i; Ok (fsub f s))
           (range 0 (len fast));
  sig ← calculate_ema line 9;
  m_last ← index line (-1);
  s_last ← index sig (-1);
  let hist := fsub m_last s_last in
  sigs ← for_each (range 0 (len line))
           (fun signals i =>
              macd_val ← index line i;
              signal_val ← index sig i;
              Ok (signals ++ [classify macd_val signal_val]))
           [];
  Ok {| fast_ema := fast; slow_ema := slow; macd_line := line;
        signal_line := sig; histogram_val := hist; signals_list := sigs |}.

(** The [return] statement: the dict built from the locals. *)
Definition macd_return (fr : macd_locals) : result macd_data :=
  m_last ← index (macd_line fr) (-1);
  s_last ← index (signal_line fr) (-1);
  Ok {| macd := m_last; signal := s_last;
        histogram := histogram_val fr; signals := signals_list fr |}.

(** [calculate_macd(close_prices)]; [None] is Python's [None]. *)
Definition calculate_macd (close_prices : list float) : result (option macd_data) :=
  if (len close_prices <? 30)%Z then Ok None
  else fr ← macd_body close_prices; d ← macd_return fr; Ok (Some d).

(** ** Wall-clock time *)

(** A [datetime] in the zone Asia/Kolkata, as returned by [get_ist_time];
    the zone's offset is the constant +05:30.  Python keeps the fields
    within their calendar ranges ([valid_datetime]). *)
Record datetime : Type := {
  year : Z;
  month : Z;
  day : Z;
  hour : Z;
  minute : Z;
  second : Z;
  microsecond : Z
}.

Definition valid_datetime (t : datetime) : Prop :=
  (1 <= year t <= 9999 /\ 1 <= month t <= 12 /\ 1 <= day t <= 31 /\
   0 <= hour t < 24 /\ 0 <= minute t < 60 /\ 0 <= second t < 60 /\
   0 <= microsecond t < 1000000)%Z.

Definition is_leap (y : Z) : bool :=
  ((y mod 4 =? 0) && (negb (y mod 100 =? 0) || (y mod 400 =? 0)))%Z.

Definition days_before_year (y : Z) : Z :=
  let y' := (y - 1)%Z in
  (y' * 365 + y' / 4 - y' / 100 + y' / 400)%Z.

Definition DAYS_BEFORE_MONTH : list Z :=
  [-1; 0; 31; 59; 90; 120; 151; 181; 212; 243; 273; 304; 334]%Z.

Definition days_before_month (y m : Z) : Z :=
  (nth (Z.to_nat m) DAYS_BEFORE_MONTH 0 +
   (if (2 <? m) && is_leap y then 1 else 0))%Z.

(** [datetime.toordinal()]. *)
Definition toordinal (t : datetime) : Z :=
  (days_before_year (year t) + days_before_month (year t) (month t) + day t)%Z.

(** [a - b] for two datetimes of the same zone: a [timedelta], given by
    its total number of microseconds. *)
Definition datetime_sub (a b : datetime) : Z :=
  let secs (t : datetime) := (second t + minute t * 60 + hour t * 3600)%Z in
  (((toordinal a - toordinal b) * 86400 + (secs a - secs b)) * 1000000
   + (microsecond a - microsecond b))%Z.

(** [timedelta.total_seconds()]: the microseconds divided by [10**6] as
    ints, rounded once. *)
Definition total_seconds (td : Z) : float :=
  SFdiv prec emax (exact_int td) (exact_int 1000000).

Definition digit (d : Z) : ascii :=
  match d with
  | 0 => "0" | 1 => "1" | 2 => "2" | 3 => "3" | 4 => "4"
  | 5 => "5" | 6 => "6" | 7 => "7" | 8 => "8" | _ => "9"
  end%Z%char.

(** [%02d], [%04d] and [%06d] on a value that fits the width. *)
Definition pad2 (n : Z) : string :=
  String (digit (n / 10 mod 10)) (String (digit (n mod 10)) "").
Definition pad4 (n : Z) : string := pad2 (n / 100) +:+ pad2 (n mod 100).
Definition pad6 (n : Z) : string := pad2 (n / 10000) +:+ pad4 (n mod 10000).

(** [str(t)], which is what an f-string writes for a datetime: ISO format
    with a space separator, the fraction only when it is not zero, then the
    zone offset. *)
Definition str_datetime (t : datetime) : string :=
  pad4 (year t) +:+ "-" +:+ pad2 (month t) +:+ "-" +:+ pad2 (day t) +:+ " "
  +:+ pad2 (hour t) +:+ ":" +:+ pad2 (minute t) +:+ ":" +:+ pad2 (second t)
  +:+ (if (microsecond t =? 0)%Z then "" else "." +:+ pad6 (microsecond t))
  +:+ "+05:30".

(** Whether a string holds the separator of the alert keys. *)
Fixpoint has_underscore (s : string) : bool :=
  match s with
  | EmptyString => false
  | String c s' => Ascii.eqb c "_" || has_underscore s'
  end.

(** ** Market data *)

(** A row of the provider's frame.  [time] is the row's index: exchange
    wall-clock seconds counted from a local midnight.  A missing price is
    NaN; [Volume] is an int64 column. *)
Record bar : Type := {
  time : Z;
  Open : float;
  High : float;
  Low : float;
  Close : float;
  Volume : Z
}.

(** The 4-hour bin a timestamp falls in; bins start at local midnight. *)
Definition bucket_of (t : Z) : Z := (t / 14400)%Z.

(** Column aggregations of a resampled group; each skips missing values. *)
Definition valid (xs : list float) : list float :=
  filter (fun x => is_nan x = false) xs.

Definition agg_first (xs : list float) : float := hd nan (valid xs).
Definition agg_last (xs : list float) : float := List.last (valid xs) nan.

Definition agg_max (xs : list float) : float :=
  match valid xs with
  | [] => nan
  | x :: rest => fold_left (fun acc y => if flt acc y then y else acc) rest x
  end.

Definition agg_min (xs : list float) : float :=
  match valid xs with
  | [] => nan
  | x :: rest => fold_left (fun acc y => if flt y acc then y else acc) rest x
  end.

(** A sum of the int64 column is taken in 64-bit arithmetic: it wraps
    around at [2^63]. *)
Definition wrap_int64 (z : Z) : Z := ((z + 2 ^ 63) mod 2 ^ 64 - 2 ^ 63)%Z.

Definition agg_sum (vs : list Z) : Z := wrap_int64 (foldr Z.add 0%Z vs).

(** The rows of [hist] that fall in bin [b], in frame order. *)
Definition group (hist : list bar) (b : Z) : list bar :=
  filter (fun r => bucket_of (time r) = b) hist.

(** One row of [hist.resample('4h').agg({...})]. *)
Definition agg_row (hist : list bar) (b : Z) : bar :=
  let g := group hist b in
  {| time := (b * 14400)%Z;
     Open := agg_first (Open <$> g);
     High := agg_max (High <$> g);
     Low := agg_min (Low <$> g);
     Close := agg_last (Close <$> g);
     Volume := agg_sum (Volume <$> g) |}.

(** [resample] first puts the frame in the order of its index, by a stable
    sort: rows of one timestamp keep their order, and a chronological frame
    is left as it is. *)
Fixpoint insert_bar (x : bar) (l : list bar) : list bar :=
  match l with
  | [] => [x]
  | y :: l' => if (time x <=? time y)%Z then x :: l else y :: insert_bar x l'
  end.

Definition sort_index (hist : list bar) : list bar := foldr insert_bar [] hist.

(** The bins of a frame in the order of its index: every bin from the
    first row's to the last row's, empty ones included. *)
Definition bins (hist : list bar) : list Z :=
  match hist with
  | [] => []
  | r0 :: _ => range (bucket_of (time r0)) (bucket_of (time (List.last hist r0)) + 1)
  end.

(** [hist.resample('4h').agg({...})]: one row per bin of the sorted
    frame. *)
Definition resample_4h_agg (hist : list bar) : list bar :=
  let sorted := sort_index hist in
  agg_row sorted <$> bins sorted.

(** [DataFrame.dropna()]: rows with a missing value are removed. *)
Definition has_na (r : bar) : bool :=
  is_nan (Open r) || is_nan (High r) || is_nan (Low r) || is_nan (Close r).

Definition dropna (rows : list bar) : list bar :=
  filter (fun r => has_na r = false) rows.

(** ** Scan orchestrator *)

Definition STOCK_SYMBOLS : list string := [
  "ADANIENT.NS"; "ADANIPORTS.NS"; "APOLLOHOSP.NS"; "ASIANPAINT.NS"; "AXISBANK.NS";
  "BAJAJ-AUTO.NS"; "BAJAJFINSV.NS"; "BAJFINANCE.NS"; "BHARTIARTL.NS"; "BPCL.NS";
  "BRITANNIA.NS"; "CIPLA.NS"; "COALINDIA.NS"; "DIVISLAB.NS"; "DRREDDY.NS";
  "EICHERMOT.NS"; "GRASIM.NS"; "HCLTECH.NS"; "HDFCBANK.NS"; "HDFCLIFE.NS";
  "HEROMOTOCO.NS"; "HINDALCO.NS"; "HINDUNILVR.NS"; "ICICIBANK.NS"; "ICICIGI.NS";
  "ICICIPRULI.NS"; "INDUSINDBK.NS"; "INFY.NS"; "ITC.NS"; "JSWSTEEL.NS";
  "KOTAKBANK.NS"; "LT.NS"; "LTIM.NS"; "M&M.NS"; "MARUTI.NS";
  "NESTLEIND.NS"; "NTPC.NS"; "ONGC.NS"; "POWERGRID.NS"; "RELIANCE.NS";
  "SBILIFE.NS"; "SBIN.NS"; "SUNPHARMA.NS"; "TATACONSUM.NS"; "TATAMOTORS.NS";
  "TATASTEEL.NS"; "TCS.NS"; "TECHM.NS"; "TITAN.NS"; "ULTRACEMCO.NS";
  "UPL.NS"; "WIPRO.NS"; "DLF.NS"; "SHRIRAMFIN.NS"; "CHOLAFIN.NS";
  "BAJAJHLDNG.NS"; "JINDALSTEL.NS"; "RECLTD.NS"; "ETERNAL.NS"; "PFC.NS";
  "LODHA.NS"; "SWIGGY.NS"; "JIOFIN.NS"; "ADANIPOWER.NS"; "VBL.NS";
  "BANKBARODA.NS"; "PNB.NS"; "MOTHERSON.NS"; "DMART.NS"; "SIEMENS.NS";
  "TATAPOWER.NS"; "JSWENERGY.NS"; "ADANIGREEN.NS"; "NAUKRI.NS"; "ABB.NS";
  "TRENT.NS"; "HAVELLS.NS"; "IOC.NS"; "SHREECEM.NS"; "TVSMOTOR.NS";
  "AMBUJACEM.NS"; "VEDL.NS"; "BOSCHLTD.NS"; "INDHOTEL.NS";
  "GAIL.NS"; "GODREJCP.NS"; "IRFC.NS"; "ZYDUSLIFE.NS";
  "CANBK.NS"; "BEL.NS"; "DABUR.NS"; "HAL.NS"; "CGPOWER.NS"
].

(** [s.replace(old, '')] for a non-empty [old]: every occurrence found
    scanning from the left is dropped; [skip] counts the characters of the
    current occurrence still to drop. *)
Fixpoint remove_all (old : string) (skip : nat) (s : string) : string :=
  match s with
  | EmptyString => EmptyString
  | String c s' =>
      match skip with
      | S k => remove_all old k s'
      | O => if String.prefix old s
             then remove_all old (Nat.pred (String.length old)) s'
             else String c (remove_all old 0 s')
      end
  end.

Definition strip_NS (symbol : string) : string := remove_all ".NS" 0 symbol.

(** The dict appended to [crossovers]. *)
Record crossover : Type := {
  symbol : string;
  type_ : string;
  previous_type : string;
  current_signal : string;
  timestamp : datetime;
  macd_value : float;
  signal_value : float;
  price : float;
  timeframe : string
}.

Definition bearish_signals : list string := [SELL; WEAK_SELL; STRONG_SELL].
Definition bullish_signals : list string := [BUY; WEAK_BUY; STRONG_BUY].

(** The two labels read from [macd_data['signals']]. *)
Definition current_of (signals : list string) : result string :=
  match signals with
  | [] => Ok NO_SIGNAL
  | _ => index signals (-1)
  end.

Definition prev_of (signals : list string) : result string :=
  if (1 <? len signals)%Z then index signals (-2) else Ok NO_SIGNAL.

(** The test guarding the append. *)
Definition is_crossover (prev_signal current_signal : string) : bool :=
  bool_decide (prev_signal ∈ bearish_signals)
  && bool_decide (current_signal ∈ bullish_signals).

(** The crossover detector: the two labels, when the event is to be
    appended. *)
Definition detect (signals : list string) : result (option (string * string)) :=
  current_signal ← current_of signals;
  prev_signal ← prev_of signals;
  if is_crossover prev_signal current_signal
  then Ok (Some (prev_signal, current_signal))
  else Ok None.

(** What lies outside the program during one run of [scan_stocks_now]:
    the data provider, the clock and the notifier.
    - [history symbol period interval] is [yf.Ticker(symbol).history(...)];
    - [now_at timeframe idx] is the reading of [get_ist_time()] taken when
      the event for the instrument number [idx] is built in the scan of
      [timeframe];
    - [now_notify] and [now_done] are the readings taken before the
      cooldown test and at the end of the scan;
    - [notifier_result] is the value [send_telegram_alerts] returns for the two
      alert lists: [None] without credentials, otherwise whether the HTTP
      status was 200. *)
Record world : Type := {
  history : string -> string -> string -> result (list bar);
  now_at : string -> nat -> datetime;
  now_notify : datetime;
  now_done : datetime;
  notifier_result : option bool
}.

(** The body of the [try] for one instrument; [Ok None] stands for leaving
    the iteration without an event. *)
Definition scan_symbol (w : world) (timeframe : string) (idx : nat) (sym : string)
  : result (option crossover) :=
  hist ← (if String.eqb timeframe "4h"
          then h ← history w sym "60d" "1h";
               Ok (match h with [] => h | _ => dropna (resample_4h_agg h) end)
          else history w sym "3mo" "1d");
  match hist with
  | [] => Ok None
  | _ =>
      if (len hist <? 30)%Z then Ok None
      else
        let prices := Close <$> hist in
        md ← calculate_macd prices;
        match md with
        | None => Ok None
        | Some macd_data =>
            found ← detect (signals macd_data);
            match found with
            | Some (prev_signal, current_signal) =>
                last_price ← index prices (-1);
                Ok (Some {| symbol := strip_NS sym;
                            type_ := "bullish";
                            previous_type := prev_signal;
                            current_signal := current_signal;
                            timestamp := now_at w timeframe idx;
                            macd_value := macd macd_data;
                            signal_value := signal macd_data;
                            price := last_price;
                            timeframe := timeframe |})
            | None => Ok None
            end
        end
  end.

(** [scan_crossovers(timeframe)]: an exception raised for an instrument is
    swallowed and the loop goes on. *)
Definition scan_crossovers (w : world) (timeframe : string) : list crossover :=
  fold_left
    (fun crossovers '(idx, sym) =>
       match scan_symbol w timeframe idx sym with
       | Ok (Some c) => crossovers ++ [c]
       | Ok None => crossovers
       | Raise _ => crossovers
       end)
    (zip (seq 0 (length STOCK_SYMBOLS)) STOCK_SYMBOLS) [].

(** ** Alert ledger and notification throttle *)

(** The f-string [f"{c['symbol']}_{c['timestamp']}"]. *)
Definition alert_key (c : crossover) : string :=
  symbol c +:+ "_" +:+ str_datetime (timestamp c).

Record session_state : Type := {
  crossover_data_4h : list crossover;
  crossover_data_1d : list crossover;
  previous_alerts : gset string;
  notification_enabled : bool;
  last_telegram_sent_time : datetime;
  last_scan_time : datetime
}.

(** What [scan_stocks_now] does to the outside, in order. *)
Inductive effect : Type :=
| Balloons
| SendTelegramAlerts (alerts_4h alerts_1d : list crossover)
| SuccessSent (n : nat)
| WarningFailed
| InfoCooldown.

(** [(now - last).total_seconds() / 60]. *)
Definition time_since (now last : datetime) : float :=
  fdiv_int (total_seconds (datetime_sub now last)) 60.

(** The ledger test of the two list comprehensions. *)
Definition new_alerts (previous : gset string) (crossovers : list crossover)
  : list crossover :=
  filter (fun c => alert_key c ∉ previous) crossovers.

Definition alert_keys (crossovers : list crossover) : gset string :=
  list_to_set (alert_key <$> crossovers).

(** [st.session_state.last_telegram_sent_time = now]. *)
Definition set_last_telegram_sent_time (st : session_state) (now : datetime)
  : session_state :=
  {| crossover_data_4h := crossover_data_4h st;
     crossover_data_1d := crossover_data_1d st;
     previous_alerts := previous_alerts st;
     notification_enabled := notification_enabled st;
     last_telegram_sent_time := now;
     last_scan_time := last_scan_time st |}.

(** The notification step: the new session state and the effects. *)
Definition notify (w : world) (st : session_state)
    (new_alerts_4h new_alerts_1d : list crossover)
  : session_state * list effect :=
  let all_new_alerts := new_alerts_4h ++ new_alerts_1d in
  match all_new_alerts with
  | [] => (st, [])
  | _ =>
      if notification_enabled st then
        let now := now_notify w in
        let time_since_last_telegram := time_since now (last_telegram_sent_time st) in
        if fge time_since_last_telegram (of_int 45) then
          match notifier_result w with
          | Some true =>
              (set_last_telegram_sent_time st now,
               [Balloons; SendTelegramAlerts new_alerts_4h new_alerts_1d;
                SuccessSent (length all_new_alerts)])
          | _ =>
              (st, [Balloons; SendTelegramAlerts new_alerts_4h new_alerts_1d;
                    WarningFailed])
          end
        else (st, [Balloons; InfoCooldown])
      else (st, [])
  end.

(** The part of [scan_stocks_now] that follows the two scans: the new
    session state, the effects and the returned triple of counts. *)
Definition after_scan (w : world) (st : session_state)
    (crossovers_4h crossovers_1d : list crossover)
  : session_state * list effect * (nat * nat * nat) :=
  let current_alerts_4h := alert_keys crossovers_4h in
  let current_alerts_1d := alert_keys crossovers_1d in
  let new_alerts_4h := new_alerts (previous_alerts st) crossovers_4h in
  let new_alerts_1d := new_alerts (previous_alerts st) crossovers_1d in
  let all_new_alerts := new_alerts_4h ++ new_alerts_1d in
  let '(st1, effects) := notify w st new_alerts_4h new_alerts_1d in
  ({| crossover_data_4h := crossovers_4h;
      crossover_data_1d := crossovers_1d;
      previous_alerts := current_alerts_4h ∪ current_alerts_1d;
      notification_enabled := notification_enabled st1;
      last_telegram_sent_time := last_telegram_sent_time st1;
      last_scan_time := now_done w |},
   effects,
   (length crossovers_4h, length crossovers_1d, length all_new_alerts)).

(** [scan_stocks_now()]. *)
Definition scan_stocks_now (w : world) (st : session_state)
  : session_state * list effect * (nat * nat * nat) :=
  let crossovers_4h := scan_crossovers w "4h" in
  let crossovers_1d := scan_crossovers w "1d" in
  after_scan w st crossovers_4h crossovers_1d.

(** ** The classifier as the specification words it *)

(** The rule table of the specification, in its precedence order. *)
Definition rule_table : list ((float -> float -> bool) * string) :=
  let zero := of_int 0 in
  [ (fun m s => fgt m s && fgt m zero && fgt s zero, STRONG_BUY);
    (fun m s => flt m s && flt m zero && flt s zero, STRONG_SELL);
    (fun m s => fgt m s && flt m zero, WEAK_BUY);
    (fun m s => flt m s && fgt m zero, WEAK_SELL);
    (fun m s => fgt m s, BUY);
    (fun m s => flt m s, SELL) ].

(** First match wins; [NO_SIGNAL] when no rule fires. *)
Fixpoint first_match (rules : list ((float -> float -> bool) * string))
    (m s : float) : string :=
  match rules with
  | [] => NO_SIGNAL
  | (cond, label) :: rules' => if cond m s then label else first_match rules' m s
  end.

Definition LABELS : list string :=
  [STRONG_BUY; STRONG_SELL; WEAK_BUY; WEAK_SELL; BUY; SELL; NO_SIGNAL].

(** ** Auxiliary notions of the proofs *)

(** *** Order of the float comparison

    [flt] on two floats that are not NaN is the lexicographic order of
    their keys. *)

Definition key (x : float) : Z * Z * Z :=
  match x with
  | S754_infinity true => (-2, 0, 0)
  | S754_finite true m e => (-1, - e, Z.neg m)
  | S754_zero _ => (0, 0, 0)
  | S754_nan => (0, 0, 0)
  | S754_finite false m e => (1, e, Z.pos m)
  | S754_infinity false => (2, 0, 0)
  end%Z.

Definition key_lt (a b : Z * Z * Z) : Prop :=
  (a.1.1 < b.1.1 \/
   (a.1.1 = b.1.1 /\ (a.1.2 < b.1.2 \/ (a.1.2 = b.1.2 /\ a.2 < b.2))))%Z.

(** *** Buckets and rows without missing prices *)

(** Each price column of the bucket [g] has a value that is not NaN. *)
Definition complete (g : list bar) : Prop :=
  valid (Open <$> g) <> [] /\ valid (High <$> g) <> [] /\
  valid (Low <$> g) <> [] /\ valid (Close <$> g) <> [].

(** Every element of the list is related to every later one. *)
Definition ordered {A : Type} (R : A -> A -> Prop) (l : list A) : Prop :=
  forall i j a b, i < j -> l !! i = Some a -> l !! j = Some b -> R a b.

(** The frame is in the order of its index: no row is earlier than a row
    before it. *)
Definition chronological (hist : list bar) : Prop :=
  ordered (fun a b => (time a <= time b)%Z) hist.

(** No price of the bar [r] is NaN. *)
Definition no_missing (r : bar) : Prop :=
  is_nan (Open r) = false /\ is_nan (High r) = false /\
  is_nan (Low r) = false /\ is_nan (Close r) = false.

(** A bar with integer prices. *)
Definition hour_bar (t : Z) (o h l c : Z) (v : Z) : bar :=
  {| time := t; Open := of_int o; High := of_int h; Low := of_int l;
     Close := of_int c; Volume := v |}.

(** *** Position of a quotient between two integers *)

(** [loc_of num den]: where the fraction [num/den] of a value lies between
    two consecutive integers. *)
Definition loc_of (num den : Z) : location :=
  if (num =? 0)%Z then loc_Exact else loc_Inexact (2 * num ?= den)%Z.

(** The record [mrs] holds the integer part of [X/den] with the position of
    the fraction. *)
Definition located (X den : Z) (mrs : shr_record) : Prop :=
  let num := (X - shr_m mrs * den)%Z in
  (0 <= shr_m mrs)%Z /\ (0 < den)%Z /\ (0 <= num < den)%Z /\
  shr_r mrs = (den <=? 2 * num)%Z /\
  shr_s mrs = negb (num =? 0)%Z && negb (2 * num =? den)%Z.

(** The float 2700.0 (45 minutes in seconds), the float just below it and
    the float just below 45.0. *)
Definition F2700 : float := S754_finite false 5937362789990400 (-41).
Definition F2700_pred : float := S754_finite false 5937362789990399 (-41).
Definition F45_pred : float := S754_finite false 6333186975989759 (-47).

(** ** Sample values *)

Definition sample_time (h mi : Z) : datetime :=
  {| year := 2024; month := 1; day := 15; hour := h; minute := mi;
     second := 0; microsecond := 0 |}.

Definition sample_event (sym : string) (t : datetime) : crossover :=
  {| symbol := sym; type_ := "bullish"; previous_type := SELL;
     current_signal := BUY; timestamp := t; macd_value := of_int 1;
     signal_value := of_int 0; price := of_int 100; timeframe := "1d" |}.

Definition sample_world (now : datetime) (sent : option bool) : world :=
  {| history := fun _ _ _ => Raise ProviderError; now_at := fun _ _ => now;
     now_notify := now; now_done := now; notifier_result := sent |}.

Definition sample_state (ledger : gset string) (last : datetime) : session_state :=
  {| crossover_data_4h := []; crossover_data_1d := [];
     previous_alerts := ledger; notification_enabled := true;
     last_telegram_sent_time := last; last_scan_time := last |}.

(** ** Display of times *)

(** The hour of the 12-hour clock ([%I]) and the half of the day ([%p]). *)
Definition hour12 (h : Z) : Z := (if h mod 12 =? 0 then 12 else h mod 12)%Z.
Definition am_pm (h : Z) : string := if (h <? 12)%Z then "AM" else "PM".

(** [%b] in the C locale, which the program never changes. *)
Definition MONTH_ABBR : list string :=
  [""; "Jan"; "Feb"; "Mar"; "Apr"; "May"; "Jun";
   "Jul"; "Aug"; "Sep"; "Oct"; "Nov"; "Dec"].
Definition month_abbr (m : Z) : string := nth (Z.to_nat m) MONTH_ABBR "".

(** [format_time_12hr(dt)], that is [dt.strftime("%I:%M:%S %p")]. *)
Definition format_time_12hr (dt : datetime) : string :=
  pad2 (hour12 (hour dt)) +:+ ":" +:+ pad2 (minute dt) +:+ ":"
  +:+ pad2 (second dt) +:+ " " +:+ am_pm (hour dt).

(** [is_trading_hours()] at the clock reading [now]. *)
Definition is_trading_hours (now : datetime) : bool :=
  ((0 <=? hour now) && (hour now <? 24))%Z.

(** ** Telegram notifier *)

(** The strings of this development are byte strings.  On ASCII text,
    which the ticker symbols are, [str.strip] and [str.upper] are the
    following; [py_isspace] is [str.isspace] on an ASCII character. *)
Definition py_isspace (c : ascii) : bool :=
  let n := nat_of_ascii c in
  ((9 <=? n) && (n <=? 13)) || ((28 <=? n) && (n <=? 32)).

Fixpoint lstrip (s : string) : string :=
  match s with
  | EmptyString => EmptyString
  | String c s' => if py_isspace c then lstrip s' else s
  end.

Fixpoint rstrip (s : string) : string :=
  match s with
  | EmptyString => EmptyString
  | String c s' =>
      match rstrip s' with
      | EmptyString => if py_isspace c then EmptyString else String c EmptyString
      | r => String c r
      end
  end.

Definition py_strip (s : string) : string := rstrip (lstrip s).

Definition upper_char (c : ascii) : ascii :=
  let n := nat_of_ascii c in
  if (97 <=? n) && (n <=? 122) then ascii_of_nat (n - 32) else c.

Fixpoint py_upper (s : string) : string :=
  match s with
  | EmptyString => EmptyString
  | String c s' => String (upper_char c) (py_upper s')
  end.

(** The inner function [extract_symbols]; an alert always has a string
    under ['symbol']. *)
Definition extract_symbols (alerts : list crossover) : list string :=
  (fun a => py_upper (py_strip (symbol a))) <$> alerts.

(** [strftime('%d %b %Y, %I:%M %p')] for a year of four digits. *)
Definition strftime_scanned_at (t : datetime) : string :=
  pad2 (day t) +:+ " " +:+ month_abbr (month t) +:+ " " +:+ pad4 (year t)
  +:+ ", " +:+ pad2 (hour12 (hour t)) +:+ ":" +:+ pad2 (minute t)
  +:+ " " +:+ am_pm (hour t).

Definition newline : string := String "010" EmptyString.

(** [sep.join(lines)]. *)
Fixpoint join (sep : string) (lines : list string) : string :=
  match lines with
  | [] => EmptyString
  | [x] => x
  | x :: rest => x +:+ sep +:+ join sep rest
  end.

(** The lines of one timeframe, when it has symbols. *)
Definition section_lines (title : string) (symbols : list string) : list string :=
  match symbols with
  | [] => []
  | _ => [title] ++ ((fun sym => "• " +:+ sym) <$> symbols) ++ [EmptyString]
  end.

Definition message_lines (now : datetime) (alerts_4h_symbols alerts_1d_symbols : list string)
  : list string :=
  ["📈 *MACD Crossover Summary*";
   "🕒 *Scanned at:* " +:+ strftime_scanned_at now +:+ " IST" +:+ newline]
  ++ section_lines "⏱️ *4H Timeframe*" alerts_4h_symbols
  ++ section_lines "📅 *1D Timeframe*" alerts_1d_symbols.

Record button : Type := {
  button_text : string;
  button_url : string
}.

Definition make_button (sym : string) : button :=
  {| button_text := "🔗 " +:+ sym;
     button_url := "https://www.tradingview.com/chart/?symbol=NSE:" +:+ sym |}.

(** One iteration of the loop over [enumerate(all_symbols, 1)]; the state is
    [(inline_keyboard, row)]. *)
Definition keyboard_step (st : list (list button) * list button) (p : Z * string)
  : list (list button) * list button :=
  let '(inline_keyboard, row) := st in
  let '(i, sym) := p in
  let row := row ++ [make_button sym] in
  if (i mod 2 =? 0)%Z then (inline_keyboard ++ [row], []) else (inline_keyboard, row).

(** The rows of buttons, with the row left over after the loop. *)
Definition build_keyboard (all_symbols : list string) : list (list button) :=
  let '(inline_keyboard, row) :=
    fold_left keyboard_step (zip (seqZ 1 (len all_symbols)) all_symbols) ([], []) in
  match row with
  | [] => inline_keyboard
  | _ => inline_keyboard ++ [row]
  end.

Record payload : Type := {
  payload_chat_id : string;
  payload_text : string;
  parse_mode : string;
  inline_keyboard : list (list button)
}.

(** What [requests.post] gives: a response with its status code and text,
    or an exception. *)
Inductive response : Type :=
| Response (status_code : Z) (body : string)
| RequestException (message : string).

(** What lies outside [send_telegram_alerts]: the two credentials ([None]
    when the secret and the environment variable are both missing), the
    clock and the HTTP service. *)
Record telegram : Type := {
  TELEGRAM_BOT_TOKEN : option string;
  TELEGRAM_CHAT_ID : option string;
  now_message : datetime;
  post : string -> payload -> response
}.

Inductive telegram_effect : Type :=
| Print (line : string)
| Post (url : string) (json : payload).

(** [not x] for a credential. *)
Definition missing (x : option string) : bool :=
  match x with
  | None => true
  | Some EmptyString => true
  | Some _ => false
  end.

(** [send_telegram_alerts(alerts_4h, alerts_1d)]: the returned value
    ([None] for the bare [return]) and what it did. *)
Definition send_telegram_alerts (env : telegram) (alerts_4h alerts_1d : list crossover)
  : option bool * list telegram_effect :=
  let bot_token := TELEGRAM_BOT_TOKEN env in
  let chat_id := TELEGRAM_CHAT_ID env in
  if missing bot_token || missing chat_id
  then (None, [Print "❌ Telegram credentials missing."])
  else
    let alerts_4h_symbols := extract_symbols alerts_4h in
    let alerts_1d_symbols := extract_symbols alerts_1d in
    let message_text :=
      join newline (message_lines (now_message env) alerts_4h_symbols alerts_1d_symbols) in
    let all_symbols := alerts_4h_symbols ++ alerts_1d_symbols in
    let json :=
      {| payload_chat_id := default EmptyString chat_id;
         payload_text := message_text;
         parse_mode := "Markdown";
         inline_keyboard := build_keyboard all_symbols |} in
    let url := "https://api.telegram.org/bot" +:+ default EmptyString bot_token
               +:+ "/sendMessage" in
    match post env url json with
    | Response status_code body =>
        if (status_code =? 200)%Z
        then (Some true, [Post url json; Print "✅ Telegram alert sent."])
        else (Some false, [Post url json; Print ("❌ Telegram error: " +:+ body)])
    | RequestException message =>
        (Some false, [Post url json; Print ("❌ Telegram send failed: " +:+ message)])
    end.

(** The rows, by recursion on the symbols two at a time. *)
Fixpoint rows_of (symbols : list string) (fuel : nat) : list (list button) :=
  match fuel with
  | O => []
  | S fuel' =>
      match symbols with
      | [] => []
      | [a] => [[make_button a]]
      | a :: b :: rest => [make_button a; make_button b] :: rows_of rest fuel'
      end
  end.

(** ** The auto-refresh of the page *)

(** A Python number: the arguments of [max] and [min] below mix ints and
    floats. *)
Inductive number : Type :=
| Int (z : Z)
| Float (x : float).

(** [max(0, x)] for a float [x]: the first argument stays unless the second
    is greater. *)
Definition max_0 (x : float) : number :=
  if fgt x (of_int 0) then Float x else Int 0.

(** [min(5, t)]: the first argument stays unless the second is less. *)
Definition min_5 (t : number) : number :=
  match t with
  | Int z => if (z <? 5)%Z then Int z else Int 5
  | Float x => if flt x (of_int 5) then Float x else Int 5
  end.

(** [st.session_state.last_scan_time = current_time]. *)
Definition set_last_scan_time (st : session_state) (current_time : datetime)
  : session_state :=
  {| crossover_data_4h := crossover_data_4h st;
     crossover_data_1d := crossover_data_1d st;
     previous_alerts := previous_alerts st;
     notification_enabled := notification_enabled st;
     last_telegram_sent_time := last_telegram_sent_time st;
     last_scan_time := current_time |}.

Inductive page_effect : Type :=
| Scan (effects : list effect)
| SuccessAutoScan (total_count : nat)
| Sleep (seconds : number)
| Rerun.

(** The block [if st.session_state.auto_refresh:] that ends [main()], at
    the clock reading [current_time]; [w] is what lies outside during the
    scan it may start.  [last_scan_time] is set when the session starts and
    only ever assigned datetimes, so the test for [None] never holds. *)
Definition auto_refresh_block (auto_refresh : bool) (current_time : datetime)
    (w : world) (st : session_state) : session_state * list page_effect :=
  if auto_refresh then
    let time_since_last_scan := time_since current_time (last_scan_time st) in
    let '(st1, scanned) :=
      if fge time_since_last_scan (of_int 15) then
        let '(st', effects, (count_4h, count_1d, total_count)) := scan_stocks_now w st in
        (set_last_scan_time st' current_time,
         Scan effects :: (if 0 <? total_count then [SuccessAutoScan total_count] else []))
      else (st, []) in
    let time_until_next_scan :=
      max_0 (fsub (of_int (15 * 60)) (fmul time_since_last_scan (of_int 60))) in
    (st1, scanned ++ [Sleep (min_5 time_until_next_scan); Rerun])
  else (st, []).

(** The float 900.0 (15 minutes in seconds), the float just below it and
    the float just below 15.0. *)
Definition F900 : float := S754_finite false 7916483719987200 (-43).
Definition F900_pred : float := S754_finite false 7916483719987199 (-43).
Definition F15_pred : float := S754_finite false 8444249301319679 (-49).

(** ** Start of a session *)

(** [datetime - timedelta(minutes=n)], as CPython computes it: the datetime
    is turned into days (its ordinal), seconds and microseconds, the
    timedelta is subtracted, and the days are turned back into a date
    ([_ord2ymd]); a result outside the years 1 to 9999 raises
    [OverflowError], which is [None] here. *)
Definition DAYS_IN_MONTH : list Z :=
  [-1; 31; 28; 31; 30; 31; 30; 31; 31; 30; 31; 30; 31]%Z.

(** The month and the day of the [n]-th day (from 0) of a year. *)
Definition month_day (leapyear : bool) (n : Z) : Z * Z :=
  let month := Z.shiftr (n + 50) 5 in
  let preceding :=
    (nth (Z.to_nat month) DAYS_BEFORE_MONTH 0
     + (if (2 <? month) && leapyear then 1 else 0))%Z in
  if (n <? preceding)%Z then
    let month := (month - 1)%Z in
    let preceding :=
      (preceding - (nth (Z.to_nat month) DAYS_IN_MONTH 0
                    + (if (month =? 2) && leapyear then 1 else 0)))%Z in
    (month, n - preceding + 1)%Z
  else (month, n - preceding + 1)%Z.

(** [_ord2ymd(n)]. *)
Definition ord2ymd (n : Z) : Z * Z * Z :=
  let n := (n - 1)%Z in
  let n400 := (n / 146097)%Z in
  let n := (n mod 146097)%Z in
  let year := (n400 * 400 + 1)%Z in
  let n100 := (n / 36524)%Z in
  let n := (n mod 36524)%Z in
  let n4 := (n / 1461)%Z in
  let n := (n mod 1461)%Z in
  let n1 := (n / 365)%Z in
  let n := (n mod 365)%Z in
  let year := (year + (n100 * 100 + n4 * 4 + n1))%Z in
  if ((n1 =? 4) || (n100 =? 4))%Z then ((year - 1)%Z, 12%Z, 31%Z)
  else
    let leapyear := ((n1 =? 3) && (negb (n4 =? 24) || (n100 =? 3)))%Z in
    let '(month, day) := month_day leapyear n in
    (year, month, day).

Definition MAXORDINAL : Z := 3652059.

(** The microseconds from the midnight that starts ordinal 0. *)
Definition microseconds_of (t : datetime) : Z :=
  ((toordinal t * 86400 + (second t + minute t * 60 + hour t * 3600)) * 1000000
   + microsecond t)%Z.

Definition minus_minutes (t : datetime) (n : Z) : option datetime :=
  let us := (microseconds_of t - n * 60 * 1000000)%Z in
  let days := (us / 86400000000)%Z in
  let seconds := (us mod 86400000000 / 1000000)%Z in
  let microseconds := (us mod 86400000000 mod 1000000)%Z in
  if ((0 <? days) && (days <=? MAXORDINAL))%Z then
    let '(y, m, d) := ord2ymd days in
    Some {| year := y; month := m; day := d;
            hour := (seconds / 3600)%Z;
            minute := (seconds mod 3600 / 60)%Z;
            second := (seconds mod 3600 mod 60)%Z;
            microsecond := microseconds |}
  else None.

(** The session state set up when the script first runs in a session:
    [scan_interval], [auto_refresh] and the fields of [session_state];
    [now_scan] and [now_telegram] are the two readings of [get_ist_time()]. *)
Record session : Type := {
  scan_interval : Z;
  auto_refresh : bool;
  state : session_state
}.

Definition initial_session (now_scan now_telegram : datetime) : option session :=
  let scan_interval := 15%Z in
  last_scan ← minus_minutes now_scan (scan_interval + 1);
  last_telegram ← minus_minutes now_telegram 46;
  Some {| scan_interval := scan_interval;
          auto_refresh := false;
          state := {| crossover_data_4h := [];
                      crossover_data_1d := [];
                      previous_alerts := ∅;
                      notification_enabled := true;
                      last_telegram_sent_time := last_telegram;
                      last_scan_time := last_scan |} |}.

(** ** Sample market data *)

(** Thirty daily bars whose closes fall from 100 to 72 and then jump to
    120, and thirty whose first close is missing. *)
Definition sample_daily : list bar :=
  ((fun i => hour_bar (i * 86400) (100 - i) (100 - i) (100 - i) (100 - i) 1000)
     <$> seqZ 0 29)
  ++ [hour_bar (29 * 86400) 120 120 120 120 1000].

Definition sample_daily_nan : list bar :=
  {| time := 0; Open := nan; High := nan; Low := nan; Close := nan; Volume := 0 |}
  :: tail sample_daily.

(** A provider that knows the daily frame of one instrument only. *)
Definition sample_market (frame : list bar) (now : datetime) : world :=
  {| history := fun sym period interval =>
       if String.eqb sym "TCS.NS" && String.eqb interval "1d"
       then Ok frame else Raise ProviderError;
     now_at := fun _ _ => now;
     now_notify := now; now_done := now; notifier_result := Some true |}.

(** * Properties *)

(** ** Classifier, indicator engine, detector and alert ledger *)

Lemma LABELS_NoDup : NoDup LABELS.
Proof. apply (bool_decide_unpack _). vm_compute. reflexivity. Qed.

(** C1: for every pair of floats the classifier returns the label of the
    first rule of the precedence table that holds, [NO_SIGNAL] when none
    does; the label is one of the seven labels, which are pairwise
    different, and it is a function of the pair alone. *)
Theorem classify_first_match (m s : float) :
  classify m s = first_match rule_table m s /\
  classify m s ∈ LABELS /\
  (forall l l', l ∈ LABELS -> l' ∈ LABELS -> classify m s = l -> classify m s = l' -> l = l') /\
  NoDup LABELS.
Proof.
  split; [reflexivity|]. split.
  - unfold classify, LABELS.
    repeat match goal with |- context [if ?b then _ else _] => destruct b end;
      set_solver.
  - split; [congruence | exact LABELS_NoDup].
Qed.

Section Index.
Context {A : Type}.
Implicit Types (l : list A) (i : nat).

Lemma index_nat l i x : l !! i = Some x -> index l (Z.of_nat i) = Ok x.
Proof.
  intros H. unfold index.
  destruct (Z.ltb_spec (Z.of_nat i) 0) as [Hneg|_]; [lia|].
  destruct (Z.ltb_spec (Z.of_nat i) 0) as [Hneg|_]; [lia|].
  by rewrite Nat2Z.id, H.
Qed.

Lemma index_from_end l x (n : nat) :
  l !! (length l - S n) = Some x -> (n < length l) ->
  index l (- Z.of_nat (S n)) = Ok x.
Proof.
  intros H Hn. unfold index.
  destruct (Z.ltb_spec (- Z.of_nat (S n)) 0) as [_|Hpos]; [|lia].
  destruct (Z.ltb_spec (Z.of_nat (length l) + - Z.of_nat (S n)) 0) as [Hneg|_]; [lia|].
  replace (Z.to_nat (Z.of_nat (length l) + - Z.of_nat (S n))) with (length l - S n) by lia.
  by rewrite H.
Qed.

Lemma index_last l x : index (l ++ [x]) (-1)%Z = Ok x.
Proof.
  apply (index_from_end (l ++ [x]) x 0).
  - rewrite length_app. simpl. replace (length l + 1 - 1) with (length l) by lia.
    by rewrite list_lookup_middle.
  - rewrite length_app. simpl. lia.
Qed.
End Index.

Lemma ema_loop (data : list float) (k : float) (n : nat) :
  forall (pre : list float) (a : float),
    length pre + 1 + n <= length data ->
    for_each (seqZ (Z.of_nat (length pre + 1)) (Z.of_nat n))
      (fun ema_array i =>
         x ← index data i;
         prev ← index ema_array (i - 1);
         let ema_value := ema_step k x prev in
         Ok (ema_array ++ [ema_value]))
      (pre ++ [a])
    = Ok (pre ++ [a] ++ ema_from k a (take n (drop (length pre + 1) data))).
Proof.
  induction n as [|n IH]; intros pre a Hlen.
  - reflexivity.
  - rewrite seqZ_cons by lia. cbn [for_each].
    destruct (lookup_lt_is_Some_2 data (length pre + 1)) as [x Hx]; [lia|].
    rewrite (index_nat _ _ _ Hx). cbn [mbind result_bind].
    replace (Z.of_nat (length pre + 1) - 1)%Z with (Z.of_nat (length pre)) by lia.
    rewrite (index_nat (pre ++ [a]) (length pre) a) by (by apply list_lookup_middle).
    cbn [mbind result_bind].
    replace (Z.succ (Z.of_nat (length pre + 1))) with (Z.of_nat (length (pre ++ [a]) + 1))
      by (rewrite length_app; simpl; lia).
    replace (Z.pred (Z.of_nat (S n))) with (Z.of_nat n) by lia.
    rewrite (IH (pre ++ [a])) by (rewrite length_app; simpl; lia).
    f_equal. rewrite <- !app_assoc. f_equal. simpl. f_equal.
    rewrite length_app. simpl.
    rewrite (drop_S _ _ _ Hx). simpl.
    by replace (length pre + 1 + 1) with (S (length pre + 1)) by lia.
Qed.

Lemma calculate_ema_cons (d0 : float) (rest : list float) (period : Z) (k : float) :
  int_truediv 2 (period + 1) = Ok k ->
  calculate_ema (d0 :: rest) period = Ok (d0 :: ema_from k d0 rest).
Proof.
  intros Hk. unfold calculate_ema. rewrite Hk. cbn [mbind result_bind].
  change (index (d0 :: rest) 0) with (Ok d0). cbn [mbind result_bind].
  unfold range, len. 
  replace (Z.of_nat (length (d0 :: rest)) - 1)%Z with (Z.of_nat (length rest)) by (simpl; lia).
  pose proof (ema_loop (d0 :: rest) k (length rest) [] d0) as H.
  etrans; [apply H; simpl; lia|]. simpl. rewrite drop_0. by rewrite take_ge by lia.
Qed.

Lemma int_truediv_ok (a b : Z) : b <> 0%Z -> exists k, int_truediv a b = Ok k.
Proof.
  intros Hb. unfold int_truediv. destruct (Z.eqb_spec b 0); [done|]. eauto.
Qed.

Lemma ema_from_length k prev rest : length (ema_from k prev rest) = length rest.
Proof. revert prev. induction rest as [|x rest IH]; intros prev; simpl; [done|]. by rewrite IH. Qed.

Lemma ema_from_lookup k rest : forall d0 i x prev,
  rest !! i = Some x -> (d0 :: ema_from k d0 rest) !! i = Some prev ->
  (d0 :: ema_from k d0 rest) !! S i = Some (ema_step k x prev).
Proof.
  induction rest as [|y rest IH]; intros d0 i x prev Hx Hp; [done|].
  destruct i as [|i]; simpl in *.
  - by simplify_eq.
  - by apply IH.
Qed.

(** *** Loops that fill a list *)

Lemma comprehension_tabulate {B : Type} (g : Z -> result B) (l : list B) :
  forall off : nat,
    (forall i x, l !! i = Some x -> g (Z.of_nat (off + i)) = Ok x) ->
    comprehension g (seqZ (Z.of_nat off) (Z.of_nat (length l))) = Ok l.
Proof.
  induction l as [|y l IH]; intros off Hg; [reflexivity|].
  cbn [length]. rewrite seqZ_cons by lia. cbn [comprehension].
  rewrite <- (Nat.add_0_r off) at 1. rewrite (Hg 0 y eq_refl). cbn [mbind result_bind].
  replace (Z.succ (Z.of_nat off)) with (Z.of_nat (S off)) by lia.
  replace (Z.pred (Z.of_nat (S (length l)))) with (Z.of_nat (length l)) by lia.
  rewrite IH; [reflexivity|].
  intros i x Hx. replace (S off + i) with (off + S i) by lia. by apply Hg.
Qed.

Lemma for_each_append {B : Type} (body : list B -> Z -> result (list B)) (l : list B) :
  forall (off : nat) (acc : list B),
    (forall acc' i x, l !! i = Some x -> body acc' (Z.of_nat (off + i)) = Ok (acc' ++ [x])) ->
    for_each (seqZ (Z.of_nat off) (Z.of_nat (length l))) body acc = Ok (acc ++ l).
Proof.
  induction l as [|y l IH]; intros off acc Hb.
  - by rewrite app_nil_r.
  - cbn [length]. rewrite seqZ_cons by lia. cbn [for_each].
    rewrite <- (Nat.add_0_r off) at 1. rewrite (Hb acc 0 y eq_refl). cbn [mbind result_bind].
    replace (Z.succ (Z.of_nat off)) with (Z.of_nat (S off)) by lia.
    replace (Z.pred (Z.of_nat (S (length l)))) with (Z.of_nat (length l)) by lia.
    rewrite IH.
    + by rewrite <- app_assoc.
    + intros acc' i x Hx. replace (S off + i) with (off + S i) by lia. by apply Hb.
Qed.

Lemma index_neg1 {A : Type} (l : list A) :
  l <> [] -> exists x, last l = Some x /\ index l (-1)%Z = Ok x.
Proof.
  intros Hne. destruct (exists_last Hne) as (l' & x & ->).
  exists x. split; [apply last_snoc | apply index_last].
Qed.

(** *** The body of [calculate_macd] *)

Lemma calculate_ema_nonempty (data : list float) (period : Z) :
  period <> (-1)%Z -> data <> [] ->
  exists k d0 rest, int_truediv 2 (period + 1) = Ok k /\ data = d0 :: rest /\
    calculate_ema data period = Ok (d0 :: ema_from k d0 rest).
Proof.
  intros Hp Hne. destruct data as [|d0 rest]; [done|].
  destruct (int_truediv_ok 2 (period + 1)) as [k Hk]; [lia|].
  exists k, d0, rest. split; [done|]. split; [done|]. by apply calculate_ema_cons.
Qed.

Lemma calculate_ema_length (data out : list float) (period : Z) :
  calculate_ema data period = Ok out -> length out = length data.
Proof.
  destruct data as [|d0 rest]; [by intros [= <-]|].
  destruct (Z.eq_dec period (-1)%Z) as [->|Hp].
  - discriminate.
  - destruct (int_truediv_ok 2 (period + 1)) as [k Hk]; [lia|].
    rewrite (calculate_ema_cons _ _ _ _ Hk). intros [= <-]. simpl.
    by rewrite ema_from_length.
Qed.

Lemma macd_body_spec (close_prices : list float) :
  close_prices <> [] ->
  exists fast slow sig m_last s_last,
    calculate_ema close_prices 12 = Ok fast /\
    calculate_ema close_prices 26 = Ok slow /\
    calculate_ema (zip_with fsub fast slow) 9 = Ok sig /\
    last (zip_with fsub fast slow) = Some m_last /\
    last sig = Some s_last /\
    macd_body close_prices =
      Ok {| fast_ema := fast; slow_ema := slow;
            macd_line := zip_with fsub fast slow; signal_line := sig;
            histogram_val := fsub m_last s_last;
            signals_list := zip_with classify (zip_with fsub fast slow) sig |}.
Proof.
  intros Hne.
  destruct (calculate_ema_nonempty close_prices 12) as (k1 & d0 & rest & _ & -> & Hfast); [lia|done|].
  destruct (calculate_ema_nonempty (d0 :: rest) 26) as (k2 & ? & ? & _ & [= <- <-] & Hslow); [lia|done|].
  set (fast := d0 :: ema_from k1 d0 rest) in *.
  set (slow := d0 :: ema_from k2 d0 rest) in *.
  assert (Hlf : length fast = S (length rest)) by (subst fast; simpl; by rewrite ema_from_length).
  assert (Hls : length slow = S (length rest)) by (subst slow; simpl; by rewrite ema_from_length).
  set (line := zip_with fsub fast slow).
  assert (Hll : length line = S (length rest)).
  { subst line. rewrite length_zip_with. lia. }
  assert (Hlne : line <> []) by (intros E; rewrite E in Hll; done).
  destruct (calculate_ema_nonempty line 9) as (k3 & l0 & lrest & _ & Hline & Hsig); [lia|done|].
  set (sig := l0 :: ema_from k3 l0 lrest) in *.
  assert (Hlsig : length sig = S (length rest)).
  { rewrite (calculate_ema_length _ _ _ Hsig). done. }
  destruct (index_neg1 line Hlne) as (m_last & Hml & Him).
  destruct (index_neg1 sig) as (s_last & Hsl & His); [done|].
  exists fast, slow, sig, m_last, s_last.
  do 5 (split; [done|]).
  unfold macd_body. rewrite Hfast, Hslow. cbn [mbind result_bind].
  unfold range, len. rewrite !Z.sub_0_r.
  replace (length fast) with (length line) by lia.
  change (seqZ 0) with (seqZ (Z.of_nat 0)).
  rewrite (comprehension_tabulate _ line 0); cycle 1.
  { intros i x Hx. subst line. apply lookup_zip_with_Some in Hx as (f & s & -> & Hf & Hs).
    simpl. rewrite (index_nat _ _ _ Hf). cbn [mbind result_bind].
    by rewrite (index_nat _ _ _ Hs). }
  cbn [mbind result_bind]. fold line. rewrite Hsig. cbn [mbind result_bind].
  rewrite Him, His. cbn [mbind result_bind].
  replace (length line) with (length (zip_with classify line sig))
    by (rewrite length_zip_with; lia).
  rewrite (for_each_append _ (zip_with classify line sig) 0 []).
  - reflexivity.
  - intros acc' i x Hx. apply lookup_zip_with_Some in Hx as (m & s & -> & Hm & Hs).
    simpl. rewrite (index_nat _ _ _ Hm). cbn [mbind result_bind].
    by rewrite (index_nat _ _ _ Hs).
Qed.

(** *** Claims on the indicator engine *)

(** C6 (as amended): on an empty input [calculate_ema] returns the empty
    list, whatever the period.  For every period other than -1 it returns a
    list as long as the input, starting with the input's first element and
    following the recurrence [out[i+1] = data[i+1]*k + out[i]*(1-k)] with
    [k = 2/(period+1)]; on a one-element input it returns that input.  For
    the period -1 and every input that is not empty, the division
    [2 / (period + 1)] raises ZeroDivisionError and nothing is returned. *)
Theorem calculate_ema_recurrence (data : list float) (period : Z) :
  (data = [] -> calculate_ema data period = Ok []) /\
  (period <> (-1)%Z ->
   exists k out,
     int_truediv 2 (period + 1) = Ok k /\
     calculate_ema data period = Ok out /\
     (data = [] -> out = []) /\
     length out = length data /\
     out !! 0 = data !! 0 /\
     (forall i x prev,
         data !! S i = Some x -> out !! i = Some prev ->
         out !! S i = Some (fadd (fmul x k) (fmul prev (fsub (of_int 1) k)))) /\
     (forall x, calculate_ema [x] period = Ok [x])) /\
  (period = (-1)%Z -> data <> [] ->
   calculate_ema data period = Raise ZeroDivisionError).
Proof.
  split; [by intros ->|]. split.
  - intros Hp. destruct (int_truediv_ok 2 (period + 1)) as [k Hk]; [lia|].
    destruct data as [|d0 rest].
    + exists k, []. repeat split; try done.
      intros x. by rewrite (calculate_ema_cons _ _ _ _ Hk).
    + exists k, (d0 :: ema_from k d0 rest).
      split; [done|]. split; [by apply calculate_ema_cons|].
      split; [done|]. split; [simpl; by rewrite ema_from_length|].
      split; [done|]. split.
      * intros i x prev Hx Hprev. by apply ema_from_lookup.
      * intros x. by rewrite (calculate_ema_cons _ _ _ _ Hk).
  - intros -> Hne. destruct data as [|d0 rest]; [done|]. reflexivity.
Qed.

Lemma calculate_ema_recurrence_witness :
  (exists k out,
     int_truediv 2 (12 + 1) = Ok k /\
     calculate_ema [of_int 10; of_int 11] 12 = Ok out /\
     length out = 2 /\ out !! 0 = Some (of_int 10)) /\
  calculate_ema [of_int 10; of_int 11] (-1) = Raise ZeroDivisionError /\
  calculate_ema [] (-1) = Ok [].
Proof.
  split; [|split].
  - destruct (calculate_ema_recurrence [of_int 10; of_int 11] 12) as (_ & H & _).
    destruct (H ltac:(lia)) as (k & out & Hk & Hout & _ & Hlen & Hhd & _).
    exists k, out. repeat split; assumption.
  - destruct (calculate_ema_recurrence [of_int 10; of_int 11] (-1)) as (_ & _ & H).
    apply H; [reflexivity|discriminate].
  - destruct (calculate_ema_recurrence [] (-1)) as (H & _).
    apply H. reflexivity.
Defined.

(** C6 as it is worded fails at period -1: the division [2 / (period + 1)]
    raises on a one-element input instead of returning that input. *)
Lemma calculate_ema_period_minus_one :
  calculate_ema [of_int 5] (-1) = Raise ZeroDivisionError /\
  calculate_ema [of_int 5] (-1) <> Ok [of_int 5].
Proof. split; [reflexivity | discriminate]. Qed.

(** C5: [calculate_macd] returns [None] exactly for fewer than 30 prices,
    and it never raises; so 29 prices give no result and 30 give one. *)
Theorem calculate_macd_none_iff (close_prices : list float) :
  (calculate_macd close_prices = Ok None <-> length close_prices < 30) /\
  (exists r, calculate_macd close_prices = Ok r) /\
  (length close_prices = 29 -> calculate_macd close_prices = Ok None) /\
  (length close_prices = 30 -> exists d, calculate_macd close_prices = Ok (Some d)).
Proof.
  assert (Hsmall : length close_prices < 30 -> calculate_macd close_prices = Ok None).
  { intros H. unfold calculate_macd, len.
    destruct (Z.ltb_spec (Z.of_nat (length close_prices)) 30); [done|lia]. }
  assert (Hbig : 30 <= length close_prices ->
                 exists d, calculate_macd close_prices = Ok (Some d)).
  { intros H. unfold calculate_macd, len.
    destruct (Z.ltb_spec (Z.of_nat (length close_prices)) 30); [lia|].
    destruct (macd_body_spec close_prices) as
      (fast & slow & sig & m_last & s_last & _ & _ & Hsig & Hm & Hs & ->).
    { intros ->. simpl in H. lia. }
    cbn [mbind result_bind]. unfold macd_return. cbn [macd_line signal_line].
    apply last_Some in Hm as [l1 Hm]. apply last_Some in Hs as [l2 ->].
    rewrite Hm, !index_last. cbn [mbind result_bind]. eauto. }
  split; [split|].
  - intros Hnone. destruct (Nat.lt_ge_cases (length close_prices) 30) as [|Hge]; [done|].
    destruct (Hbig Hge) as [d Hd]. congruence.
  - exact Hsmall.
  - split; [|split].
    + destruct (Nat.lt_ge_cases (length close_prices) 30) as [Hlt|Hge].
      * exists None. auto.
      * destruct (Hbig Hge) as [d Hd]. eauto.
    + intros H. apply Hsmall. lia.
    + intros H. apply Hbig. lia.
Qed.

(** C7: with at least 30 prices, the lines computed by [calculate_macd]
    are index-aligned with the prices and untruncated: the MACD line is
    the pointwise difference of the 12- and 26-period EMAs, the signal line
    is the 9-period EMA of the MACD line, the histogram is the difference
    of their last elements, and there is one label per index. *)
Theorem calculate_macd_lines (close_prices : list float) :
  30 <= length close_prices ->
  exists (fr : macd_locals) (d : macd_data) (m_last s_last : float),
    macd_body close_prices = Ok fr /\
    calculate_macd close_prices = Ok (Some d) /\
    calculate_ema close_prices 12 = Ok (fast_ema fr) /\
    calculate_ema close_prices 26 = Ok (slow_ema fr) /\
    (forall i, i < length close_prices ->
       exists f s, fast_ema fr !! i = Some f /\ slow_ema fr !! i = Some s /\
                   macd_line fr !! i = Some (fsub f s)) /\
    calculate_ema (macd_line fr) 9 = Ok (signal_line fr) /\
    length (macd_line fr) = length close_prices /\
    length (signal_line fr) = length close_prices /\
    length (signals d) = length close_prices /\
    (forall i, i < length close_prices ->
       exists m s, macd_line fr !! i = Some m /\ signal_line fr !! i = Some s /\
                   signals d !! i = Some (classify m s)) /\
    last (macd_line fr) = Some m_last /\
    last (signal_line fr) = Some s_last /\
    histogram d = fsub m_last s_last /\
    macd d = m_last /\ signal d = s_last.
Proof.
  intros Hlen.
  destruct (macd_body_spec close_prices) as
    (fast & slow & sig & m_last & s_last & Hfast & Hslow & Hsig & Hm & Hs & Hbody).
  { intros ->. simpl in Hlen. lia. }
  pose proof (calculate_ema_length _ _ _ Hfast) as Lf.
  pose proof (calculate_ema_length _ _ _ Hslow) as Ls.
  pose proof (calculate_ema_length _ _ _ Hsig) as Lsig.
  assert (Lline : length (zip_with fsub fast slow) = length close_prices)
    by (rewrite length_zip_with; lia).
  eexists _, {| macd := m_last; signal := s_last; histogram := fsub m_last s_last;
                signals := zip_with classify (zip_with fsub fast slow) sig |},
    m_last, s_last.
  split; [exact Hbody|]. cbn [fast_ema slow_ema macd_line signal_line signals histogram macd signal].
  split.
  { unfold calculate_macd, len.
    destruct (Z.ltb_spec (Z.of_nat (length close_prices)) 30); [lia|].
    rewrite Hbody. cbn [mbind result_bind]. unfold macd_return.
    cbn [macd_line signal_line histogram_val signals_list].
    pose proof Hm as Hm'. pose proof Hs as Hs'.
    apply last_Some in Hm' as [l1 Hm']. apply last_Some in Hs' as [l2 Hs'].
    rewrite Hm', Hs', !index_last. reflexivity. }
  do 2 (split; [done|]). split.
  { intros i Hi.
    destruct (lookup_lt_is_Some_2 fast i) as [f Hf]; [lia|].
    destruct (lookup_lt_is_Some_2 slow i) as [s Hs0]; [lia|].
    exists f, s. do 2 (split; [done|]).
    apply lookup_zip_with_Some. eauto. }
  split; [done|]. split; [done|]. split; [lia|].
  split; [rewrite length_zip_with; lia|]. split.
  { intros i Hi.
    destruct (lookup_lt_is_Some_2 (zip_with fsub fast slow) i) as [m Hmi]; [lia|].
    destruct (lookup_lt_is_Some_2 sig i) as [s Hsi]; [lia|].
    exists m, s. do 2 (split; [done|]).
    apply lookup_zip_with_Some. eauto. }
  done.
Qed.

Lemma calculate_macd_lines_witness :
  exists d, calculate_macd (replicate 30 (of_int 100)) = Ok (Some d) /\
            length (signals d) = 30.
Proof.
  destruct (calculate_macd_lines (replicate 30 (of_int 100)))
    as (fr & d & m & s & _ & Hd & _ & _ & _ & _ & _ & _ & Hl & _).
  - rewrite length_replicate. lia.
  - exists d. split; [exact Hd|]. rewrite Hl, length_replicate. reflexivity.
Defined.

(** *** Claims on the classifier *)

(** C9 as it is worded fails: the pair (-2, -1) is not labelled WEAK_SELL. *)
Lemma classify_m2_m1_not_weak_sell :
  classify (of_int (-2)) (of_int (-1)) <> WEAK_SELL.
Proof. vm_compute. discriminate. Qed.

(** C9 (as amended): the pair (-2, -1) is labelled STRONG_SELL, by the
    second rule. *)
Theorem classify_m2_m1_strong_sell :
  classify (of_int (-2)) (of_int (-1)) = STRONG_SELL.
Proof. vm_compute. reflexivity. Qed.

(** *** Claims on the crossover detector *)

Lemma is_crossover_iff (prev curr : string) :
  is_crossover prev curr = true <->
  prev ∈ bearish_signals /\ curr ∈ bullish_signals.
Proof.
  unfold is_crossover. rewrite andb_true_iff, !bool_decide_eq_true. reflexivity.
Qed.

Lemma bearish_not_bullish (l : string) :
  l ∈ bearish_signals -> l ∉ bullish_signals.
Proof.
  intros H Hb. apply list_elem_of_In in H. apply list_elem_of_In in Hb.
  simpl in H, Hb.
  destruct H as [<-|[<-|[<-|[]]]]; destruct Hb as [E|[E|[E|[]]]]; discriminate E.
Qed.

Lemma NO_SIGNAL_neutral :
  (NO_SIGNAL ∉ bearish_signals) /\ (NO_SIGNAL ∉ bullish_signals).
Proof.
  split; intros H; apply list_elem_of_In in H; simpl in H;
    destruct H as [E|[E|[E|[]]]]; discriminate E.
Qed.

Lemma detect_snoc2 (pre : list string) (prev curr : string) :
  detect (pre ++ [prev; curr]) =
  if is_crossover prev curr then Ok (Some (prev, curr)) else Ok None.
Proof.
  unfold detect, current_of, prev_of, len.
  assert (Hc : index (pre ++ [prev; curr]) (-1) = Ok curr).
  { change [prev; curr] with ([prev] ++ [curr]). rewrite app_assoc. apply index_last. }
  assert (Hp : index (pre ++ [prev; curr]) (-2) = Ok prev).
  { apply (index_from_end _ prev 1).
    - rewrite length_app. simpl.
      replace (length pre + 2 - 2) with (length pre) by lia.
      by rewrite list_lookup_middle.
    - rewrite length_app. simpl. lia. }
  destruct (pre ++ [prev; curr]) as [|s0 l] eqn:E.
  { by destruct pre. }
  rewrite <- E in *. rewrite Hc. cbn [mbind result_bind].
  destruct (Z.ltb_spec 1 (Z.of_nat (length (pre ++ [prev; curr])))) as [_|Hle].
  - rewrite Hp. reflexivity.
  - rewrite length_app in Hle. simpl in Hle. lia.
Qed.

(** On a label sequence with at least two labels, the detector looks at
    the last two only and reports a crossover exactly when the one before
    last is bearish and the last is bullish. *)
Lemma detect_last_two (signals : list string) :
  2 <= length signals ->
  exists prev curr,
    signals !! (length signals - 2) = Some prev /\
    signals !! (length signals - 1) = Some curr /\
    (detect signals = Ok (Some (prev, curr)) <->
       prev ∈ bearish_signals /\ curr ∈ bullish_signals) /\
    (detect signals = Ok None <->
       ~ (prev ∈ bearish_signals /\ curr ∈ bullish_signals)) /\
    (prev ∈ bullish_signals -> detect signals = Ok None) /\
    (curr ∈ bearish_signals -> detect signals = Ok None) /\
    (prev = NO_SIGNAL \/ curr = NO_SIGNAL -> detect signals = Ok None) /\
    detect signals = detect [prev; curr].
Proof.
  intros Hlen.
  destruct (exists_last (l := signals)) as (l1 & curr & ->).
  { intros ->. simpl in Hlen. lia. }
  destruct (exists_last (l := l1)) as (pre & prev & ->).
  { intros ->. simpl in Hlen. lia. }
  rewrite <- app_assoc. simpl. exists prev, curr.
  assert (Hl : length (pre ++ [prev; curr]) = length pre + 2)
    by (rewrite length_app; simpl; lia).
  rewrite Hl.
  split. { replace (length pre + 2 - 2) with (length pre) by lia.
           by rewrite list_lookup_middle. }
  split. { replace (length pre + 2 - 1) with (length pre + 1) by lia.
           rewrite lookup_app_r by lia.
           by replace (length pre + 1 - length pre) with 1 by lia. }
  rewrite (detect_snoc2 pre).
  pose proof (detect_snoc2 [] prev curr) as H2. simpl in H2. rewrite H2. clear H2.
  pose proof (is_crossover_iff prev curr) as Hiff.
  pose proof NO_SIGNAL_neutral as [Hn1 Hn2].
  destruct (is_crossover prev curr).
  - destruct Hiff as [Hiff _]. specialize (Hiff eq_refl) as [Hp Hc].
    split; [done|]. split; [split; [discriminate | intros Hno; by destruct Hno]|].
    split; [intros Hb; by apply bearish_not_bullish in Hp|].
    split; [intros Hb; by apply bearish_not_bullish in Hb|].
    split; [|done]. by intros [->| ->].
  - assert (Hno : ~ (prev ∈ bearish_signals /\ curr ∈ bullish_signals)).
    { intros H. apply Hiff in H. discriminate. }
    split; [split; [discriminate | done]|]. done.
Qed.

(** *** Alert keys *)

Lemma digit_cases (d : Z) :
  In (digit d) ["0"; "1"; "2"; "3"; "4"; "5"; "6"; "7"; "8"; "9"]%char.
Proof.
  destruct d as [|p|p]; simpl; [tauto| |tauto].
  do 4 (try destruct p as [p|p|]; simpl; try tauto).
Qed.

Lemma digit_not_underscore (d : Z) : Ascii.eqb (digit d) "_" = false.
Proof.
  pose proof (digit_cases d) as H. simpl in H.
  repeat destruct H as [<-|H]; try reflexivity. destruct H.
Qed.

Lemma digit_inj (a b : Z) :
  (0 <= a < 10)%Z -> (0 <= b < 10)%Z -> digit a = digit b -> a = b.
Proof.
  intros Ha Hb.
  assert (Ea : a ∈ [0;1;2;3;4;5;6;7;8;9]%Z).
  { apply list_elem_of_In. simpl. lia. }
  assert (Eb : b ∈ [0;1;2;3;4;5;6;7;8;9]%Z).
  { apply list_elem_of_In. simpl. lia. }
  apply list_elem_of_In in Ea, Eb. simpl in Ea, Eb.
  repeat destruct Ea as [<-|Ea]; try destruct Ea;
    repeat destruct Eb as [<-|Eb]; try destruct Eb;
    simpl; intros E; first [reflexivity | discriminate E].
Qed.

Lemma append_assoc (s t u : string) : (s +:+ t) +:+ u = s +:+ t +:+ u.
Proof.
  induction s as [|c s IH]; [reflexivity|].
  change (String c ((s +:+ t) +:+ u) = String c (s +:+ t +:+ u)). by rewrite IH.
Qed.

Lemma digit_pair (a b : Z) :
  (0 <= a < 100)%Z -> (0 <= b < 100)%Z ->
  digit (a / 10 mod 10) = digit (b / 10 mod 10) ->
  digit (a mod 10) = digit (b mod 10) -> a = b.
Proof.
  intros Ha Hb E1 E2.
  apply digit_inj in E1; [|Z.to_euclidean_division_equations; lia..].
  apply digit_inj in E2; [|Z.to_euclidean_division_equations; lia..].
  Z.to_euclidean_division_equations; lia.
Qed.

Lemma pad2_app_inj (a b : Z) (s s' : string) :
  (0 <= a < 100)%Z -> (0 <= b < 100)%Z ->
  pad2 a +:+ s = pad2 b +:+ s' -> a = b /\ s = s'.
Proof.
  intros Ha Hb E. unfold pad2 in E. cbn [String.append] in E.
  injection E as E1 E2 E3. split; [by apply digit_pair | done].
Qed.

Lemma pad4_app_inj (a b : Z) (s s' : string) :
  (0 <= a < 10000)%Z -> (0 <= b < 10000)%Z ->
  pad4 a +:+ s = pad4 b +:+ s' -> a = b /\ s = s'.
Proof.
  intros Ha Hb E. unfold pad4 in E. rewrite !append_assoc in E.
  apply pad2_app_inj in E as [E1 E]; [|Z.to_euclidean_division_equations; lia..].
  apply pad2_app_inj in E as [E2 E]; [|Z.to_euclidean_division_equations; lia..].
  split; [Z.to_euclidean_division_equations; lia | done].
Qed.

Lemma pad6_app_inj (a b : Z) (s s' : string) :
  (0 <= a < 1000000)%Z -> (0 <= b < 1000000)%Z ->
  pad6 a +:+ s = pad6 b +:+ s' -> a = b /\ s = s'.
Proof.
  intros Ha Hb E. unfold pad6 in E. rewrite !append_assoc in E.
  apply pad2_app_inj in E as [E1 E]; [|Z.to_euclidean_division_equations; lia..].
  apply pad4_app_inj in E as [E2 E]; [|Z.to_euclidean_division_equations; lia..].
  split; [Z.to_euclidean_division_equations; lia | done].
Qed.

Lemma lit_app_inj (c : ascii) (s s' : string) :
  String c "" +:+ s = String c "" +:+ s' -> s = s'.
Proof. intros E. by injection E. Qed.

Lemma str_datetime_inj (a b : datetime) :
  valid_datetime a -> valid_datetime b ->
  str_datetime a = str_datetime b -> a = b.
Proof.
  destruct a as [y mo d h mi s us], b as [y' mo' d' h' mi' s' us'].
  unfold valid_datetime. cbn [year month day hour minute second microsecond].
  intros (Hy & Hmo & Hd & Hh & Hmi & Hs & Hus) (Hy' & Hmo' & Hd' & Hh' & Hmi' & Hs' & Hus') E.
  unfold str_datetime in E.
  cbn [year month day hour minute second microsecond] in E.
  apply pad4_app_inj in E as [-> E]; [|lia..]. apply lit_app_inj in E.
  apply pad2_app_inj in E as [-> E]; [|lia..]. apply lit_app_inj in E.
  apply pad2_app_inj in E as [-> E]; [|lia..]. apply lit_app_inj in E.
  apply pad2_app_inj in E as [-> E]; [|lia..]. apply lit_app_inj in E.
  apply pad2_app_inj in E as [-> E]; [|lia..]. apply lit_app_inj in E.
  apply pad2_app_inj in E as [-> E]; [|lia..].
  destruct (Z.eqb_spec us 0) as [->|Hn], (Z.eqb_spec us' 0) as [->|Hn'].
  - done.
  - discriminate E.
  - discriminate E.
  - rewrite !append_assoc in E. apply lit_app_inj in E.
    apply pad6_app_inj in E as [-> _]; [done|lia..].
Qed.

Lemma pad2_no_underscore (n : Z) : has_underscore (pad2 n) = false.
Proof.
  unfold pad2. cbn [has_underscore]. by rewrite !digit_not_underscore.
Qed.

Lemma has_underscore_app (s t : string) :
  has_underscore (s +:+ t) = has_underscore s || has_underscore t.
Proof.
  induction s as [|c s IH]; [reflexivity|].
  change (String c s +:+ t) with (String c (s +:+ t)).
  cbn [has_underscore]. rewrite IH. by rewrite orb_assoc.
Qed.

Lemma str_datetime_no_underscore (t : datetime) :
  has_underscore (str_datetime t) = false.
Proof.
  unfold str_datetime, pad6, pad4.
  rewrite !has_underscore_app, !pad2_no_underscore.
  destruct (microsecond t =? 0)%Z; [reflexivity|].
  by rewrite !has_underscore_app, !pad2_no_underscore.
Qed.

Lemma append_cons (c : ascii) (s t : string) :
  String c s +:+ t = String c (s +:+ t).
Proof. reflexivity. Qed.

Lemma append_nil (t : string) : "" +:+ t = t.
Proof. reflexivity. Qed.

Lemma has_underscore_sep (s t : string) :
  has_underscore (s +:+ String "_" t) = true.
Proof. rewrite has_underscore_app. cbn [has_underscore]. by rewrite orb_true_r. Qed.

Lemma key_split (s1 s2 t1 t2 : string) :
  has_underscore t1 = false -> has_underscore t2 = false ->
  s1 +:+ "_" +:+ t1 = s2 +:+ "_" +:+ t2 -> s1 = s2 /\ t1 = t2.
Proof.
  intros H1 H2. revert s2.
  induction s1 as [|c s1 IH]; intros [|c' s2] E;
    rewrite ?append_cons, ?append_nil in E.
  - by injection E as ->.
  - injection E as <- E. rewrite E, has_underscore_sep in H1. discriminate.
  - injection E as -> E. rewrite <- E, has_underscore_sep in H2. discriminate.
  - injection E as <- E. destruct (IH _ E) as [-> ->]. done.
Qed.

Lemma alert_key_inj (c1 c2 : crossover) :
  valid_datetime (timestamp c1) -> valid_datetime (timestamp c2) ->
  alert_key c1 = alert_key c2 ->
  symbol c1 = symbol c2 /\ timestamp c1 = timestamp c2.
Proof.
  intros V1 V2 E. unfold alert_key in E.
  apply key_split in E as [Es Et]; [|apply str_datetime_no_underscore..].
  split; [done|]. by apply str_datetime_inj.
Qed.

Lemma elem_of_new_alerts (previous : gset string) (crossovers : list crossover)
    (c : crossover) :
  c ∈ new_alerts previous crossovers <-> c ∈ crossovers /\ alert_key c ∉ previous.
Proof. unfold new_alerts. rewrite list_elem_of_filter. tauto. Qed.

Lemma elem_of_alert_keys (crossovers : list crossover) (k : string) :
  k ∈ alert_keys crossovers <-> exists c, c ∈ crossovers /\ alert_key c = k.
Proof.
  unfold alert_keys. rewrite elem_of_list_to_set, list_elem_of_fmap.
  split; intros (c & H1 & H2); exists c; done.
Qed.

Lemma alert_keys_app (l1 l2 : list crossover) :
  alert_keys (l1 ++ l2) = alert_keys l1 ∪ alert_keys l2.
Proof. unfold alert_keys. by rewrite fmap_app, list_to_set_app_L. Qed.

Lemma after_scan_state (w : world) (st : session_state) (c4 c1 : list crossover) :
  previous_alerts (after_scan w st c4 c1).1.1 = alert_keys c4 ∪ alert_keys c1 /\
  (after_scan w st c4 c1).2.2 =
    length (new_alerts (previous_alerts st) c4 ++ new_alerts (previous_alerts st) c1).
Proof. unfold after_scan. by destruct (notify _ _ _ _). Qed.

(** *** Claims on the alert ledger *)

(** C3: the new events of a scan are exactly the scanned events whose key
    is not in the previous ledger, in scan order, and after the scan the
    ledger is the key set of this scan alone, whatever it held before; so
    with previous ledger {A} and current keys {A, B} the event with key A
    is left out, the one with key B is kept, and the ledger becomes
    {A, B}. *)
Theorem after_scan_ledger (w : world) (st : session_state)
    (crossovers_4h crossovers_1d : list crossover) :
  let previous := previous_alerts st in
  let scanned := crossovers_4h ++ crossovers_1d in
  let new_events := new_alerts previous crossovers_4h ++ new_alerts previous crossovers_1d in
  let st' := (after_scan w st crossovers_4h crossovers_1d).1.1 in
  new_events = filter (fun c => alert_key c ∉ previous) scanned /\
  (forall c, c ∈ new_events <-> c ∈ scanned /\ alert_key c ∉ previous) /\
  (after_scan w st crossovers_4h crossovers_1d).2.2 = length new_events /\
  previous_alerts st' = alert_keys scanned /\
  (forall k, k ∈ previous_alerts st' <-> exists c, c ∈ scanned /\ alert_key c = k) /\
  (forall A B : string,
      previous = {[A]} -> alert_keys scanned = {[A; B]} -> A <> B ->
      (forall c, c ∈ scanned -> alert_key c = A -> c ∉ new_events) /\
      (forall c, c ∈ scanned -> alert_key c = B -> c ∈ new_events) /\
      previous_alerts st' = {[A; B]}).
Proof.
  intros previous scanned new_events st'.
  destruct (after_scan_state w st crossovers_4h crossovers_1d) as [Hled Hcount].
  assert (Hnew : new_events = filter (fun c => alert_key c ∉ previous) scanned).
  { subst new_events scanned. unfold new_alerts. by rewrite filter_app. }
  assert (Hin : forall c, c ∈ new_events <-> c ∈ scanned /\ alert_key c ∉ previous).
  { intros c. rewrite Hnew, list_elem_of_filter. tauto. }
  assert (Hkeys : previous_alerts st' = alert_keys scanned).
  { subst st' scanned. by rewrite Hled, alert_keys_app. }
  split; [done|]. split; [done|]. split; [done|]. split; [done|]. split.
  { intros k. rewrite Hkeys. apply elem_of_alert_keys. }
  intros A B Hprev Hcur HAB. split; [|split].
  - intros c _ HA. rewrite Hin, Hprev. intros [_ Hn]. apply Hn.
    rewrite HA. by apply elem_of_singleton.
  - intros c Hc HB. rewrite Hin, Hprev. split; [done|].
    rewrite HB, elem_of_singleton. congruence.
  - by rewrite Hkeys.
Qed.

(** *** Events of a scan *)

Ltac case_bind :=
  match goal with
  | H : context [mbind _ ?m] |- _ =>
      let E := fresh "E" in destruct m eqn:E; cbn [mbind result_bind] in H
  end.

Lemma scan_symbol_event (w : world) (tf : string) (idx : nat) (sym : string)
    (c : crossover) :
  scan_symbol w tf idx sym = Ok (Some c) ->
  symbol c = strip_NS sym /\ timestamp c = now_at w tf idx /\ timeframe c = tf /\
  previous_type c ∈ bearish_signals /\ current_signal c ∈ bullish_signals.
Proof.
  unfold scan_symbol. intros H.
  case_bind; [|discriminate].
  destruct a as [|r hist]; [discriminate|].
  destruct (len (r :: hist) <? 30)%Z; [discriminate|].
  case_bind; [|discriminate].
  destruct a as [md|]; [|discriminate].
  case_bind; [|discriminate].
  destruct a as [[prev cur]|]; [|discriminate].
  case_bind; [|discriminate].
  injection H as <-. cbn.
  do 3 (split; [reflexivity|]).
  unfold detect in E1.
  destruct (current_of (signals md)) as [cs|]; [|discriminate].
  cbn [mbind result_bind] in E1.
  destruct (prev_of (signals md)) as [ps|]; [|discriminate].
  cbn [mbind result_bind] in E1.
  destruct (is_crossover ps cs) eqn:Hx; [|discriminate].
  injection E1 as <- <-. by apply is_crossover_iff.
Qed.

Lemma scan_loop_events (w : world) (tf : string) (P : crossover -> Prop)
    (l : list (nat * string)) :
  (forall idx sym c, (idx, sym) ∈ l -> scan_symbol w tf idx sym = Ok (Some c) -> P c) ->
  forall acc : list crossover,
    (forall c, c ∈ acc -> P c) ->
    forall c,
      c ∈ fold_left
            (fun crossovers '(idx, sym) =>
               match scan_symbol w tf idx sym with
               | Ok (Some c) => crossovers ++ [c]
               | Ok None => crossovers
               | Raise _ => crossovers
               end) l acc -> P c.
Proof.
  induction l as [|[idx sym] l IH]; intros Hl acc Hacc c Hc; [by apply Hacc|].
  cbn [fold_left] in Hc. eapply IH; [| |exact Hc].
  - intros i s c' Hin. apply Hl. by right.
  - intros c' Hc'. destruct (scan_symbol w tf idx sym) as [[c0|]|] eqn:E; [|by apply Hacc..].
    apply elem_of_app in Hc' as [Hc'|Hc']; [by apply Hacc|].
    apply list_elem_of_singleton in Hc' as ->. eapply Hl; [by left|exact E].
Qed.

Lemma scan_crossovers_event (w : world) (tf : string) (c : crossover) :
  c ∈ scan_crossovers w tf ->
  exists idx sym,
    STOCK_SYMBOLS !! idx = Some sym /\ symbol c = strip_NS sym /\
    timestamp c = now_at w tf idx /\
    previous_type c ∈ bearish_signals /\ current_signal c ∈ bullish_signals.
Proof.
  unfold scan_crossovers. revert c.
  apply (scan_loop_events w tf
           (fun c => exists idx sym,
                STOCK_SYMBOLS !! idx = Some sym /\ symbol c = strip_NS sym /\
                timestamp c = now_at w tf idx /\
                previous_type c ∈ bearish_signals /\
                current_signal c ∈ bullish_signals)).
  - intros idx sym c' Hin Hs.
    apply scan_symbol_event in Hs as (H1 & H2 & _ & H3 & H4).
    exists idx, sym. repeat split; try done.
    apply list_elem_of_lookup in Hin as [i Hi].
    apply lookup_zip_with_Some in Hi as (x & y & [= <- <-] & Hx & Hy).
    apply lookup_seq in Hx as [-> _]. done.
  - intros c' Hc'. by apply elem_of_nil in Hc'.
Qed.

(** *** Claim on the alert key *)

(** C10: the alert key of an event is its symbol, an underscore and the
    wall-clock reading taken when the event was built (no bar timestamp
    enters); two events of one symbol built at different times have
    different keys; and an event is left out of the new events only when
    the previous ledger holds the key of its symbol and build time, that is,
    when an event of the previous scan had the same symbol and the same
    build time. *)
Theorem alert_key_symbol_and_build_time :
  (forall c, alert_key c = symbol c +:+ "_" +:+ str_datetime (timestamp c)) /\
  (forall w tf c, c ∈ scan_crossovers w tf ->
     exists idx sym, STOCK_SYMBOLS !! idx = Some sym /\
       symbol c = strip_NS sym /\ timestamp c = now_at w tf idx) /\
  (forall c1 c2,
     valid_datetime (timestamp c1) -> valid_datetime (timestamp c2) ->
     symbol c1 = symbol c2 -> timestamp c1 <> timestamp c2 ->
     alert_key c1 <> alert_key c2) /\
  (forall (previous : gset string) (crossovers : list crossover) c,
     c ∈ crossovers ->
     (c ∉ new_alerts previous crossovers <->
      symbol c +:+ "_" +:+ str_datetime (timestamp c) ∈ previous)) /\
  (forall (earlier crossovers : list crossover) c,
     (forall e, e ∈ earlier -> valid_datetime (timestamp e)) ->
     valid_datetime (timestamp c) ->
     c ∈ crossovers ->
     c ∉ new_alerts (alert_keys earlier) crossovers ->
     exists e, e ∈ earlier /\ symbol e = symbol c /\ timestamp e = timestamp c).
Proof.
  split; [reflexivity|]. split.
  { intros w tf c Hc.
    destruct (scan_crossovers_event w tf c Hc) as (idx & sym & H1 & H2 & H3 & _).
    eauto. }
  split.
  { intros c1 c2 V1 V2 Hs Ht E. apply alert_key_inj in E as [_ E]; done. }
  split.
  { intros previous crossovers c Hc. rewrite elem_of_new_alerts.
    fold (alert_key c). split.
    - intros Hn. destruct (decide (alert_key c ∈ previous)) as [|Hk]; [done|].
      destruct Hn. done.
    - intros Hk [_ Hn]. done. }
  intros earlier crossovers c Hv Vc Hc Hn.
  assert (Hk : alert_key c ∈ alert_keys earlier).
  { destruct (decide (alert_key c ∈ alert_keys earlier)) as [|Hk]; [done|].
    destruct Hn. by apply elem_of_new_alerts. }
  apply elem_of_alert_keys in Hk as (e & He & Hk).
  exists e. split; [done|]. apply alert_key_inj; auto.
Qed.

(** ** 4-hour aggregation *)

(** *** Order of the float comparison *)

Lemma flt_key (x y : float) :
  flt x y = true <-> is_nan x = false /\ is_nan y = false /\ key_lt (key x) (key y).
Proof.
  unfold flt, SFltb, SFcompare, key_lt.
  destruct x as [sx|sx| |sx mx ex], y as [sy|sy| |sy my ey];
    try destruct sx; try destruct sy; cbn;
    try (split; [discriminate | intros (? & ? & ?); first [discriminate | lia]]);
    try (split; [intros _; repeat split; lia | reflexivity]).
  - destruct (Z.compare_spec ex ey) as [->|Hlt|Hgt]; cbn.
    + change (Pos.compare_cont Eq mx my) with (Pos.compare mx my).
      destruct (Pos.compare_spec mx my) as [->|Hm|Hm]; cbn;
        (split; [try discriminate; intros _; repeat split; lia
                | try reflexivity; intros (_ & _ & H); lia]).
    + split; [discriminate | intros (_ & _ & H); lia].
    + split; [intros _; repeat split; lia | reflexivity].
  - destruct (Z.compare_spec ex ey) as [->|Hlt|Hgt]; cbn.
    + change (Pos.compare_cont Eq mx my) with (Pos.compare mx my).
      destruct (Pos.compare_spec mx my) as [->|Hm|Hm]; cbn;
        (split; [try discriminate; intros _; repeat split; lia
                | try reflexivity; intros (_ & _ & H); lia]).
    + split; [intros _; repeat split; lia | reflexivity].
    + split; [discriminate | intros (_ & _ & H); lia].
Qed.

Lemma flt_trans (x y z : float) : flt x y = true -> flt y z = true -> flt x z = true.
Proof.
  rewrite !flt_key. unfold key_lt. intros (Hx & Hy & H1) (_ & Hz & H2).
  repeat split; try done. lia.
Qed.

Lemma flt_irrefl (x : float) : flt x x = false.
Proof.
  destruct (flt x x) eqn:E; [|done].
  apply flt_key in E as (_ & _ & H). unfold key_lt in H. lia.
Qed.

(** *** Column aggregations *)

Lemma elem_of_valid (xs : list float) (x : float) :
  x ∈ valid xs <-> x ∈ xs /\ is_nan x = false.
Proof. unfold valid. rewrite list_elem_of_filter. tauto. Qed.

Lemma valid_all (xs : list float) :
  Forall (fun x => is_nan x = false) xs -> valid xs = xs.
Proof.
  unfold valid. induction 1 as [|x xs Hx _ IH]; [done|].
  rewrite filter_cons_True by done. by rewrite IH.
Qed.

(** The first value that is not missing. *)
Lemma agg_first_spec (xs : list float) :
  valid xs <> [] ->
  exists pre x post,
    xs = pre ++ x :: post /\ Forall (fun y => is_nan y = true) pre /\
    is_nan x = false /\ agg_first xs = x.
Proof.
  unfold agg_first, valid.
  induction xs as [|y xs IH]; intros Hne; [done|].
  destruct (is_nan y) eqn:Hy.
  - rewrite filter_cons_False in Hne |- * by (rewrite Hy; done).
    destruct (IH Hne) as (pre & x & post & -> & Hpre & Hx & E).
    exists (y :: pre), x, post. split; [done|]. split; [by constructor|]. done.
  - rewrite filter_cons_True by done.
    exists [], y, xs. split; [done|]. split; [constructor|]. done.
Qed.

(** The last value that is not missing. *)
Lemma agg_last_spec (xs : list float) :
  valid xs <> [] ->
  exists pre x post,
    xs = pre ++ x :: post /\ Forall (fun y => is_nan y = true) post /\
    is_nan x = false /\ agg_last xs = x.
Proof.
  unfold agg_last, valid.
  induction xs as [|y xs IH] using rev_ind; intros Hne; [done|].
  rewrite filter_app in Hne |- *.
  destruct (is_nan y) eqn:Hy.
  - rewrite (filter_cons_False _ y) in Hne |- * by (rewrite Hy; done).
    rewrite filter_nil, app_nil_r in Hne |- *.
    destruct (IH Hne) as (pre & x & post & -> & Hpost & Hx & E).
    exists pre, x, (post ++ [y]). rewrite <- app_assoc. split; [done|].
    split; [|done]. apply Forall_app. split; [done|]. by constructor.
  - rewrite (filter_cons_True _ y) by done. rewrite filter_nil.
    exists xs, y, []. split; [done|]. split; [constructor|]. split; [done|].
    by rewrite List.last_last.
Qed.

Lemma flt_false_key (x y : float) :
  is_nan x = false -> is_nan y = false ->
  (flt x y = false <-> ~ key_lt (key x) (key y)).
Proof.
  intros Hx Hy. destruct (flt x y) eqn:E.
  - apply flt_key in E as (_ & _ & E). split; [discriminate|tauto].
  - split; [|done]. intros _ Hlt.
    assert (flt x y = true) by (apply flt_key; done). congruence.
Qed.

Lemma not_flt_trans (x y z : float) :
  is_nan x = false -> is_nan y = false -> is_nan z = false ->
  flt x y = false -> flt y z = false -> flt x z = false.
Proof.
  intros Hx Hy Hz. rewrite !flt_false_key by done. unfold key_lt. lia.
Qed.

Lemma flt_asym (x y : float) : flt x y = true -> flt y x = false.
Proof.
  intros H. apply flt_key in H as (Hx & Hy & H).
  apply flt_false_key; [done..|]. unfold key_lt in *. lia.
Qed.

Lemma fold_max_spec (rest : list float) :
  forall x : float,
    Forall (fun y => is_nan y = false) (x :: rest) ->
    let m := fold_left (fun acc y => if flt acc y then y else acc) rest x in
    m ∈ x :: rest /\ forall h, h ∈ x :: rest -> flt m h = false.
Proof.
  induction rest as [|y rest IH]; intros x Hv; cbn [fold_left].
  - split; [by left|]. intros h Hh. apply list_elem_of_singleton in Hh as ->.
    apply flt_irrefl.
  - apply Forall_cons in Hv as [Hx Hv]. pose proof Hv as Hv'.
    apply Forall_cons in Hv' as [Hy Hrest].
    destruct (flt x y) eqn:Hxy.
    + destruct (IH y Hv) as [Hin Hmax]. split; [by right|].
      intros h Hh. apply elem_of_cons in Hh as [->|Hh]; [|by apply Hmax].
      assert (Hm : is_nan (fold_left (fun acc y0 => if flt acc y0 then y0 else acc) rest y)
                   = false).
      { eapply (proj1 (Forall_forall _ _) Hv). exact Hin. }
      eapply (not_flt_trans _ y); [done..| |by apply flt_asym].
      apply Hmax. by left.
    + assert (Hv2 : Forall (fun y => is_nan y = false) (x :: rest)) by (by constructor).
      destruct (IH x Hv2) as [Hin Hmax]. split.
      * apply elem_of_cons in Hin as [->|Hin]; [by left | by do 2 right].
      * intros h Hh. apply elem_of_cons in Hh as [->|Hh]; [apply Hmax; by left|].
        apply elem_of_cons in Hh as [->|Hh]; [|apply Hmax; by right].
        assert (Hm : is_nan (fold_left (fun acc y0 => if flt acc y0 then y0 else acc) rest x)
                     = false).
        { eapply (proj1 (Forall_forall _ _) Hv2). exact Hin. }
        eapply (not_flt_trans _ x); [done..| |done].
        apply Hmax. by left.
Qed.

Lemma fold_min_spec (rest : list float) :
  forall x : float,
    Forall (fun y => is_nan y = false) (x :: rest) ->
    let m := fold_left (fun acc y => if flt y acc then y else acc) rest x in
    m ∈ x :: rest /\ forall h, h ∈ x :: rest -> flt h m = false.
Proof.
  induction rest as [|y rest IH]; intros x Hv; cbn [fold_left].
  - split; [by left|]. intros h Hh. apply list_elem_of_singleton in Hh as ->.
    apply flt_irrefl.
  - apply Forall_cons in Hv as [Hx Hv]. pose proof Hv as Hv'.
    apply Forall_cons in Hv' as [Hy Hrest].
    destruct (flt y x) eqn:Hyx.
    + destruct (IH y Hv) as [Hin Hmin]. split; [by right|].
      intros h Hh. apply elem_of_cons in Hh as [->|Hh]; [|by apply Hmin].
      assert (Hm : is_nan (fold_left (fun acc y0 => if flt y0 acc then y0 else acc) rest y)
                   = false).
      { eapply (proj1 (Forall_forall _ _) Hv). exact Hin. }
      eapply (not_flt_trans _ y); [done..|by apply flt_asym|].
      apply Hmin. by left.
    + assert (Hv2 : Forall (fun y => is_nan y = false) (x :: rest)) by (by constructor).
      destruct (IH x Hv2) as [Hin Hmin]. split.
      * apply elem_of_cons in Hin as [->|Hin]; [by left | by do 2 right].
      * intros h Hh. apply elem_of_cons in Hh as [->|Hh]; [apply Hmin; by left|].
        apply elem_of_cons in Hh as [->|Hh]; [|apply Hmin; by right].
        assert (Hm : is_nan (fold_left (fun acc y0 => if flt y0 acc then y0 else acc) rest x)
                     = false).
        { eapply (proj1 (Forall_forall _ _) Hv2). exact Hin. }
        eapply (not_flt_trans _ x); [done..| |].
        -- done.
        -- apply Hmin. by left.
Qed.

Lemma valid_Forall (xs : list float) : Forall (fun y => is_nan y = false) (valid xs).
Proof. apply Forall_forall. intros x Hx. by apply elem_of_valid in Hx as [_ ?]. Qed.

(** A greatest value among those that are not missing. *)
Lemma agg_max_spec (xs : list float) :
  valid xs <> [] ->
  agg_max xs ∈ xs /\ is_nan (agg_max xs) = false /\
  forall h, h ∈ xs -> is_nan h = false -> flt (agg_max xs) h = false.
Proof.
  intros Hne. unfold agg_max. pose proof (valid_Forall xs) as Hv.
  destruct (valid xs) as [|x rest] eqn:E; [done|].
  destruct (fold_max_spec rest x Hv) as [Hin Hmax].
  rewrite <- E in Hin. apply elem_of_valid in Hin as [Hin Hnan].
  split; [done|]. split; [done|].
  intros h Hh Hhn. apply Hmax. rewrite <- E. by apply elem_of_valid.
Qed.

(** A least value among those that are not missing. *)
Lemma agg_min_spec (xs : list float) :
  valid xs <> [] ->
  agg_min xs ∈ xs /\ is_nan (agg_min xs) = false /\
  forall h, h ∈ xs -> is_nan h = false -> flt h (agg_min xs) = false.
Proof.
  intros Hne. unfold agg_min. pose proof (valid_Forall xs) as Hv.
  destruct (valid xs) as [|x rest] eqn:E; [done|].
  destruct (fold_min_spec rest x Hv) as [Hin Hmin].
  rewrite <- E in Hin. apply elem_of_valid in Hin as [Hin Hnan].
  split; [done|]. split; [done|].
  intros h Hh Hhn. apply Hmin. rewrite <- E. by apply elem_of_valid.
Qed.

Lemma agg_first_nan (xs : list float) : is_nan (agg_first xs) = true <-> valid xs = [].
Proof.
  split.
  - intros H. destruct (valid xs) eqn:E; [done|].
    destruct (agg_first_spec xs) as (? & ? & ? & _ & _ & Hn & Hx); [by rewrite E|].
    congruence.
  - unfold agg_first. by intros ->.
Qed.

Lemma agg_last_nan (xs : list float) : is_nan (agg_last xs) = true <-> valid xs = [].
Proof.
  split.
  - intros H. destruct (valid xs) eqn:E; [done|].
    destruct (agg_last_spec xs) as (? & ? & ? & _ & _ & Hn & Hx); [by rewrite E|].
    congruence.
  - unfold agg_last. by intros ->.
Qed.

Lemma agg_max_nan (xs : list float) : is_nan (agg_max xs) = true <-> valid xs = [].
Proof.
  split.
  - intros H. destruct (valid xs) eqn:E; [done|].
    destruct (agg_max_spec xs) as (_ & Hn & _); [by rewrite E|]. congruence.
  - unfold agg_max. by intros ->.
Qed.

Lemma agg_min_nan (xs : list float) : is_nan (agg_min xs) = true <-> valid xs = [].
Proof.
  split.
  - intros H. destruct (valid xs) eqn:E; [done|].
    destruct (agg_min_spec xs) as (_ & Hn & _); [by rewrite E|]. congruence.
  - unfold agg_min. by intros ->.
Qed.

Lemma has_na_agg_row (hist : list bar) (b : Z) :
  has_na (agg_row hist b) = false <-> complete (group hist b).
Proof.
  unfold has_na, complete, agg_row. cbn [Open High Low Close].
  rewrite !orb_false_iff.
  pose proof (agg_first_nan (Open <$> group hist b)).
  pose proof (agg_max_nan (High <$> group hist b)).
  pose proof (agg_min_nan (Low <$> group hist b)).
  pose proof (agg_last_nan (Close <$> group hist b)).
  destruct (is_nan (agg_first _)), (is_nan (agg_max _)),
    (is_nan (agg_min _)), (is_nan (agg_last _)); intuition congruence.
Qed.

(** *** Order of the frame *)

Lemma ordered_nil {A : Type} (R : A -> A -> Prop) : ordered R [].
Proof. intros i j a b _ Ha. by rewrite lookup_nil in Ha. Qed.

Lemma ordered_cons {A : Type} (R : A -> A -> Prop) (x : A) (l : list A) :
  ordered R (x :: l) <-> Forall (R x) l /\ ordered R l.
Proof.
  unfold ordered. split.
  - intros H. split.
    + apply Forall_lookup. intros i y Hy. apply (H 0 (S i) x y); [lia|done|done].
    + intros i j a b Hij Ha Hb. apply (H (S i) (S j) a b); [lia|done|done].
  - intros [Hx Hl] i j a b Hij Ha Hb.
    destruct j as [|j]; [lia|]. cbn in Hb.
    destruct i as [|i]; cbn in Ha.
    + injection Ha as <-. rewrite Forall_lookup in Hx. by apply (Hx j).
    + apply (Hl i j); [lia|done|done].
Qed.

Lemma ordered_filter {A : Type} (R : A -> A -> Prop) (P : A -> Prop)
    `{!forall x, Decision (P x)} (l : list A) :
  ordered R l -> ordered R (filter P l).
Proof.
  induction l as [|x l IH]; intros Hl; [done|].
  apply ordered_cons in Hl as [Hx Hl]. rewrite filter_cons.
  destruct (decide (P x)); [|by apply IH].
  apply ordered_cons. split; [|by apply IH].
  apply Forall_forall. intros y Hy. apply list_elem_of_filter in Hy as [_ Hy].
  rewrite Forall_forall in Hx. by apply Hx.
Qed.

Lemma ordered_fmap {A B : Type} (R1 : A -> A -> Prop) (R2 : B -> B -> Prop)
    (f : A -> B) (l : list A) :
  (forall x y, R1 x y -> R2 (f x) (f y)) -> ordered R1 l -> ordered R2 (f <$> l).
Proof.
  intros Hf Hl i j a b Hij Ha Hb.
  rewrite list_lookup_fmap in Ha, Hb.
  destruct (l !! i) as [x|] eqn:Ex; [|done].
  destruct (l !! j) as [y|] eqn:Ey; [|done].
  cbn in Ha, Hb. injection Ha as <-. injection Hb as <-.
  apply Hf. by apply (Hl i j).
Qed.

Lemma ordered_seqZ (m n : Z) : ordered Z.lt (seqZ m n).
Proof.
  intros i j a b Hij Ha Hb.
  apply lookup_seqZ in Ha as [-> _]. apply lookup_seqZ in Hb as [-> _]. lia.
Qed.

Lemma sort_index_cons (x : bar) (l : list bar) :
  sort_index (x :: l) = insert_bar x (sort_index l).
Proof. reflexivity. Qed.

Lemma insert_bar_perm (x : bar) (l : list bar) : insert_bar x l ≡ₚ x :: l.
Proof.
  induction l as [|y l IH]; [done|]. cbn.
  destruct (time x <=? time y)%Z; [done|].
  rewrite IH. apply Permutation_swap.
Qed.

Lemma sort_index_perm (hist : list bar) : sort_index hist ≡ₚ hist.
Proof.
  induction hist as [|x l IH]; [done|].
  rewrite sort_index_cons, insert_bar_perm. by rewrite IH.
Qed.

Lemma insert_bar_head (x : bar) (l : list bar) :
  Forall (fun y => (time x <= time y)%Z) l -> insert_bar x l = x :: l.
Proof.
  destruct l as [|y l]; [done|]. intros H. apply Forall_cons in H as [H _]. cbn.
  destruct (Z.leb_spec (time x) (time y)); [done|lia].
Qed.

Lemma insert_bar_chronological (x : bar) (l : list bar) :
  chronological l -> chronological (insert_bar x l).
Proof.
  unfold chronological.
  induction l as [|y l IH]; intros Hl.
  - cbn. apply ordered_cons. split; [constructor | apply ordered_nil].
  - cbn. apply ordered_cons in Hl as Hl'. destruct Hl' as [Hy Hl'].
    destruct (Z.leb_spec (time x) (time y)) as [Hle|Hgt].
    + apply ordered_cons. split; [|done].
      constructor; [done|]. eapply Forall_impl; [exact Hy|]. cbn. intros; lia.
    + apply ordered_cons. split; [|by apply IH].
      apply Forall_forall. intros z Hz.
      rewrite insert_bar_perm in Hz. apply elem_of_cons in Hz as [->|Hz]; [lia|].
      rewrite Forall_forall in Hy. by apply Hy.
Qed.

Lemma sort_index_chronological (hist : list bar) : chronological (sort_index hist).
Proof.
  induction hist as [|x l IH]; [apply ordered_nil|].
  rewrite sort_index_cons. by apply insert_bar_chronological.
Qed.

Lemma sort_index_id (hist : list bar) : chronological hist -> sort_index hist = hist.
Proof.
  induction hist as [|x l IH]; [done|]. intros H.
  apply ordered_cons in H as [Hx Hl].
  rewrite sort_index_cons, IH by done. by apply insert_bar_head.
Qed.

Lemma insert_bar_filter (P : bar -> Prop) `{!forall r, Decision (P r)}
    (x : bar) (l : list bar) :
  chronological l ->
  filter P (insert_bar x l) =
  if decide (P x) then insert_bar x (filter P l) else filter P l.
Proof.
  induction l as [|y l IH]; intros Hl.
  - cbn [insert_bar]. rewrite filter_cons, !filter_nil. by destruct (decide (P x)).
  - apply ordered_cons in Hl as [Hy Hl]. cbn [insert_bar].
    destruct (Z.leb_spec (time x) (time y)) as [Hle|Hgt].
    + rewrite (filter_cons _ x). destruct (decide (P x)); [|done].
      symmetry. apply insert_bar_head.
      apply Forall_forall. intros z Hz. apply list_elem_of_filter in Hz as [_ Hz].
      apply elem_of_cons in Hz as [->|Hz]; [done|].
      rewrite Forall_forall in Hy. specialize (Hy z Hz). cbn in Hy. lia.
    + rewrite !(filter_cons _ y). rewrite IH by done.
      destruct (decide (P x)), (decide (P y)); try done.
      cbn [insert_bar]. destruct (Z.leb_spec (time x) (time y)); [lia|done].
Qed.

(** The sort is stable: rows of one timestamp keep the order of the frame. *)
Lemma sort_index_stable (hist : list bar) (t : Z) :
  filter (fun r => time r = t) (sort_index hist) = filter (fun r => time r = t) hist.
Proof.
  induction hist as [|x l IH]; [done|].
  rewrite sort_index_cons, insert_bar_filter by apply sort_index_chronological.
  rewrite filter_cons, IH. destruct (decide (time x = t)) as [E|]; [|done].
  apply insert_bar_head. apply Forall_forall. intros y Hy.
  apply list_elem_of_filter in Hy as [-> _]. lia.
Qed.

(** *** Bins *)

Lemma chronological_last (l : list bar) (d x : bar) :
  chronological l -> x ∈ l -> (time x <= time (List.last l d))%Z.
Proof.
  intros Hl Hx. apply list_elem_of_lookup in Hx as [i Hi].
  destruct (decide (l = [])) as [->|Hne]; [by rewrite lookup_nil in Hi|].
  destruct (exists_last Hne) as (l' & z & ->).
  rewrite List.last_last.
  destruct (decide (i = length l')) as [->|Hi'].
  - rewrite list_lookup_middle in Hi by done. injection Hi as <-. lia.
  - apply (Hl i (length l') x z).
    + apply lookup_lt_Some in Hi. rewrite length_app in Hi. cbn in Hi. lia.
    + done.
    + by rewrite list_lookup_middle.
Qed.

Lemma bucket_of_mono (a b : Z) : (a <= b)%Z -> (bucket_of a <= bucket_of b)%Z.
Proof. intros H. unfold bucket_of. apply Z.div_le_mono; lia. Qed.

(** The bucket of every row of a chronological frame is one of its bins. *)
Lemma elem_of_bins (h : list bar) (x : bar) :
  chronological h -> x ∈ h -> bucket_of (time x) ∈ bins h.
Proof.
  intros Hc Hx. destruct h as [|r0 h']; [by apply elem_of_nil in Hx|].
  unfold bins, range. apply elem_of_seqZ.
  pose proof (chronological_last (r0 :: h') r0 x Hc Hx) as Hlast.
  assert (Hfirst : (time r0 <= time x)%Z).
  { apply ordered_cons in Hc as [H0 _].
    apply elem_of_cons in Hx as [->|Hx]; [lia|].
    rewrite Forall_forall in H0. by apply H0. }
  apply bucket_of_mono in Hlast, Hfirst. lia.
Qed.

Lemma bucket_of_row (hist : list bar) (b : Z) :
  bucket_of (time (agg_row hist b)) = b.
Proof. unfold bucket_of, agg_row. cbn [time]. by rewrite Z.div_mul. Qed.

(** The rows kept: one for each bucket of the sorted frame in which every
    price column has a value. *)
Lemma elem_of_resampled (hist : list bar) (r : bar) :
  r ∈ dropna (resample_4h_agg hist) <->
  exists b, r = agg_row (sort_index hist) b /\ complete (group (sort_index hist) b).
Proof.
  unfold dropna, resample_4h_agg. cbv zeta.
  rewrite list_elem_of_filter, list_elem_of_fmap. split.
  - intros [Hna (b & -> & Hb)]. exists b. split; [done|]. by apply has_na_agg_row.
  - intros (b & -> & Hc). split; [by apply has_na_agg_row|].
    exists b. split; [done|].
    destruct (group (sort_index hist) b) as [|x g] eqn:E.
    { by destruct Hc as [HO _]. }
    assert (Hx : x ∈ group (sort_index hist) b) by (rewrite E; apply list_elem_of_here).
    apply list_elem_of_filter in Hx as [<- Hx].
    apply elem_of_bins; [apply sort_index_chronological|done].
Qed.

(** The rows come in the order of time, one per bucket. *)
Lemma resampled_ordered (hist : list bar) :
  ordered (fun r1 r2 => (time r1 < time r2)%Z) (dropna (resample_4h_agg hist)).
Proof.
  unfold dropna, resample_4h_agg. cbv zeta. apply ordered_filter.
  destruct (sort_index hist) as [|r0 h] eqn:E; [apply ordered_nil|].
  unfold bins, range.
  apply (ordered_fmap Z.lt); [|apply ordered_seqZ].
  intros a b Hab. unfold agg_row. cbn [time]. lia.
Qed.

Lemma wrap_int64_small (z : Z) :
  (- 2 ^ 63 <= z < 2 ^ 63)%Z -> wrap_int64 z = z.
Proof.
  intros H. unfold wrap_int64.
  change (2 ^ 63)%Z with 9223372036854775808%Z in *.
  change (2 ^ 64)%Z with 18446744073709551616%Z.
  rewrite Z.mod_small by lia. lia.
Qed.

Lemma valid_fmap_all (g : list bar) (col : bar -> float) :
  Forall (fun r => is_nan (col r) = false) g -> valid (col <$> g) = col <$> g.
Proof. intros H. apply valid_all. by apply Forall_fmap. Qed.

Lemma no_missing_first_last (g : list bar) :
  Forall no_missing g -> g <> [] ->
  exists first_bar last_bar,
    head g = Some first_bar /\ last g = Some last_bar /\
    agg_first (Open <$> g) = Open first_bar /\
    agg_last (Close <$> g) = Close last_bar.
Proof.
  intros Hv Hne.
  assert (HO : Forall (fun r => is_nan (Open r) = false) g).
  { eapply Forall_impl; [exact Hv|]. by intros r (? & _). }
  assert (HC : Forall (fun r => is_nan (Close r) = false) g).
  { eapply Forall_impl; [exact Hv|]. by intros r (_ & _ & _ & ?). }
  unfold agg_first, agg_last.
  rewrite (valid_fmap_all g Open HO), (valid_fmap_all g Close HC).
  destruct (exists_last Hne) as (g' & l & ->).
  destruct g' as [|f g'].
  - exists l, l. by cbn.
  - exists f, l. split; [done|]. split; [apply last_snoc|]. split; [done|].
    rewrite fmap_app. cbn [fmap list_fmap]. by rewrite List.last_last.
Qed.

Lemma resample_two_bars (t1 t2 : Z) :
  (t1 <= t2)%Z -> bucket_of t1 = bucket_of t2 ->
  dropna (resample_4h_agg [hour_bar t1 10 12 9 11 100; hour_bar t2 11 13 8 12 200]) =
  [hour_bar (bucket_of t1 * 14400) 10 13 8 12 300].
Proof.
  intros Hle Hb. unfold resample_4h_agg. cbv zeta.
  rewrite sort_index_id; cycle 1.
  { apply ordered_cons. split; [|apply ordered_cons; split; [constructor|apply ordered_nil]].
    constructor; [|constructor]. unfold hour_bar. cbn [time]. exact Hle. }
  unfold bins. cbn [List.last hour_bar time].
  unfold range. replace (bucket_of t2 + 1 - bucket_of t1)%Z with 1%Z by lia.
  change (seqZ (bucket_of t1) 1) with [(0 + bucket_of t1)%Z].
  rewrite Z.add_0_l. cbn [fmap list_fmap].
  unfold agg_row, group.
  rewrite filter_cons_True by reflexivity.
  rewrite filter_cons_True by (unfold hour_bar; cbn [time]; symmetry; exact Hb).
  rewrite filter_nil. cbn [fmap list_fmap Open High Low Close Volume].
  unfold dropna. rewrite filter_cons_True by (vm_compute; reflexivity).
  rewrite filter_nil. vm_compute of_int. unfold hour_bar. f_equal.
Qed.

(** C8 as it is worded fails when a price is missing: the aggregated open
    is the first open that is not NaN, not the first bar's open. *)
Lemma resample_skips_missing_open :
  let b1 := {| time := 0; Open := nan; High := of_int 12; Low := of_int 9;
               Close := of_int 11; Volume := 100 |} in
  let b2 := hour_bar 3600 11 13 8 12 200 in
  exists r,
    dropna (resample_4h_agg [b1; b2]) = [r] /\
    head (group [b1; b2] (bucket_of (time r))) = Some b1 /\
    Open r = of_int 11 /\ Open r <> Open b1.
Proof.
  intros b1 b2. eexists. split; [vm_compute; reflexivity|].
  split; [vm_compute; reflexivity|]. split; [vm_compute; reflexivity|].
  vm_compute. discriminate.
Qed.

(** C8 (as amended): [resample('4h')] works on the frame in the order of
    its timestamps (a stable sort, which leaves a chronological frame as it
    is), and a 4-hour bucket holds the bars of that frame whose timestamp
    falls in it.  The rows kept after [.agg(...).dropna()] are, in the
    order of time and one per bucket, the rows of the buckets in which each
    price column has at least one value that is not NaN; a bucket without
    bars gives no row.  In a kept row the open is the first open of the
    bucket that is not NaN, the high is a high of the bucket that no other
    one exceeds, the low is a low of the bucket below which no other one
    lies, the close is the last close that is not NaN, and the volume is
    the sum of the volumes in int64 arithmetic: the exact sum when that
    lies in the int64 range, otherwise the sum wrapped around modulo 2^64.
    When no price of the bucket is NaN the open is the first bar's open and
    the close the last bar's close.  Two bars in chronological order in one
    bucket with opens 10, 11, highs 12, 13, lows 9, 8, closes 11, 12 and
    volumes 100, 200 give the single row 10, 13, 8, 12, 300. *)
Theorem resample_4h_aggregation (hist : list bar) :
  let frame := sort_index hist in
  let rows := dropna (resample_4h_agg hist) in
  let bucket := fun b : Z => filter (fun x => bucket_of (time x) = b) frame in
  (frame ≡ₚ hist /\ chronological frame /\
   (forall t, filter (fun x => time x = t) frame = filter (fun x => time x = t) hist) /\
   (chronological hist -> frame = hist)) /\
  (forall b, (exists r, r ∈ rows /\ time r = (b * 14400)%Z) <-> complete (bucket b)) /\
  (forall b r, bucket b = [] -> r ∈ rows -> bucket_of (time r) <> b) /\
  ordered (fun r1 r2 => (time r1 < time r2)%Z) rows /\
  (forall r, r ∈ rows ->
     let g := bucket (bucket_of (time r)) in
     time r = (bucket_of (time r) * 14400)%Z /\
     g <> [] /\
     (exists pre x post, Open <$> g = pre ++ x :: post /\
        Forall (fun y => is_nan y = true) pre /\ is_nan x = false /\ Open r = x) /\
     (High r ∈ High <$> g /\
      forall h, h ∈ High <$> g -> is_nan h = false -> flt (High r) h = false) /\
     (Low r ∈ Low <$> g /\
      forall l, l ∈ Low <$> g -> is_nan l = false -> flt l (Low r) = false) /\
     (exists pre x post, Close <$> g = pre ++ x :: post /\
        Forall (fun y => is_nan y = true) post /\ is_nan x = false /\ Close r = x) /\
     Volume r = ((foldr Z.add 0 (Volume <$> g) + 2 ^ 63) mod 2 ^ 64 - 2 ^ 63)%Z /\
     ((- 2 ^ 63 <= foldr Z.add 0 (Volume <$> g) < 2 ^ 63)%Z ->
      Volume r = foldr Z.add 0%Z (Volume <$> g)) /\
     (Forall no_missing g ->
      exists first_bar last_bar,
        head g = Some first_bar /\ last g = Some last_bar /\
        Open r = Open first_bar /\ Close r = Close last_bar)) /\
  (forall t1 t2, (t1 <= t2)%Z -> bucket_of t1 = bucket_of t2 ->
     dropna (resample_4h_agg [hour_bar t1 10 12 9 11 100; hour_bar t2 11 13 8 12 200]) =
     [hour_bar (bucket_of t1 * 14400) 10 13 8 12 300]).
Proof.
  intros frame rows bucket.
  split.
  { split; [apply sort_index_perm|]. split; [apply sort_index_chronological|].
    split; [intros t; apply sort_index_stable | apply sort_index_id]. }
  split.
  { intros b. split.
    - intros (r & Hr & Ht). apply elem_of_resampled in Hr as (b' & -> & Hc).
      cbn [agg_row time] in Ht. assert (b' = b) as -> by lia. exact Hc.
    - intros Hc. exists (agg_row frame b). split; [|reflexivity].
      apply elem_of_resampled. by exists b. }
  split.
  { intros b r Hg Hr Hb. apply elem_of_resampled in Hr as (b' & -> & Hc).
    rewrite bucket_of_row in Hb. subst b'.
    change (group (sort_index hist) b) with (bucket b) in Hc.
    rewrite Hg in Hc. by destruct Hc as [Hc _]. }
  split; [apply resampled_ordered|].
  split; [|apply resample_two_bars].
  intros r Hin g. apply elem_of_resampled in Hin as (b & -> & Hc).
  subst g. rewrite bucket_of_row.
  change (bucket b) with (group frame b).
  destruct Hc as (HO & HH & HL & HC).
  split; [reflexivity|].
  split. { intros E. fold frame in HO. rewrite E in HO. done. }
  cbn [agg_row Open High Low Close Volume]. fold frame in HO, HH, HL, HC |- *.
  split; [by apply agg_first_spec|].
  split. { destruct (agg_max_spec _ HH) as (? & _ & ?). done. }
  split. { destruct (agg_min_spec _ HL) as (? & _ & ?). done. }
  split; [by apply agg_last_spec|].
  split; [reflexivity|].
  split; [intros Hs; by apply wrap_int64_small|].
  intros Hv. apply no_missing_first_last; [done|].
  intros E. rewrite E in HO. done.
Qed.

(** A frame that is not in the order of time, with a gap of one bucket: the
    rows are those of the buckets 0 and 2, the bars of bucket 0 taken in the
    order of time. *)
Lemma resample_4h_aggregation_witness :
  let hist := [hour_bar 30000 20 22 19 21 50; hour_bar 3600 11 13 8 12 200;
               hour_bar 0 10 12 9 11 100] in
  sort_index hist = [hour_bar 0 10 12 9 11 100; hour_bar 3600 11 13 8 12 200;
                     hour_bar 30000 20 22 19 21 50] /\
  dropna (resample_4h_agg hist) = [hour_bar 0 10 13 8 12 300; hour_bar 28800 20 22 19 21 50] /\
  (exists r, r ∈ dropna (resample_4h_agg hist) /\ time r = (2 * 14400)%Z) /\
  (forall r, r ∈ dropna (resample_4h_agg hist) -> bucket_of (time r) <> 1%Z).
Proof.
  intros hist.
  destruct (resample_4h_aggregation hist) as (_ & Hrow & Hdrop & _).
  split; [vm_compute; reflexivity|].
  split; [vm_compute; reflexivity|].
  split.
  - apply Hrow. vm_compute. repeat split; discriminate.
  - intros r Hr. apply (Hdrop 1%Z r); [vm_compute; reflexivity|exact Hr].
Defined.

(** ** Rounding of the elapsed minutes *)

Section Rounding.
Local Open Scope Z_scope.

Lemma digits2_pos_bounds (p : positive) :
  2 ^ (Z.pos (digits2_pos p) - 1) <= Z.pos p < 2 ^ Z.pos (digits2_pos p).
Proof.
  induction p as [p IH|p IH|]; cbn [digits2_pos].
  - rewrite Pos2Z.inj_succ. change (Z.pos p~1) with (2 * Z.pos p + 1).
    replace (Z.succ (Z.pos (digits2_pos p)) - 1) with (Z.succ (Z.pos (digits2_pos p) - 1)) by lia.
    rewrite !Z.pow_succ_r by lia. lia.
  - rewrite Pos2Z.inj_succ. change (Z.pos p~0) with (2 * Z.pos p).
    replace (Z.succ (Z.pos (digits2_pos p)) - 1) with (Z.succ (Z.pos (digits2_pos p) - 1)) by lia.
    rewrite !Z.pow_succ_r by lia. lia.
  - cbn. lia.
Qed.

Lemma digits_unique (p : positive) (d : Z) :
  2 ^ (d - 1) <= Z.pos p < 2 ^ d -> 0 < d -> Z.pos (digits2_pos p) = d.
Proof.
  intros [Hlo Hhi] Hd. pose proof (digits2_pos_bounds p) as [Blo Bhi].
  set (k := Z.pos (digits2_pos p)) in *.
  assert (Hk : 0 < k) by (subst k; lia).
  destruct (Z.lt_trichotomy k d) as [Hlt|[->|Hgt]]; [|done|].
  - assert (2 ^ k <= 2 ^ (d - 1)) by (apply Z.pow_le_mono_r; lia). lia.
  - assert (2 ^ d <= 2 ^ (k - 1)) by (apply Z.pow_le_mono_r; lia). lia.
Qed.

Lemma shr_1_located (X den : Z) (mrs : shr_record) :
  located X den mrs -> located X (2 * den) (shr_1 mrs).
Proof.
  destruct mrs as [m r s]. unfold located. cbn [shr_m shr_r shr_s shr_1].
  intros (Hm & Hden & Hnum & -> & ->).
  destruct m as [|[p|p|]|p]; cbn [shr_m shr_r shr_s]; try lia;
    repeat match goal with
      | |- context [?a <=? ?b] => destruct (Z.leb_spec a b)
      | |- context [?a =? ?b] => destruct (Z.eqb_spec a b)
      end; cbn; repeat split; try lia.
Qed.

Lemma pow2_double (n : positive) : 2 ^ Z.pos n~0 = 2 ^ Z.pos n * 2 ^ Z.pos n.
Proof.
  replace (Z.pos n~0) with (Z.pos n + Z.pos n) by lia. by rewrite Z.pow_add_r by lia.
Qed.

Lemma pow2_double_succ (n : positive) :
  2 ^ Z.pos n~1 = 2 * (2 ^ Z.pos n * 2 ^ Z.pos n).
Proof.
  replace (Z.pos n~1) with (Z.succ (Z.pos n + Z.pos n)) by lia.
  rewrite Z.pow_succ_r by lia. by rewrite Z.pow_add_r by lia.
Qed.

Lemma iter_shr_1_located (n : positive) :
  forall (X den : Z) (mrs : shr_record),
    located X den mrs ->
    located X (2 ^ Z.pos n * den) (SpecFloat.iter_pos shr_1 n mrs).
Proof.
  induction n as [n IH|n IH|]; intros X den mrs H; cbn [SpecFloat.iter_pos].
  - apply shr_1_located in H. apply IH in H. apply IH in H.
    replace (2 ^ Z.pos n~1 * den) with (2 ^ Z.pos n * (2 ^ Z.pos n * (2 * den))); [done|].
    rewrite pow2_double_succ. ring.
  - apply IH in H. apply IH in H.
    replace (2 ^ Z.pos n~0 * den) with (2 ^ Z.pos n * (2 ^ Z.pos n * den)); [done|].
    rewrite pow2_double. ring.
  - apply shr_1_located in H. by rewrite Z.pow_1_r.
Qed.

Lemma shr_located (X den e n : Z) (mrs : shr_record) :
  0 <= n -> located X den mrs ->
  located X (2 ^ n * den) (shr mrs e n).1 /\ (shr mrs e n).2 = e + n.
Proof.
  intros Hn H. unfold shr. destruct n as [|p|p]; [| |lia].
  - cbn [fst snd]. rewrite Z.pow_0_r, Z.mul_1_l, Z.add_0_r. done.
  - cbn [fst snd]. split; [by apply iter_shr_1_located|done].
Qed.

Lemma located_init (q num den : Z) :
  0 <= q -> 0 <= num < den ->
  located (q * den + num) den (shr_record_of_loc q (loc_of num den)).
Proof.
  intros Hq Hnum. unfold located, loc_of.
  destruct (Z.eqb_spec num 0) as [->|Hne].
  - cbn [shr_record_of_loc shr_m shr_r shr_s].
    replace (q * den + 0 - q * den) with 0 by lia. cbn.
    destruct (Z.leb_spec den 0); [lia|]. repeat split; lia.
  - destruct (Z.compare_spec (2 * num) den) as [E|Hlt|Hgt];
      cbn [shr_record_of_loc shr_m shr_r shr_s];
      replace (q * den + num - q * den) with num by lia;
      repeat match goal with
        | |- context [?a <=? ?b] => destruct (Z.leb_spec a b)
        | |- context [?a =? ?b] => destruct (Z.eqb_spec a b)
        end; cbn; repeat split; lia.
Qed.

Lemma new_location_loc_of (m r : Z) :
  0 <= r < m -> new_location m r = loc_of r m.
Proof.
  intros Hr. unfold new_location, new_location_even, new_location_odd, loc_of.
  destruct (Z.even m) eqn:Hev; [reflexivity|].
  destruct (Z.eqb_spec r 0); [reflexivity|].
  assert (Hodd : Z.odd m = true) by (rewrite <- Z.negb_even, Hev; done).
  apply Z.odd_spec in Hodd as [k ->].
  destruct (Z.compare_spec (2 * r + 1) (2 * k + 1)), (Z.compare_spec (2 * r) (2 * k + 1));
    first [reflexivity | lia].
Qed.

Lemma shr_fexp_normal (X den q e : Z) (l : location) :
  located X den (shr_record_of_loc q l) ->
  0 <= Zdigits2 q - 53 -> -1074 <= Zdigits2 q + e - 53 ->
  exists mrs,
    shr_fexp prec emax q e l = (mrs, e + (Zdigits2 q - 53)) /\
    located X (2 ^ (Zdigits2 q - 53) * den) mrs.
Proof.
  intros Hloc Hn He. unfold shr_fexp, fexp, emin, prec, emax.
  rewrite Z.max_l by lia.
  replace (Zdigits2 q + e - 53 - e) with (Zdigits2 q - 53) by lia.
  destruct (shr_located X den e (Zdigits2 q - 53) _ Hn Hloc) as [H1 H2].
  destruct (shr _ e _) as [mrs e']. cbn [fst snd] in *. subst e'. eauto.
Qed.

Lemma Zdigits2_bounds (q : Z) :
  0 < q -> 0 < Zdigits2 q /\ 2 ^ (Zdigits2 q - 1) <= q < 2 ^ Zdigits2 q.
Proof.
  intros Hq. destruct q as [|p|p]; [lia| |lia]. cbn [Zdigits2].
  split; [lia|apply digits2_pos_bounds].
Qed.

Lemma Zdigits2_unique (q d : Z) :
  0 < d -> 2 ^ (d - 1) <= q < 2 ^ d -> Zdigits2 q = d.
Proof.
  intros Hd Hq. assert (0 < q).
  { assert (0 < 2 ^ (d - 1)) by (apply Z.pow_pos_nonneg; lia). lia. }
  destruct q as [|p|p]; [lia| |lia]. cbn [Zdigits2]. by apply digits_unique.
Qed.

Lemma round_nearest_even_located (X D : Z) (mrs : shr_record) :
  located X D mrs ->
  let T := shr_m mrs in
  let m1 := round_nearest_even T (loc_of_shr_record mrs) in
  T * D <= X < (T + 1) * D /\ (m1 = T \/ (m1 = T + 1 /\ T * D < X)).
Proof.
  destruct mrs as [T r s]. unfold located. cbn [shr_m shr_r shr_s].
  intros (HT & HD & Hnum & -> & ->). split; [lia|].
  unfold round_nearest_even, loc_of_shr_record.
  destruct (Z.leb_spec D (2 * (X - T * D))); cbn [negb andb].
  - destruct (negb _ && negb _); [right; split; lia|].
    destruct (Z.even T); [by left | right; split; lia].
  - left. by destruct (negb _ && negb _).
Qed.

Lemma binary_round_aux_normal (q num den e : Z) :
  2 ^ 52 <= q -> 0 <= num < den -> -1074 <= Zdigits2 q + e - 53 ->
  exists T m1 m2 e2,
    let n := Zdigits2 q - 53 in
    let X := q * den + num in
    let D := 2 ^ n * den in
    0 <= n /\
    T * D <= X < (T + 1) * D /\ 2 ^ 52 <= T < 2 ^ 53 /\
    (m1 = T \/ (m1 = T + 1 /\ T * D < X)) /\
    ((m2 = m1 /\ e2 = e + n) \/ (m1 = 2 ^ 53 /\ m2 = 2 ^ 52 /\ e2 = e + n + 1)) /\
    2 ^ 52 <= m2 < 2 ^ 53 /\
    binary_round_aux prec emax false q e (loc_of num den) =
      if e2 <=? 971 then S754_finite false (Z.to_pos m2) e2 else S754_infinity false.
Proof.
  intros Hq Hnum He.
  assert (Hq0 : 0 < q) by (assert (0 < 2 ^ 52) by done; lia).
  destruct (Zdigits2_bounds q Hq0) as (Hd & Hlo & Hhi).
  set (dq := Zdigits2 q) in *.
  assert (Hn : 0 <= dq - 53).
  { destruct (Z.le_gt_cases 53 dq) as [|Hlt]; [lia|].
    assert (2 ^ dq <= 2 ^ 52) by (apply Z.pow_le_mono_r; lia). lia. }
  destruct (shr_fexp_normal (q * den + num) den q e (loc_of num den))
    as (mrs & Hshr & Hloc); [by apply located_init; lia|done..|].
  fold dq in Hshr, Hloc.
  destruct (round_nearest_even_located _ _ _ Hloc) as [HT Hm1].
  set (T := shr_m mrs) in *.
  set (m1 := round_nearest_even T (loc_of_shr_record mrs)) in *.
  set (P := 2 ^ (dq - 53)) in *.
  assert (HP : 0 < P) by (apply Z.pow_pos_nonneg; lia).
  assert (Hhi' : 2 ^ dq = 2 ^ 53 * P).
  { subst P. rewrite <- Z.pow_add_r by lia. f_equal. lia. }
  assert (Hlo' : 2 ^ (dq - 1) = 2 ^ 52 * P).
  { subst P. rewrite <- Z.pow_add_r by lia. f_equal. lia. }
  assert (HPd : 0 < P * den) by lia.
  assert (HTb : 2 ^ 52 <= T < 2 ^ 53).
  { split.
    - destruct (Z.le_gt_cases (2 ^ 52) T) as [|Hlt]; [done|].
      assert ((T + 1) * (P * den) <= 2 ^ 52 * (P * den))
        by (apply Z.mul_le_mono_nonneg_r; lia).
      assert (2 ^ 52 * P * den <= q * den)
        by (apply Z.mul_le_mono_nonneg_r; lia).
      lia.
    - destruct (Z.le_gt_cases (2 ^ 53) T) as [Hge|]; [|done].
      assert (2 ^ 53 * (P * den) <= T * (P * den))
        by (apply Z.mul_le_mono_nonneg_r; lia).
      assert ((q + 1) * den <= 2 ^ 53 * P * den)
        by (apply Z.mul_le_mono_nonneg_r; lia).
      lia. }
  assert (Hm1b : 2 ^ 52 <= m1 <= 2 ^ 53) by lia.
  assert (He1 : -1074 <= e + (dq - 53)) by lia.
  destruct (Z.eq_dec m1 (2 ^ 53)) as [Hcarry|Hnc].
  - exists T, m1, (2 ^ 52), (e + (dq - 53) + 1).
    cbv zeta. split; [done|]. split; [done|]. split; [done|]. split; [done|].
    split; [right; done|]. split; [done|].
    unfold binary_round_aux. rewrite Hshr. cbv beta iota.
    fold T. fold m1. rewrite Hcarry.
    unfold shr_fexp, fexp, emin, prec, emax.
    change (Zdigits2 (2 ^ 53)) with 54.
    rewrite Z.max_l by lia.
    replace (54 + (e + (dq - 53)) - 53 - (e + (dq - 53))) with 1 by lia.
    cbn. reflexivity.
  - exists T, m1, m1, (e + (dq - 53)).
    cbv zeta. split; [done|]. split; [done|]. split; [done|]. split; [done|].
    split; [left; done|]. split; [lia|].
    unfold binary_round_aux. rewrite Hshr. cbv beta iota.
    fold T. fold m1.
    unfold shr_fexp, fexp, emin, prec, emax.
    rewrite (Zdigits2_unique m1 53) by (change (53 - 1) with 52; lia).
    rewrite Z.max_l by lia.
    replace (53 + (e + (dq - 53)) - 53 - (e + (dq - 53))) with 0 by lia.
    cbn [shr shr_record_of_loc shr_m].
    destruct m1 as [|p|p]; [lia| |lia]. reflexivity.
Qed.

Lemma SFdiv_core_normal (mx my : positive) (ex ey : Z) :
  let d1 := Z.pos (digits2_pos mx) in
  let d2 := Z.pos (digits2_pos my) in
  -1074 <= d1 + ex - d2 - ey - 53 ->
  exists s q r,
    0 <= s /\
    SFdiv_core_binary prec emax (Z.pos mx) ex (Z.pos my) ey =
      (q, ex - ey - s, loc_of r (Z.pos my)) /\
    Z.pos mx * 2 ^ s = q * Z.pos my + r /\ 0 <= r < Z.pos my /\
    2 ^ 52 <= q /\ d1 + s - d2 <= Zdigits2 q.
Proof.
  intros d1 d2 Hn.
  pose proof (digits2_pos_bounds mx) as [Hx1 Hx2].
  pose proof (digits2_pos_bounds my) as [Hy1 Hy2].
  fold d1 in Hx1, Hx2. fold d2 in Hy1, Hy2.
  assert (Hd1 : 0 < d1) by (subst d1; lia).
  assert (Hd2 : 0 < d2) by (subst d2; lia).
  set (s := Z.max (53 + d2 - d1) 0).
  assert (Hs : 0 <= s) by lia.
  unfold SFdiv_core_binary. cbn [Zdigits2]. fold d1 d2.
  unfold fexp, emin, prec, emax.
  replace (Z.min (Z.max (d1 + ex - (d2 + ey) - 53) (3 - 1024 - 53)) (ex - ey))
    with (ex - ey - s) by lia.
  replace (ex - ey - (ex - ey - s)) with s by lia.
  assert (Hm : match s with
               | 0 => Z.pos mx
               | Z.pos _ => Z.shiftl (Z.pos mx) s
               | Z.neg _ => 0
               end = Z.pos mx * 2 ^ s).
  { destruct s as [|p|p] eqn:E; [lia| |lia]. by rewrite Z.shiftl_mul_pow2. }
  rewrite Hm.
  pose proof (Z_div_mod (Z.pos mx * 2 ^ s) (Z.pos my) ltac:(lia)) as Hdm.
  destruct (Z.div_eucl (Z.pos mx * 2 ^ s) (Z.pos my)) as [q r].
  destruct Hdm as [Hdm Hr].
  exists s, q, r. split; [done|]. split.
  { rewrite new_location_loc_of by done. reflexivity. }
  split; [lia|]. split; [done|].
  set (k := d1 + s - d2 - 1).
  assert (Hk : 52 <= k) by lia.
  assert (Hpow : 2 ^ (d1 - 1) * 2 ^ s = 2 ^ k * 2 ^ d2).
  { subst k. rewrite <- !Z.pow_add_r by lia. f_equal. lia. }
  assert (Hk0 : 0 < 2 ^ k) by (apply Z.pow_pos_nonneg; lia).
  assert (Hs0 : 0 < 2 ^ s) by (apply Z.pow_pos_nonneg; lia).
  assert (Hqk : 2 ^ k <= q).
  { destruct (Z.le_gt_cases (2 ^ k) q) as [|Hlt]; [done|].
    assert (2 ^ (d1 - 1) * 2 ^ s <= Z.pos mx * 2 ^ s)
      by (apply Z.mul_le_mono_nonneg_r; lia).
    assert ((q + 1) * Z.pos my <= 2 ^ k * Z.pos my)
      by (apply Z.mul_le_mono_nonneg_r; lia).
    assert (2 ^ k * Z.pos my < 2 ^ k * 2 ^ d2)
      by (apply Z.mul_lt_mono_pos_l; lia).
    lia. }
  split.
  - assert (2 ^ 52 <= 2 ^ k) by (apply Z.pow_le_mono_r; lia). lia.
  - assert (Hq0 : 0 < q) by lia.
    destruct (Zdigits2_bounds q Hq0) as (Hdq & _ & Hhi).
    destruct (Z.le_gt_cases (k + 1) (Zdigits2 q)) as [|Hlt]; [lia|].
    assert (2 ^ Zdigits2 q <= 2 ^ k) by (apply Z.pow_le_mono_r; lia). lia.
Qed.

Lemma SFdiv_normal (mx my : positive) (ex ey : Z) :
  let d1 := Z.pos (digits2_pos mx) in
  let d2 := Z.pos (digits2_pos my) in
  -1074 <= d1 + ex - d2 - ey - 53 ->
  exists s n T m1 m2 e2,
    let X := Z.pos mx * 2 ^ s in
    let D := 2 ^ n * Z.pos my in
    let e1 := ex - ey - s + n in
    0 <= s /\ 0 <= n /\
    T * D <= X < (T + 1) * D /\ 2 ^ 52 <= T < 2 ^ 53 /\
    (m1 = T \/ (m1 = T + 1 /\ T * D < X)) /\
    ((m2 = m1 /\ e2 = e1) \/ (m1 = 2 ^ 53 /\ m2 = 2 ^ 52 /\ e2 = e1 + 1)) /\
    2 ^ 52 <= m2 < 2 ^ 53 /\
    d1 + ex - d2 - ey - 53 <= e1 /\
    SFdiv prec emax (S754_finite false mx ex) (S754_finite false my ey) =
      if e2 <=? 971 then S754_finite false (Z.to_pos m2) e2 else S754_infinity false.
Proof.
  intros d1 d2 Hn.
  destruct (SFdiv_core_normal mx my ex ey Hn)
    as (s & q & r & Hs & Hcore & HX & Hr & Hq & Hdq).
  fold d1 d2 in Hdq.
  destruct (binary_round_aux_normal q r (Z.pos my) (ex - ey - s))
    as (T & m1 & m2 & e2 & H); [done|done|lia|].
  cbv zeta in H. destruct H as (Hn0 & HT & HTb & Hm1 & Hm2 & Hm2b & Hres).
  exists s, (Zdigits2 q - 53), T, m1, m2, e2. cbv zeta.
  rewrite HX. split; [done|]. split; [done|]. split; [done|]. split; [done|].
  split; [done|]. split; [done|]. split; [done|]. split; [lia|].
  unfold SFdiv. rewrite Hcore. cbv beta iota. cbn [xorb]. exact Hres.
Qed.

Lemma scale_le (a b z u v : Z) :
  a * 2 ^ Z.max 0 z <= b * 2 ^ Z.max 0 (- z) ->
  0 <= u -> 0 <= v -> u = z + v -> a * 2 ^ u <= b * 2 ^ v.
Proof.
  intros H Hu Hv ->.
  destruct (Z.le_gt_cases 0 z) as [Hz|Hz].
  - rewrite Z.max_r, (Z.max_l 0 (- z)), Z.pow_0_r, Z.mul_1_r in H by lia.
    rewrite Z.pow_add_r, Z.mul_assoc by lia.
    apply Z.mul_le_mono_nonneg_r; [apply Z.pow_nonneg; lia|done].
  - rewrite Z.max_l, (Z.max_r 0 (- z)), Z.pow_0_r, Z.mul_1_r in H by lia.
    replace v with (- z + (z + v)) at 2 by lia.
    rewrite (Z.pow_add_r 2 (- z)), Z.mul_assoc by lia.
    apply Z.mul_le_mono_nonneg_r; [apply Z.pow_nonneg; lia|done].
Qed.

Lemma pow2_ge_2 (k : Z) : 1 <= k -> 2 <= 2 ^ k.
Proof.
  intros Hk. change 2 with (2 ^ 1) at 1. apply Z.pow_le_mono_r; lia.
Qed.

(** A binary64 number with a full mantissa that is at most the exact
    quotient is at most the rounded quotient. *)
Lemma SFdiv_lower (mx my mb : positive) (ex ey eb : Z) :
  -1074 <= Z.pos (digits2_pos mx) + ex - Z.pos (digits2_pos my) - ey - 53 ->
  2 ^ 52 <= Z.pos mb ->
  Z.pos mb * Z.pos my * 2 ^ Z.max 0 (eb - (ex - ey))
    <= Z.pos mx * 2 ^ Z.max 0 (- (eb - (ex - ey))) ->
  SFleb (S754_finite false mb eb)
        (SFdiv prec emax (S754_finite false mx ex) (S754_finite false my ey)) = true.
Proof.
  intros Hn Hmb H.
  destruct (SFdiv_normal mx my ex ey Hn) as (s & n & T & m1 & m2 & e2 & Hall).
  cbv zeta in Hall.
  destruct Hall as (Hs & Hn0 & HT & HTb & Hm1 & Hm2 & Hm2b & _ & ->).
  destruct (Z.leb_spec e2 971) as [_|_]; [|reflexivity].
  unfold SFleb, SFcompare.
  destruct (Z.compare_spec eb e2) as [Heq|Hlt|Hgt]; [|reflexivity|].
  - (* same exponent *)
    assert (Hk : 0 <= eb - (ex - ey - s + n)) by lia.
    pose proof (scale_le _ _ _ (eb - (ex - ey - s + n) + n) s H ltac:(lia) Hs ltac:(lia))
      as Hsc.
    rewrite Z.pow_add_r in Hsc by lia.
    set (K := 2 ^ (eb - (ex - ey - s + n))) in *.
    assert (HK : 1 <= K) by (subst K; apply (Z.pow_le_mono_r 2 0); lia).
    set (D := 2 ^ n * Z.pos my) in *.
    assert (HD : 0 < D) by (subst D; apply Z.mul_pos_pos; [apply Z.pow_pos_nonneg|]; lia).
    assert (HmbT : Z.pos mb * K <= T).
    { destruct (Z.le_gt_cases (Z.pos mb * K) T) as [|Hlt]; [done|].
      assert ((T + 1) * D <= Z.pos mb * K * D) by (apply Z.mul_le_mono_nonneg_r; lia).
      assert (Z.pos mb * K * D = Z.pos mb * Z.pos my * (K * 2 ^ n)) by (subst D; ring).
      lia. }
    destruct Hm2 as [[-> He2]|(Hc & -> & He2)].
    + assert (K = 1) by (subst K; replace (eb - (ex - ey - s + n)) with 0 by lia; done).
      assert (Hle : Z.pos mb <= m1) by lia.
      destruct m1 as [|p1|p1]; [lia| |lia]. cbn [Z.to_pos].
      change (Pos.compare_cont Eq mb p1) with (Pos.compare mb p1).
      destruct (Pos.compare_spec mb p1); first [reflexivity | lia].
    + exfalso. assert (2 <= K) by (subst K; apply pow2_ge_2; lia).
      assert (2 * Z.pos mb <= Z.pos mb * K) by nia. lia.
  - (* larger exponent: impossible *)
    exfalso.
    assert (Hk : 1 <= eb - (ex - ey - s + n)) by lia.
    pose proof (scale_le _ _ _ (eb - (ex - ey - s + n) + n) s H ltac:(lia) Hs ltac:(lia))
      as Hsc.
    rewrite Z.pow_add_r in Hsc by lia.
    set (K := 2 ^ (eb - (ex - ey - s + n))) in *.
    assert (HK : 2 <= K) by (subst K; apply pow2_ge_2; lia).
    set (D := 2 ^ n * Z.pos my) in *.
    assert (HD : 0 < D) by (subst D; apply Z.mul_pos_pos; [apply Z.pow_pos_nonneg|]; lia).
    assert (HmbT : Z.pos mb * K <= T).
    { destruct (Z.le_gt_cases (Z.pos mb * K) T) as [|Hlt']; [done|].
      assert ((T + 1) * D <= Z.pos mb * K * D) by (apply Z.mul_le_mono_nonneg_r; lia).
      assert (Z.pos mb * K * D = Z.pos mb * Z.pos my * (K * 2 ^ n)) by (subst D; ring).
      lia. }
    assert (2 * Z.pos mb <= Z.pos mb * K) by nia. lia.
Qed.

Lemma SFleb_finite_pos (m1 m2 : positive) (e1 e2 : Z) :
  SFleb (S754_finite false m1 e1) (S754_finite false m2 e2) = true <->
  e1 < e2 \/ (e1 = e2 /\ Z.pos m1 <= Z.pos m2).
Proof.
  unfold SFleb, SFcompare.
  destruct (Z.compare_spec e1 e2) as [->|Hlt|Hgt].
  - change (Pos.compare_cont Eq m1 m2) with (Pos.compare m1 m2).
    destruct (Pos.compare_spec m1 m2) as [->|Hm|Hm].
    + split; [intros _; right; split; lia|done].
    + split; [intros _; right; split; lia|done].
    + split; [discriminate|intros [?|[_ ?]]; lia].
  - split; [intros _; by left|done].
  - split; [discriminate|intros [?|[? _]]; lia].
Qed.

(** A binary64 number that is at least the exact quotient is at least the
    rounded quotient. *)
Lemma SFdiv_upper (mx my mc : positive) (ex ey ec : Z) :
  -1074 <= Z.pos (digits2_pos mx) + ex - Z.pos (digits2_pos my) - ey - 53 ->
  Z.pos mc < 2 ^ 53 -> ec <= 971 ->
  Z.pos mx * 2 ^ Z.max 0 ((ex - ey) - ec)
    <= Z.pos mc * Z.pos my * 2 ^ Z.max 0 (- ((ex - ey) - ec)) ->
  SFleb (SFdiv prec emax (S754_finite false mx ex) (S754_finite false my ey))
        (S754_finite false mc ec) = true.
Proof.
  intros Hn Hmc Hec H.
  destruct (SFdiv_normal mx my ex ey Hn) as (s & n & T & m1 & m2 & e2 & Hall).
  cbv zeta in Hall.
  destruct Hall as (Hs & Hn0 & HT & HTb & Hm1 & Hm2 & Hm2b & _ & ->).
  set (e1 := ex - ey - s + n) in *.
  set (D := 2 ^ n * Z.pos my) in *.
  assert (HD : 0 < D) by (subst D; apply Z.mul_pos_pos; [apply Z.pow_pos_nonneg|]; lia).
  assert (He12 : e1 <= e2 <= e1 + 1) by lia.
  destruct (Z.lt_ge_cases e2 ec) as [Hlt|Hge].
  { destruct (Z.leb_spec e2 971) as [_|]; [|lia].
    apply SFleb_finite_pos. by left. }
  destruct (Z.lt_ge_cases ec e1) as [Hbelow|Habove].
  - (* the bound lies on a finer grid below the quotient: impossible *)
    exfalso.
    pose proof (scale_le _ _ _ (s + (e1 - ec)) n H ltac:(lia) Hn0 ltac:(lia)) as Hsc.
    rewrite Z.pow_add_r in Hsc by lia.
    set (J := 2 ^ (e1 - ec)) in *.
    assert (HJ : 2 <= J) by (subst J; apply pow2_ge_2; lia).
    assert (HX : 2 ^ 52 * D <= Z.pos mx * 2 ^ s).
    { assert (2 ^ 52 * D <= T * D) by (apply Z.mul_le_mono_nonneg_r; lia). lia. }
    assert (Z.pos mc * Z.pos my * 2 ^ n = Z.pos mc * D) by (subst D; ring).
    assert (2 ^ 52 * D * J <= Z.pos mx * 2 ^ s * J)
      by (apply Z.mul_le_mono_nonneg_r; lia).
    assert (Z.pos mc * D < 2 ^ 53 * D) by (apply Z.mul_lt_mono_pos_r; lia).
    assert (2 ^ 52 * D * 2 <= 2 ^ 52 * D * J)
      by (apply Z.mul_le_mono_nonneg_l; lia).
    lia.
  - (* the bound lies on the grid of the quotient *)
    pose proof (scale_le _ _ _ s ((ec - e1) + n) H Hs ltac:(lia) ltac:(lia)) as Hsc.
    rewrite Z.pow_add_r in Hsc by lia.
    set (K := 2 ^ (ec - e1)) in *.
    assert (HK : 1 <= K) by (subst K; apply (Z.pow_le_mono_r 2 0); lia).
    assert (HXle : Z.pos mx * 2 ^ s <= Z.pos mc * K * D).
    { replace (Z.pos mc * K * D) with (Z.pos mc * Z.pos my * (K * 2 ^ n)) by (subst D; ring).
      done. }
    assert (Hm1le : m1 <= Z.pos mc * K).
    { destruct (Z.le_gt_cases m1 (Z.pos mc * K)) as [|Hgt]; [done|].
      destruct Hm1 as [->|[-> Hstrict]].
      - assert ((Z.pos mc * K + 1) * D <= T * D) by (apply Z.mul_le_mono_nonneg_r; lia).
        lia.
      - assert (Z.pos mc * K * D <= T * D) by (apply Z.mul_le_mono_nonneg_r; lia).
        lia. }
    destruct Hm2 as [[-> He2]|(Hc & -> & He2)].
    + assert (ec = e2) by lia. subst ec.
      assert (K = 1) by (subst K; replace (e2 - e1) with 0 by lia; done).
      destruct (Z.leb_spec e2 971) as [_|]; [|lia].
      apply SFleb_finite_pos. right. split; [done|].
      rewrite Z2Pos.id by lia. lia.
    + destruct (Z.eq_dec ec e1) as [Heq|Hne].
      * exfalso. assert (K = 1) by (subst K; replace (ec - e1) with 0 by lia; done). lia.
      * assert (ec = e2) by lia. subst ec.
        assert (K = 2) by (subst K; replace (e2 - e1) with 1 by lia; done).
        destruct (Z.leb_spec e2 971) as [_|]; [|lia].
        apply SFleb_finite_pos. right. split; [done|].
        rewrite Z2Pos.id by lia. lia.
Qed.

Lemma of_int_60 : of_int 60 = S754_finite false 8444249301319680 (-47).
Proof. vm_compute. reflexivity. Qed.

Lemma of_int_45 : of_int 45 = S754_finite false 6333186975989760 (-47).
Proof. vm_compute. reflexivity. Qed.

Lemma binary_round_aux_sign (m e : Z) (l : location) :
  binary_round_aux prec emax true m e l =
  SFopp (binary_round_aux prec emax false m e l).
Proof.
  unfold binary_round_aux.
  destruct (shr_fexp prec emax m e l) as [mrs e'].
  destruct (shr_fexp prec emax _ e' loc_Exact) as [mrs' e''].
  destruct (shr_m mrs'); [reflexivity| |reflexivity].
  by destruct (e'' <=? emax - prec).
Qed.

Lemma SFdiv_neg (mx my : positive) (ex ey : Z) :
  SFdiv prec emax (S754_finite true mx ex) (S754_finite false my ey) =
  SFopp (SFdiv prec emax (S754_finite false mx ex) (S754_finite false my ey)).
Proof.
  unfold SFdiv.
  destruct (SFdiv_core_binary prec emax (Z.pos mx) ex (Z.pos my) ey) as [[mz ez] lz].
  apply binary_round_aux_sign.
Qed.

(** The shape of a rounded quotient of two positive numbers in the normal
    range. *)
Lemma SFdiv_shape (mx my : positive) (ex ey : Z) :
  -1074 <= Z.pos (digits2_pos mx) + ex - Z.pos (digits2_pos my) - ey - 53 ->
  SFdiv prec emax (S754_finite false mx ex) (S754_finite false my ey) = S754_infinity false \/
  exists m e,
    SFdiv prec emax (S754_finite false mx ex) (S754_finite false my ey) = S754_finite false m e /\
    2 ^ 52 <= Z.pos m < 2 ^ 53 /\
    Z.pos (digits2_pos mx) + ex - Z.pos (digits2_pos my) - ey - 53 <= e.
Proof.
  intros Hn.
  destruct (SFdiv_normal mx my ex ey Hn) as (s & n & T & m1 & m2 & e2 & Hall).
  cbv zeta in Hall.
  destruct Hall as (Hs & Hn0 & HT & HTb & Hm1 & Hm2 & Hm2b & He1 & ->).
  destruct (e2 <=? 971); [|by left].
  right. exists (Z.to_pos m2), e2. split; [done|].
  rewrite Z2Pos.id by lia. split; [done|]. lia.
Qed.

Lemma digits_1000000 : Z.pos (digits2_pos 1000000) = 20.
Proof. reflexivity. Qed.

Lemma digits_F60 : Z.pos (digits2_pos 8444249301319680) = 53.
Proof. reflexivity. Qed.

Lemma digits_full (m : positive) :
  2 ^ 52 <= Z.pos m < 2 ^ 53 -> Z.pos (digits2_pos m) = 53.
Proof. intros H. apply digits_unique; [|lia]. exact H. Qed.

Lemma total_seconds_pos (p : positive) :
  total_seconds (Z.pos p) =
  SFdiv prec emax (S754_finite false p 0) (S754_finite false 1000000 0).
Proof. reflexivity. Qed.

Lemma total_seconds_normal (p : positive) :
  -1074 <= Z.pos (digits2_pos p) + 0 - Z.pos (digits2_pos 1000000) - 0 - 53.
Proof. rewrite digits_1000000. lia. Qed.

(** From 45 minutes on, the seconds are at least 2700. *)
Lemma total_seconds_lower (p : positive) :
  2700000000 <= Z.pos p -> SFleb F2700 (total_seconds (Z.pos p)) = true.
Proof.
  intros Hp. rewrite total_seconds_pos. unfold F2700.
  apply SFdiv_lower; [apply total_seconds_normal|lia|].
  change (Z.max 0 (-41 - (0 - 0))) with 0.
  change (Z.max 0 (- (-41 - (0 - 0)))) with 41.
  lia.
Qed.

(** Below 45 minutes, the seconds are at most the float just under 2700. *)
Lemma total_seconds_upper (p : positive) :
  Z.pos p < 2700000000 -> SFleb (total_seconds (Z.pos p)) F2700_pred = true.
Proof.
  intros Hp. rewrite total_seconds_pos. unfold F2700_pred.
  apply SFdiv_upper; [apply total_seconds_normal|lia|lia|].
  change (Z.max 0 (0 - 0 - -41)) with 41.
  change (Z.max 0 (- (0 - 0 - -41))) with 0.
  lia.
Qed.

Lemma minutes_normal (m : positive) (e : Z) :
  2 ^ 52 <= Z.pos m < 2 ^ 53 -> -1068 <= e ->
  -1074 <= Z.pos (digits2_pos m) + e - Z.pos (digits2_pos 8444249301319680) - -47 - 53.
Proof. intros Hm He. rewrite (digits_full m Hm), digits_F60. lia. Qed.

(** At least 2700 seconds are at least 45 minutes. *)
Lemma minutes_lower (m : positive) (e : Z) :
  2 ^ 52 <= Z.pos m < 2 ^ 53 ->
  SFleb F2700 (S754_finite false m e) = true ->
  SFleb (S754_finite false 6333186975989760 (-47))
        (SFdiv prec emax (S754_finite false m e)
           (S754_finite false 8444249301319680 (-47))) = true.
Proof.
  intros Hm H. apply SFleb_finite_pos in H.
  apply SFdiv_lower; [apply minutes_normal; [done|lia]|lia|].
  rewrite Z.max_l by lia. rewrite Z.max_r by lia.
  rewrite Z.pow_0_r, Z.mul_1_r.
  replace (- (-47 - (e - -47))) with (53 + (e + 41)) by lia.
  destruct H as [Hlt|[Heq Hle]].
  - rewrite Z.pow_add_r by lia.
    assert (HP : 2 <= 2 ^ (e + 41)) by (apply pow2_ge_2; lia).
    set (P := 2 ^ (e + 41)) in *.
    assert (2 ^ 52 * (2 ^ 53 * 2) <= Z.pos m * (2 ^ 53 * P)).
    { apply Z.mul_le_mono_nonneg; lia. }
    lia.
  - replace (e + 41) with 0 by lia. rewrite Z.add_0_r. lia.
Qed.

(** At most the float under 2700 seconds are at most the float under 45
    minutes. *)
Lemma minutes_upper (m : positive) (e : Z) :
  2 ^ 52 <= Z.pos m < 2 ^ 53 -> -72 <= e ->
  SFleb (S754_finite false m e) F2700_pred = true ->
  SFleb (SFdiv prec emax (S754_finite false m e)
           (S754_finite false 8444249301319680 (-47))) F45_pred = true.
Proof.
  intros Hm He H. apply SFleb_finite_pos in H. unfold F45_pred.
  apply SFdiv_upper; [apply minutes_normal; [done|lia]|lia|lia|].
  rewrite Z.max_r by lia. rewrite Z.max_l by lia.
  rewrite Z.pow_0_r, Z.mul_1_r.
  destruct H as [Hlt|[Heq Hle]].
  - assert (HP : 2 ^ (e - -47 - -47) <= 2 ^ 52) by (apply Z.pow_le_mono_r; lia).
    assert (0 < 2 ^ (e - -47 - -47)) by (apply Z.pow_pos_nonneg; lia).
    set (P := 2 ^ (e - -47 - -47)) in *.
    assert (Z.pos m * P <= 2 ^ 53 * 2 ^ 52) by (apply Z.mul_le_mono_nonneg; lia).
    lia.
  - replace (e - -47 - -47) with 53 by lia. lia.
Qed.

Lemma not_SFleb_45 (x : float) :
  SFleb x F45_pred = true ->
  SFleb (S754_finite false 6333186975989760 (-47)) x = false.
Proof.
  unfold F45_pred. intros H.
  destruct x as [s|[|]| |[|] m e];
    [reflexivity|reflexivity|vm_compute in H; discriminate H|reflexivity
    |reflexivity|].
  apply SFleb_finite_pos in H.
  destruct (SFleb _ _) eqn:E; [|done].
  apply SFleb_finite_pos in E. lia.
Qed.

(** The cooldown test of the code holds exactly from 45 minutes, that is
    2 700 000 000 microseconds, on. *)
Lemma cooldown_threshold (d : Z) :
  fge (fdiv_int (total_seconds d) 60) (of_int 45) = (2700000000 <=? d).
Proof.
  unfold fge, fdiv_int. rewrite of_int_60, of_int_45.
  destruct d as [|p|p].
  - vm_compute. reflexivity.
  - destruct (SFdiv_shape p 1000000 0 0 (total_seconds_normal p))
      as [Hinf|(m & e & Hfin & Hm & He)].
    + destruct (Z.leb_spec 2700000000 (Z.pos p)) as [Hge|Hlt].
      * rewrite total_seconds_pos, Hinf. reflexivity.
      * pose proof (total_seconds_upper p Hlt) as H.
        rewrite total_seconds_pos, Hinf in H. discriminate H.
    + rewrite digits_1000000 in He.
      destruct (Z.leb_spec 2700000000 (Z.pos p)) as [Hge|Hlt].
      * pose proof (total_seconds_lower p Hge) as H.
        rewrite total_seconds_pos, Hfin in H |- *.
        by apply minutes_lower.
      * pose proof (total_seconds_upper p Hlt) as H.
        rewrite total_seconds_pos, Hfin in H |- *.
        apply not_SFleb_45. apply minutes_upper; [done|lia|done].
  - destruct (Z.leb_spec 2700000000 (Z.neg p)) as [Hge|_]; [lia|].
    change (total_seconds (Z.neg p))
      with (SFdiv prec emax (S754_finite true p 0) (S754_finite false 1000000 0)).
    rewrite SFdiv_neg.
    destruct (SFdiv_shape p 1000000 0 0 (total_seconds_normal p))
      as [->|(m & e & -> & Hm & He)]; [reflexivity|].
    rewrite digits_1000000 in He.
    cbn [SFopp negb]. rewrite SFdiv_neg.
    destruct (SFdiv_shape m 8444249301319680 e (-47))
      as [->|(m' & e' & -> & _ & _)]; [apply minutes_normal; [done|lia]|reflexivity..].
Qed.

End Rounding.

(** ** Notification throttle *)

Lemma notify_cases (w : world) (st : session_state) (new4 new1 : list crossover) :
  new4 ++ new1 <> [] -> notification_enabled st = true ->
  let elapsed := datetime_sub (now_notify w) (last_telegram_sent_time st) in
  notify w st new4 new1 =
    if (2700000000 <=? elapsed)%Z then
      match notifier_result w with
      | Some true =>
          (set_last_telegram_sent_time st (now_notify w),
           [Balloons; SendTelegramAlerts new4 new1; SuccessSent (length (new4 ++ new1))])
      | _ => (st, [Balloons; SendTelegramAlerts new4 new1; WarningFailed])
      end
    else (st, [Balloons; InfoCooldown]).
Proof.
  intros Hne Hen elapsed. unfold notify, time_since.
  rewrite Hen, cooldown_threshold. fold elapsed.
  destruct (new4 ++ new1) as [|c l] eqn:E; [done|]. reflexivity.
Qed.

Lemma after_scan_notify (w : world) (st : session_state) (c4 c1 : list crossover) :
  let st1 := (notify w st (new_alerts (previous_alerts st) c4)
                (new_alerts (previous_alerts st) c1)).1 in
  (after_scan w st c4 c1).1.2 =
    (notify w st (new_alerts (previous_alerts st) c4)
       (new_alerts (previous_alerts st) c1)).2 /\
  last_telegram_sent_time (after_scan w st c4 c1).1.1 = last_telegram_sent_time st1 /\
  notification_enabled (after_scan w st c4 c1).1.1 = notification_enabled st1.
Proof. unfold after_scan. by destruct (notify _ _ _ _). Qed.

(** C4: when a scan has new events and notifications are enabled, the
    alerts are sent, in one call carrying all new events, when at least 45
    minutes (2 700 000 000 microseconds) lie between the last send and now;
    the time of the last send becomes now exactly when that call succeeds,
    and a failed call leaves it as it was and raises the warning; with less
    than 45 minutes nothing is sent and the time of the last send stays. *)
Theorem notification_cooldown (w : world) (st : session_state)
    (crossovers_4h crossovers_1d : list crossover) :
  let new4 := new_alerts (previous_alerts st) crossovers_4h in
  let new1 := new_alerts (previous_alerts st) crossovers_1d in
  let elapsed := datetime_sub (now_notify w) (last_telegram_sent_time st) in
  let st' := (after_scan w st crossovers_4h crossovers_1d).1.1 in
  let effects := (after_scan w st crossovers_4h crossovers_1d).1.2 in
  new4 ++ new1 <> [] -> notification_enabled st = true ->
  ((2700000000 <= elapsed)%Z ->
     (notifier_result w = Some true ->
        effects = [Balloons; SendTelegramAlerts new4 new1;
                   SuccessSent (length (new4 ++ new1))] /\
        last_telegram_sent_time st' = now_notify w) /\
     (notifier_result w <> Some true ->
        effects = [Balloons; SendTelegramAlerts new4 new1; WarningFailed] /\
        last_telegram_sent_time st' = last_telegram_sent_time st)) /\
  ((elapsed < 2700000000)%Z ->
     effects = [Balloons; InfoCooldown] /\
     last_telegram_sent_time st' = last_telegram_sent_time st) /\
  (elapsed = 2700000000%Z -> SendTelegramAlerts new4 new1 ∈ effects) /\
  (elapsed = 2640000000%Z -> forall a4 a1, SendTelegramAlerts a4 a1 ∉ effects).
Proof.
  intros new4 new1 elapsed st' effects Hne Hen.
  destruct (after_scan_notify w st crossovers_4h crossovers_1d) as (He & Hl & _).
  fold new4 new1 in He, Hl. fold effects in He. fold st' in Hl.
  pose proof (notify_cases w st new4 new1 Hne Hen) as Hn. cbv zeta in Hn.
  fold elapsed in Hn. rewrite Hn in He, Hl. clear Hn.
  assert (Hsend : (2700000000 <= elapsed)%Z ->
            (notifier_result w = Some true ->
               effects = [Balloons; SendTelegramAlerts new4 new1;
                          SuccessSent (length (new4 ++ new1))] /\
               last_telegram_sent_time st' = now_notify w) /\
            (notifier_result w <> Some true ->
               effects = [Balloons; SendTelegramAlerts new4 new1; WarningFailed] /\
               last_telegram_sent_time st' = last_telegram_sent_time st)).
  { intros Hge. destruct (Z.leb_spec 2700000000 elapsed) as [_|]; [|lia].
    destruct (notifier_result w) as [[|]|]; split; intros Hr; try done. }
  assert (Hquiet : (elapsed < 2700000000)%Z ->
            effects = [Balloons; InfoCooldown] /\
            last_telegram_sent_time st' = last_telegram_sent_time st).
  { intros Hlt. destruct (Z.leb_spec 2700000000 elapsed) as [|_]; [lia|]. done. }
  split; [exact Hsend|]. split; [exact Hquiet|]. split.
  - intros Heq. destruct Hsend as [Hok Hfail]; [lia|].
    destruct (decide (notifier_result w = Some true)) as [Hr|Hr].
    + destruct (Hok Hr) as [-> _]. apply list_elem_of_In. simpl. tauto.
    + destruct (Hfail Hr) as [-> _]. apply list_elem_of_In. simpl. tauto.
  - intros Heq a4 a1. destruct Hquiet as [-> _]; [lia|].
    intros Hin. apply list_elem_of_In in Hin. simpl in Hin.
    destruct Hin as [?|[?|[]]]; discriminate.
Qed.

(** A scan at 10:45 with one new event, 45 minutes after the last send at
    10:00: the alerts are sent. *)
Lemma notification_cooldown_witness :
  let ev := sample_event "TCS" (sample_time 10 44) in
  let w := sample_world (sample_time 10 45) (Some true) in
  let st := sample_state ∅ (sample_time 10 0) in
  SendTelegramAlerts (new_alerts ∅ [ev]) (new_alerts ∅ []) ∈ (after_scan w st [ev] []).1.2.
Proof.
  intros ev w st.
  assert (Hne : new_alerts (previous_alerts st) [ev] ++ new_alerts (previous_alerts st) [] <> []).
  { vm_compute. discriminate. }
  destruct (notification_cooldown w st [ev] [] Hne eq_refl) as (_ & _ & Hsend & _).
  apply Hsend. reflexivity.
Defined.

(** * Further properties of the code *)

(** ** Side of a label *)

Lemma elem_of_bullish (l : string) :
  l ∈ bullish_signals <-> l = BUY \/ l = WEAK_BUY \/ l = STRONG_BUY.
Proof.
  unfold bullish_signals. rewrite !elem_of_cons, elem_of_nil. tauto.
Qed.

Lemma elem_of_bearish (l : string) :
  l ∈ bearish_signals <-> l = SELL \/ l = WEAK_SELL \/ l = STRONG_SELL.
Proof.
  unfold bearish_signals. rewrite !elem_of_cons, elem_of_nil. tauto.
Qed.

Lemma flt_nan_l (x y : float) : is_nan x = true -> flt x y = false.
Proof. by destruct x. Qed.

Lemma flt_nan_r (x y : float) : is_nan y = true -> flt x y = false.
Proof. destruct y; try done. intros _. by destruct x as [| | |[]]. Qed.

Lemma classify_cases (m s : float) :
  (fgt m s = true /\ flt m s = false /\ classify m s ∈ bullish_signals) \/
  (fgt m s = false /\ flt m s = true /\ classify m s ∈ bearish_signals) \/
  (fgt m s = false /\ flt m s = false /\ classify m s = NO_SIGNAL).
Proof.
  unfold classify.
  destruct (fgt m s) eqn:Hgt.
  - left. assert (Hlt : flt m s = false) by (apply flt_asym; exact Hgt).
    rewrite Hlt. split; [done|]. split; [done|]. cbn [andb].
    rewrite elem_of_bullish.
    destruct (fgt m (of_int 0) && fgt s (of_int 0)); [tauto|].
    destruct (flt m (of_int 0)); tauto.
  - destruct (flt m s) eqn:Hlt.
    + right. left. split; [done|]. split; [done|]. cbn [andb].
      rewrite elem_of_bearish.
      destruct (flt m (of_int 0) && flt s (of_int 0)); [tauto|].
      destruct (fgt m (of_int 0)); tauto.
    + right. right. done.
Qed.

Lemma classify_bullish_iff (m s : float) :
  classify m s ∈ bullish_signals <-> fgt m s = true.
Proof.
  pose proof NO_SIGNAL_neutral as [Hn1 Hn2].
  destruct (classify_cases m s) as [(Hg & Hl & Hc)|[(Hg & Hl & Hc)|(Hg & Hl & Hc)]];
    rewrite Hg.
  - tauto.
  - split; [|discriminate]. intros Hb. by apply bearish_not_bullish in Hc.
  - rewrite Hc. split; [done|discriminate].
Qed.

Lemma classify_bearish_iff (m s : float) :
  classify m s ∈ bearish_signals <-> flt m s = true.
Proof.
  pose proof NO_SIGNAL_neutral as [Hn1 Hn2].
  destruct (classify_cases m s) as [(Hg & Hl & Hc)|[(Hg & Hl & Hc)|(Hg & Hl & Hc)]];
    rewrite Hl.
  - split; [|discriminate]. intros Hb. by apply bearish_not_bullish in Hb.
  - tauto.
  - rewrite Hc. split; [done|discriminate].
Qed.

Lemma classify_neutral_iff (m s : float) :
  classify m s = NO_SIGNAL <-> fgt m s = false /\ flt m s = false.
Proof.
  pose proof NO_SIGNAL_neutral as [Hn1 Hn2].
  destruct (classify_cases m s) as [(Hg & Hl & Hc)|[(Hg & Hl & Hc)|(Hg & Hl & Hc)]];
    rewrite Hg, Hl.
  - split; [|intros [? _]; discriminate]. intros E. rewrite E in Hc. done.
  - split; [|intros [_ ?]; discriminate]. intros E. rewrite E in Hc. done.
  - tauto.
Qed.

Lemma classify_nan (m s : float) :
  is_nan m = true \/ is_nan s = true -> classify m s = NO_SIGNAL.
Proof.
  intros Hnan. apply classify_neutral_iff. unfold fgt. fold (flt s m).
  destruct Hnan as [H|H].
  - by rewrite (flt_nan_r s m H), (flt_nan_l m s H).
  - by rewrite (flt_nan_l s m H), (flt_nan_r m s H).
Qed.

(** X1: the label tells on which side of the signal line the MACD line is:
    bullish exactly when it is above, bearish exactly when it is below,
    NO_SIGNAL exactly when it is neither, which is the case when the two
    are equal and whenever one of them is NaN. *)
Theorem classify_side (m s : float) :
  (classify m s ∈ bullish_signals <-> fgt m s = true) /\
  (classify m s ∈ bearish_signals <-> flt m s = true) /\
  (classify m s = NO_SIGNAL <-> fgt m s = false /\ flt m s = false) /\
  (is_nan m = true \/ is_nan s = true -> classify m s = NO_SIGNAL).
Proof.
  split; [apply classify_bullish_iff|]. split; [apply classify_bearish_iff|].
  split; [apply classify_neutral_iff|apply classify_nan].
Qed.

(** *** Missing prices in the indicator engine *)

Lemma fmul_nan_l (x y : float) : is_nan x = true -> is_nan (fmul x y) = true.
Proof. by destruct x. Qed.

Lemma fmul_nan_r (x y : float) : is_nan y = true -> is_nan (fmul x y) = true.
Proof. destruct y; try done. intros _. by destruct x. Qed.

Lemma fadd_nan_l (x y : float) : is_nan x = true -> is_nan (fadd x y) = true.
Proof. by destruct x. Qed.

Lemma fadd_nan_r (x y : float) : is_nan y = true -> is_nan (fadd x y) = true.
Proof. destruct y; try done. intros _. by destruct x. Qed.

Lemma fsub_nan_l (x y : float) : is_nan x = true -> is_nan (fsub x y) = true.
Proof. by destruct x. Qed.

Lemma fsub_nan_r (x y : float) : is_nan y = true -> is_nan (fsub x y) = true.
Proof. destruct y; try done. intros _. by destruct x. Qed.

Lemma ema_step_nan (k x prev : float) :
  is_nan x = true \/ is_nan prev = true -> is_nan (ema_step k x prev) = true.
Proof.
  unfold ema_step. intros [H|H].
  - apply fadd_nan_l. by apply fmul_nan_l.
  - apply fadd_nan_r. by apply fmul_nan_l.
Qed.

(** From a NaN on, every value of the recurrence is NaN. *)
Lemma ema_from_nan_prev (k : float) (rest : list float) : forall prev,
  is_nan prev = true -> Forall (fun y => is_nan y = true) (ema_from k prev rest).
Proof.
  induction rest as [|x rest IH]; intros prev Hp; [constructor|].
  cbn [ema_from]. constructor.
  - apply ema_step_nan. by right.
  - apply IH. apply ema_step_nan. by right.
Qed.

(** The values of the recurrence from the index of a NaN input on. *)
Lemma ema_nan_from_gen (k : float) (rest : list float) : forall o0 x0 i x,
  (is_nan x0 = true -> is_nan o0 = true) ->
  (x0 :: rest) !! i = Some x -> is_nan x = true ->
  Forall (fun y => is_nan y = true) (drop i (o0 :: ema_from k o0 rest)).
Proof.
  induction rest as [|r rest IH]; intros o0 x0 i x H0 Hx Hn.
  - destruct i as [|i]; [|by destruct i].
    injection Hx as ->. cbn. by repeat constructor; auto.
  - destruct i as [|i].
    + injection Hx as ->. cbn [drop]. constructor; [auto|].
      apply ema_from_nan_prev. auto.
    + cbn [drop ema_from]. apply (IH _ r i x); [|exact Hx|exact Hn].
      intros Hr. apply ema_step_nan. by left.
Qed.

Lemma ema_nan_from (k : float) (rest : list float) (d0 : float) (i : nat) (x : float) :
  (d0 :: rest) !! i = Some x -> is_nan x = true ->
  Forall (fun y => is_nan y = true) (drop i (d0 :: ema_from k d0 rest)).
Proof. apply ema_nan_from_gen. done. Qed.

Lemma Forall_drop_lookup {A : Type} (P : A -> Prop) (l : list A) (i j : nat) (y : A) :
  Forall P (drop i l) -> i <= j -> l !! j = Some y -> P y.
Proof.
  intros HF Hij Hy. rewrite Forall_lookup in HF. apply (HF (j - i) y).
  rewrite lookup_drop. by replace (i + (j - i)) with j by lia.
Qed.

(** The recurrence reads its input from left to right. *)
Lemma ema_from_app (k : float) (r1 r2 : list float) : forall prev,
  ema_from k prev (r1 ++ r2) =
  ema_from k prev r1 ++ ema_from k (default prev (last (ema_from k prev r1))) r2.
Proof.
  induction r1 as [|x r1 IH]; intros prev; [reflexivity|].
  cbn [app ema_from]. rewrite IH. f_equal.
  f_equal. destruct (ema_from k (ema_step k x prev) r1) as [|f l] eqn:E; [reflexivity|].
  rewrite last_cons_cons.
  destruct (last (f :: l)) eqn:E2; [reflexivity|].
  apply last_None in E2. discriminate.
Qed.

Lemma ema_prefix (k d0 : float) (r1 r2 : list float) :
  (d0 :: ema_from k d0 r1) `prefix_of` (d0 :: ema_from k d0 (r1 ++ r2)).
Proof. rewrite ema_from_app. apply prefix_cons, prefix_app_r. done. Qed.

Lemma zip_with_prefix {A B C : Type} (f : A -> B -> C) (l1 l1' : list A) (l2 l2' : list B) :
  length l1 = length l2 ->
  l1 `prefix_of` l1' -> l2 `prefix_of` l2' ->
  zip_with f l1 l2 `prefix_of` zip_with f l1' l2'.
Proof.
  intros Hlen [t1 ->] [t2 ->]. exists (zip_with f t1 t2).
  by rewrite zip_with_app.
Qed.

(** *** The value of [calculate_macd] *)

Lemma calculate_macd_value (close_prices : list float) :
  30 <= length close_prices ->
  exists fast slow sig m_last s_last,
    calculate_ema close_prices 12 = Ok fast /\
    calculate_ema close_prices 26 = Ok slow /\
    calculate_ema (zip_with fsub fast slow) 9 = Ok sig /\
    last (zip_with fsub fast slow) = Some m_last /\
    last sig = Some s_last /\
    length fast = length close_prices /\
    length slow = length close_prices /\
    length sig = length close_prices /\
    calculate_macd close_prices =
      Ok (Some {| macd := m_last; signal := s_last;
                  histogram := fsub m_last s_last;
                  signals := zip_with classify (zip_with fsub fast slow) sig |}).
Proof.
  intros Hlen.
  destruct (macd_body_spec close_prices) as
    (fast & slow & sig & m_last & s_last & Hfast & Hslow & Hsig & Hm & Hs & Hbody).
  { intros ->. simpl in Hlen. lia. }
  pose proof (calculate_ema_length _ _ _ Hfast) as Lf.
  pose proof (calculate_ema_length _ _ _ Hslow) as Ls.
  pose proof (calculate_ema_length _ _ _ Hsig) as Lsig.
  rewrite length_zip_with in Lsig.
  exists fast, slow, sig, m_last, s_last.
  do 5 (split; [done|]). do 2 (split; [done|]). split; [lia|].
  unfold calculate_macd, len.
  destruct (Z.ltb_spec (Z.of_nat (length close_prices)) 30); [lia|].
  rewrite Hbody. cbn [mbind result_bind]. unfold macd_return.
  cbn [macd_line signal_line histogram_val signals_list].
  apply last_Some in Hm as [l1 Hm]. apply last_Some in Hs as [l2 Hs].
  rewrite Hm, Hs, !index_last. reflexivity.
Qed.

Lemma calculate_ema_total (data : list float) (period : Z) :
  period <> (-1)%Z ->
  exists k, int_truediv 2 (period + 1) = Ok k /\
    calculate_ema data period =
      Ok (match data with [] => [] | d0 :: rest => d0 :: ema_from k d0 rest end).
Proof.
  intros Hp. destruct (int_truediv_ok 2 (period + 1)) as [k Hk]; [lia|].
  exists k. split; [done|]. destruct data as [|d0 rest]; [done|].
  by apply calculate_ema_cons.
Qed.

Lemma calculate_ema_prefix_of (data data' out out' : list float) (period : Z) :
  period <> (-1)%Z ->
  calculate_ema data period = Ok out -> calculate_ema data' period = Ok out' ->
  data `prefix_of` data' -> out `prefix_of` out'.
Proof.
  intros Hp Ho Ho' [more ->].
  destruct (calculate_ema_total data period Hp) as (k & Hk & E).
  destruct (calculate_ema_total (data ++ more) period Hp) as (k' & Hk' & E').
  assert (k' = k) as -> by congruence.
  rewrite E in Ho. rewrite E' in Ho'. injection Ho as <-. injection Ho' as <-.
  destruct data as [|d0 rest]; [apply prefix_nil|].
  cbn [app]. apply ema_prefix.
Qed.

Lemma calculate_ema_nan_from (data out : list float) (period : Z) (i : nat) (x : float) :
  calculate_ema data period = Ok out ->
  data !! i = Some x -> is_nan x = true ->
  Forall (fun y => is_nan y = true) (drop i out).
Proof.
  intros Ho Hx Hn.
  destruct (Z.eq_dec period (-1)%Z) as [->|Hp].
  { destruct data; [done|discriminate]. }
  destruct (calculate_ema_total data period Hp) as (k & Hk & E).
  rewrite E in Ho. injection Ho as <-.
  destruct data as [|d0 rest]; [done|].
  by apply (ema_nan_from k rest d0 i x).
Qed.

(** *** No look-ahead *)

(** X2: with a period other than -1, [calculate_ema] reads its input from left
    to right: the values computed for a series stay the same when more
    prices are appended to it. *)
Theorem calculate_ema_prefix (data more : list float) (period : Z) :
  period <> (-1)%Z ->
  exists out out',
    calculate_ema data period = Ok out /\
    calculate_ema (data ++ more) period = Ok out' /\
    out `prefix_of` out' /\
    (forall i y, out !! i = Some y -> out' !! i = Some y).
Proof.
  intros Hp.
  destruct (calculate_ema_total data period Hp) as (k & Hk & E).
  destruct (calculate_ema_total (data ++ more) period Hp) as (k' & Hk' & E').
  eexists _, _. split; [exact E|]. split; [exact E'|].
  assert (Hpre : (match data with [] => [] | d0 :: rest => d0 :: ema_from k d0 rest end)
                 `prefix_of`
                 (match data ++ more with [] => [] | d0 :: rest => d0 :: ema_from k' d0 rest end)).
  { eapply calculate_ema_prefix_of; [exact Hp|exact E|exact E'|]. by apply prefix_app_r. }
  split; [exact Hpre|].
  intros i y Hy. by apply (prefix_lookup_Some _ _ _ _ Hy).
Qed.

Lemma calculate_ema_prefix_witness :
  exists out out',
    calculate_ema [of_int 10; of_int 11] 12 = Ok out /\
    calculate_ema ([of_int 10; of_int 11] ++ [of_int 12]) 12 = Ok out' /\
    out `prefix_of` out'.
Proof.
  destruct (calculate_ema_prefix [of_int 10; of_int 11] [of_int 12] 12 ltac:(lia))
    as (out & out' & H1 & H2 & H3 & _).
  exists out, out'. split; [exact H1|]. split; [exact H2|exact H3].
Defined.

(** X3: the labels of [calculate_macd] are not repainted: on a series of at
    least 30 prices, appending more prices leaves every label already
    computed as it was. *)
Theorem calculate_macd_no_repaint (close_prices more : list float) :
  30 <= length close_prices ->
  exists d d',
    calculate_macd close_prices = Ok (Some d) /\
    calculate_macd (close_prices ++ more) = Ok (Some d') /\
    signals d `prefix_of` signals d' /\
    (forall i l, signals d !! i = Some l -> signals d' !! i = Some l).
Proof.
  intros Hlen.
  destruct (calculate_macd_value close_prices Hlen)
    as (fast & slow & sig & m & s & Hf & Hs & Hsig & _ & _ & Lf & Ls & Lsig & ->).
  destruct (calculate_macd_value (close_prices ++ more))
    as (fast' & slow' & sig' & m' & s' & Hf' & Hs' & Hsig' & _ & _ & Lf' & Ls' & Lsig' & ->).
  { rewrite length_app. lia. }
  eexists _, _. split; [reflexivity|]. split; [reflexivity|].
  cbn [signals].
  assert (Pf : fast `prefix_of` fast').
  { eapply (calculate_ema_prefix_of close_prices (close_prices ++ more)); eauto.
    - lia.
    - by apply prefix_app_r. }
  assert (Ps : slow `prefix_of` slow').
  { eapply (calculate_ema_prefix_of close_prices (close_prices ++ more)); eauto.
    - lia.
    - by apply prefix_app_r. }
  assert (Pl : zip_with fsub fast slow `prefix_of` zip_with fsub fast' slow').
  { apply zip_with_prefix; [lia|done|done]. }
  assert (Psig : sig `prefix_of` sig').
  { eapply (calculate_ema_prefix_of _ _ _ _ 9); eauto; lia. }
  assert (Pall : zip_with classify (zip_with fsub fast slow) sig `prefix_of`
                 zip_with classify (zip_with fsub fast' slow') sig').
  { apply zip_with_prefix; [rewrite length_zip_with; lia|done|done]. }
  split; [exact Pall|].
  intros i l Hl. by apply (prefix_lookup_Some _ _ _ _ Hl).
Qed.

Lemma calculate_macd_no_repaint_witness :
  exists d d',
    calculate_macd (replicate 30 (of_int 100)) = Ok (Some d) /\
    calculate_macd (replicate 30 (of_int 100) ++ [of_int 101]) = Ok (Some d') /\
    signals d `prefix_of` signals d'.
Proof.
  destruct (calculate_macd_no_repaint (replicate 30 (of_int 100)) [of_int 101])
    as (d & d' & H1 & H2 & H3 & _).
  - rewrite length_replicate. lia.
  - exists d, d'. split; [exact H1|]. split; [exact H2|exact H3].
Defined.

(** ** Missing prices *)

(** X4: a NaN price makes every value of [calculate_ema] from its index on
    NaN. *)
Theorem calculate_ema_nan (data : list float) (period : Z) (i : nat) (x : float) :
  period <> (-1)%Z -> data !! i = Some x -> is_nan x = true ->
  exists out,
    calculate_ema data period = Ok out /\
    forall j, i <= j < length data ->
      exists y, out !! j = Some y /\ is_nan y = true.
Proof.
  intros Hp Hx Hn.
  destruct (calculate_ema_total data period Hp) as (k & _ & E).
  eexists. split; [exact E|].
  pose proof (calculate_ema_nan_from _ _ _ _ _ E Hx Hn) as HF.
  pose proof (calculate_ema_length _ _ _ E) as HL.
  intros j [Hij Hj].
  destruct (lookup_lt_is_Some_2
              (match data with [] => [] | d0 :: rest => d0 :: ema_from k d0 rest end) j)
    as [y Hy]; [lia|].
  exists y. split; [done|]. by apply (Forall_drop_lookup _ _ _ _ _ HF Hij Hy).
Qed.

Lemma calculate_ema_nan_witness :
  exists out,
    calculate_ema [of_int 10; nan; of_int 12] 12 = Ok out /\
    exists y, out !! 2 = Some y /\ is_nan y = true.
Proof.
  destruct (calculate_ema_nan [of_int 10; nan; of_int 12] 12 1 nan
              ltac:(lia) eq_refl eq_refl) as (out & Ho & Hall).
  exists out. split; [exact Ho|]. apply Hall. simpl. lia.
Defined.

Lemma zip_with_nan_from (f : float -> float -> float) (l1 l2 : list float) (i : nat) :
  (forall a b, is_nan a = true -> is_nan (f a b) = true) ->
  Forall (fun y => is_nan y = true) (drop i l1) ->
  Forall (fun y => is_nan y = true) (drop i (zip_with f l1 l2)).
Proof.
  intros Hf HF. rewrite Forall_lookup in HF. apply Forall_lookup.
  intros j y Hy. rewrite lookup_drop in Hy.
  apply lookup_zip_with_Some in Hy as (a & b & -> & Ha & Hb).
  apply Hf. apply (HF j). by rewrite lookup_drop.
Qed.

Lemma last_lookup_nan (l : list float) (i : nat) (y : float) :
  Forall (fun y => is_nan y = true) (drop i l) -> i < length l ->
  last l = Some y -> is_nan y = true.
Proof.
  intros HF Hi Hl. rewrite last_lookup in Hl.
  apply (Forall_drop_lookup _ _ _ _ _ HF) in Hl; [done|lia].
Qed.

Lemma detect_last_neutral (signals : list string) :
  2 <= length signals -> last signals = Some NO_SIGNAL -> detect signals = Ok None.
Proof.
  intros Hlen Hl.
  destruct (exists_last (l := signals)) as (l1 & curr & ->).
  { intros ->. simpl in Hlen. lia. }
  destruct (exists_last (l := l1)) as (pre & prev & ->).
  { intros ->. simpl in Hlen. lia. }
  rewrite last_snoc in Hl. injection Hl as ->.
  rewrite <- app_assoc. cbn [app]. rewrite detect_snoc2.
  destruct (is_crossover prev NO_SIGNAL) eqn:E; [|done].
  apply is_crossover_iff in E as [_ E]. by apply NO_SIGNAL_neutral in E.
Qed.

Lemma calculate_macd_nan_value (close_prices : list float) (i : nat) (x : float) :
  30 <= length close_prices -> close_prices !! i = Some x -> is_nan x = true ->
  exists d,
    calculate_macd close_prices = Ok (Some d) /\
    is_nan (macd d) = true /\ is_nan (signal d) = true /\
    is_nan (histogram d) = true /\
    length (signals d) = length close_prices /\
    (forall j l, i <= j -> signals d !! j = Some l -> l = NO_SIGNAL) /\
    detect (signals d) = Ok None.
Proof.
  intros Hlen Hx Hn.
  destruct (calculate_macd_value close_prices Hlen)
    as (fast & slow & sig & m & s & Hf & Hs & Hsig & Hm & Hsl & Lf & Ls & Lsig & ->).
  pose proof (lookup_lt_Some _ _ _ Hx) as Hi.
  pose proof (calculate_ema_nan_from _ _ _ _ _ Hf Hx Hn) as Ff.
  assert (Fl : Forall (fun y => is_nan y = true) (drop i (zip_with fsub fast slow))).
  { apply zip_with_nan_from; [|done]. intros a b. apply fsub_nan_l. }
  assert (Ll : length (zip_with fsub fast slow) = length close_prices)
    by (rewrite length_zip_with; lia).
  destruct (lookup_lt_is_Some_2 (zip_with fsub fast slow) i) as [mi Hmi]; [lia|].
  assert (Hmin : is_nan mi = true).
  { apply (Forall_drop_lookup _ _ i i mi Fl); [lia|done]. }
  pose proof (calculate_ema_nan_from _ _ _ _ _ Hsig Hmi Hmin) as Fs.
  assert (Nm : is_nan m = true) by (apply (last_lookup_nan _ i m Fl); [lia|done]).
  assert (Ns : is_nan s = true) by (apply (last_lookup_nan _ i s Fs); [lia|done]).
  assert (Hlab : forall j l, i <= j ->
            zip_with classify (zip_with fsub fast slow) sig !! j = Some l -> l = NO_SIGNAL).
  { intros j l Hij Hl. apply lookup_zip_with_Some in Hl as (a & b & -> & Ha & Hb).
    apply classify_nan. left. by apply (Forall_drop_lookup _ _ i j a Fl). }
  assert (Lsigs : length (zip_with classify (zip_with fsub fast slow) sig)
                  = length close_prices).
  { rewrite !length_zip_with. lia. }
  eexists. split; [reflexivity|]. cbn [macd signal histogram signals].
  do 2 (split; [done|]). split; [by apply fsub_nan_l|]. split; [done|].
  split; [exact Hlab|].
  apply detect_last_neutral; [lia|].
  rewrite last_lookup.
  destruct (lookup_lt_is_Some_2 (zip_with classify (zip_with fsub fast slow) sig)
              (pred (length (zip_with classify (zip_with fsub fast slow) sig))))
    as [l Hl]; [lia|].
  rewrite Hl. f_equal. eapply Hlab; [|exact Hl]. lia.
Qed.

(** X5: a NaN among at least 30 close prices makes the MACD value, the signal
    value and the histogram NaN and every label from its index on
    NO_SIGNAL, the last one included: no crossover is detected. *)
Theorem calculate_macd_nan (close_prices : list float) (i : nat) (x : float) :
  30 <= length close_prices -> close_prices !! i = Some x -> is_nan x = true ->
  exists d,
    calculate_macd close_prices = Ok (Some d) /\
    is_nan (macd d) = true /\ is_nan (signal d) = true /\
    is_nan (histogram d) = true /\
    (forall j l, i <= j -> signals d !! j = Some l -> l = NO_SIGNAL) /\
    last (signals d) = Some NO_SIGNAL /\
    detect (signals d) = Ok None.
Proof.
  intros Hlen Hx Hn.
  destruct (calculate_macd_nan_value close_prices i x Hlen Hx Hn)
    as (d & Hd & H1 & H2 & H3 & HL & Hlab & Hdet).
  pose proof (lookup_lt_Some _ _ _ Hx) as Hi.
  exists d. do 4 (split; [done|]). split; [exact Hlab|]. split; [|exact Hdet].
  rewrite last_lookup.
  destruct (lookup_lt_is_Some_2 (signals d) (pred (length (signals d)))) as [l Hl]; [lia|].
  rewrite Hl. f_equal. eapply Hlab; [|exact Hl]. lia.
Qed.

Lemma calculate_macd_nan_witness :
  exists d,
    calculate_macd (nan :: replicate 29 (of_int 100)) = Ok (Some d) /\
    detect (signals d) = Ok None.
Proof.
  destruct (calculate_macd_nan (nan :: replicate 29 (of_int 100)) 0 nan)
    as (d & Hd & _ & _ & _ & _ & _ & Hdet).
  - cbn [length]. rewrite length_replicate. lia.
  - reflexivity.
  - reflexivity.
  - exists d. split; [exact Hd|exact Hdet].
Defined.

(** X6: on the daily timeframe the provider's frame is used as it comes: when a
    close price in it is NaN, the instrument gives no event (and raises
    nothing). *)
Theorem scan_symbol_nan_close (w : world) (tf : string) (idx : nat) (sym : string)
    (hist : list bar) (r : bar) :
  tf <> "4h" -> history w sym "3mo" "1d" = Ok hist ->
  r ∈ hist -> is_nan (Close r) = true ->
  scan_symbol w tf idx sym = Ok None.
Proof.
  intros Htf Hh Hr Hn. unfold scan_symbol.
  destruct (String.eqb_spec tf "4h") as [|_]; [done|].
  rewrite Hh. cbn [mbind result_bind].
  destruct hist as [|r0 hist']; [done|].
  set (hist := r0 :: hist') in *.
  destruct (Z.ltb_spec (len hist) 30) as [|Hlen]; [done|].
  apply list_elem_of_lookup in Hr as [i Hi].
  destruct (calculate_macd_nan_value (Close <$> hist) i (Close r))
    as (d & Hd & _ & _ & _ & _ & _ & Hdet).
  - rewrite length_fmap. unfold len in Hlen. lia.
  - by rewrite list_lookup_fmap, Hi.
  - done.
  - rewrite Hd. cbn [mbind result_bind]. rewrite Hdet. reflexivity.
Qed.

(** ** What a crossover event means *)

Lemma lookup_last_two {A : Type} (l : list A) :
  2 <= length l ->
  exists pre a b, l = pre ++ [a; b] /\ length pre = length l - 2.
Proof.
  intros Hlen.
  destruct (exists_last (l := l)) as (l1 & b & ->).
  { intros ->. simpl in Hlen. lia. }
  destruct (exists_last (l := l1)) as (pre & a & ->).
  { intros ->. simpl in Hlen. lia. }
  exists pre, a, b. rewrite <- app_assoc. split; [done|].
  rewrite !length_app. simpl. lia.
Qed.

Lemma detect_lines (line sig : list float) :
  length line = length sig -> 2 <= length line ->
  exists m1 s1 m2 s2,
    line !! (length line - 2) = Some m1 /\ sig !! (length line - 2) = Some s1 /\
    line !! (length line - 1) = Some m2 /\ sig !! (length line - 1) = Some s2 /\
    detect (zip_with classify line sig) =
      if flt m1 s1 && fgt m2 s2
      then Ok (Some (classify m1 s1, classify m2 s2)) else Ok None.
Proof.
  intros Hls Hlen.
  destruct (lookup_last_two line Hlen) as (pl & m1 & m2 & -> & Hpl).
  destruct (lookup_last_two sig) as (ps & s1 & s2 & -> & Hps); [lia|].
  exists m1, s1, m2, s2.
  rewrite !length_app in *. cbn [length] in *.
  replace (length pl + 2 - 2) with (length pl) by lia.
  replace (length pl + 2 - 1) with (S (length pl)) by lia.
  split. { by rewrite list_lookup_middle. }
  split. { rewrite list_lookup_middle by lia. done. }
  split. { rewrite lookup_app_r by lia. by replace (S (length pl) - length pl) with 1 by lia. }
  split. { rewrite lookup_app_r by lia. by replace (S (length pl) - length ps) with 1 by lia. }
  rewrite zip_with_app by lia. cbn [zip_with]. rewrite detect_snoc2.
  pose proof (is_crossover_iff (classify m1 s1) (classify m2 s2)) as Hx.
  rewrite classify_bearish_iff, classify_bullish_iff in Hx.
  destruct (is_crossover _ _).
  - destruct Hx as [Hx _]. destruct (Hx eq_refl) as [-> ->]. reflexivity.
  - destruct (flt m1 s1); [|done]. destruct (fgt m2 s2); [|done].
    destruct Hx as [_ Hx]. by discriminate Hx.
Qed.

(** X7: on at least 30 prices the detector reports a crossover exactly when the
    MACD line is below the signal line at the bar before last and above it
    at the last bar. *)
Theorem detect_iff_lines_cross (close_prices : list float) :
  30 <= length close_prices ->
  exists (fr : macd_locals) (d : macd_data) (m1 s1 m2 s2 : float),
    macd_body close_prices = Ok fr /\
    calculate_macd close_prices = Ok (Some d) /\
    macd_line fr !! (length close_prices - 2) = Some m1 /\
    signal_line fr !! (length close_prices - 2) = Some s1 /\
    macd_line fr !! (length close_prices - 1) = Some m2 /\
    signal_line fr !! (length close_prices - 1) = Some s2 /\
    macd d = m2 /\ signal d = s2 /\
    (detect (signals d) = Ok (Some (classify m1 s1, classify m2 s2)) <->
       flt m1 s1 = true /\ fgt m2 s2 = true) /\
    (detect (signals d) = Ok None <-> ~ (flt m1 s1 = true /\ fgt m2 s2 = true)).
Proof.
  intros Hlen.
  destruct (macd_body_spec close_prices) as
    (fast & slow & sig & m_last & s_last & Hfast & Hslow & Hsig & Hm & Hs & Hbody).
  { intros ->. simpl in Hlen. lia. }
  pose proof (calculate_ema_length _ _ _ Hfast) as Lf.
  pose proof (calculate_ema_length _ _ _ Hslow) as Ls.
  pose proof (calculate_ema_length _ _ _ Hsig) as Lsig.
  set (line := zip_with fsub fast slow) in *.
  assert (Ll : length line = length close_prices).
  { subst line. rewrite length_zip_with. lia. }
  destruct (detect_lines line sig) as (m1 & s1 & m2 & s2 & H1 & H2 & H3 & H4 & Hdet);
    [lia|lia|].
  rewrite Ll in H1, H2, H3, H4.
  assert (m_last = m2) as ->.
  { rewrite last_lookup in Hm. rewrite Ll in Hm.
    replace (pred (length close_prices)) with (length close_prices - 1) in Hm by lia.
    congruence. }
  assert (s_last = s2) as ->.
  { rewrite last_lookup in Hs. rewrite Lsig, Ll in Hs.
    replace (pred (length close_prices)) with (length close_prices - 1) in Hs by lia.
    congruence. }
  eexists _, {| macd := m2; signal := s2; histogram := fsub m2 s2;
                signals := zip_with classify line sig |}, m1, s1, m2, s2.
  split; [exact Hbody|].
  cbn [macd_line signal_line signals macd signal].
  split.
  { unfold calculate_macd, len.
    destruct (Z.ltb_spec (Z.of_nat (length close_prices)) 30); [lia|].
    rewrite Hbody. cbn [mbind result_bind]. unfold macd_return.
    cbn [macd_line signal_line histogram_val signals_list].
    apply last_Some in Hm as [l1 Hm']. apply last_Some in Hs as [l2 Hs'].
    rewrite Hm', Hs', !index_last. reflexivity. }
  do 6 (split; [done|]).
  rewrite Hdet. destruct (flt m1 s1), (fgt m2 s2); cbn [andb].
  - split; [tauto|]. split; [discriminate|tauto].
  - split; [split; [discriminate|intros [_ ?]; discriminate]|].
    split; [intros _ [_ ?]; discriminate|done].
  - split; [split; [discriminate|intros [? _]; discriminate]|].
    split; [intros _ [? _]; discriminate|done].
  - split; [split; [discriminate|intros [? _]; discriminate]|].
    split; [intros _ [? _]; discriminate|done].
Qed.

Lemma detect_iff_lines_cross_witness :
  exists d, calculate_macd (replicate 30 (of_int 100)) = Ok (Some d).
Proof.
  destruct (detect_iff_lines_cross (replicate 30 (of_int 100)))
    as (fr & d & m1 & s1 & m2 & s2 & _ & Hd & _).
  - rewrite length_replicate. lia.
  - exists d. exact Hd.
Defined.

Lemma scan_symbol_nan_close_witness :
  scan_symbol (sample_market sample_daily_nan (sample_time 10 0)) "1d" 46 "TCS.NS"
  = Ok None.
Proof.
  apply (scan_symbol_nan_close _ "1d" 46 "TCS.NS" sample_daily_nan
           {| time := 0; Open := nan; High := nan; Low := nan; Close := nan;
              Volume := 0 |}).
  - discriminate.
  - reflexivity.
  - apply list_elem_of_here.
  - reflexivity.
Defined.

(** ** Events of a scan *)

Lemma flt_not_nan (x y : float) :
  flt x y = true -> is_nan x = false /\ is_nan y = false.
Proof.
  intros H. split.
  - destruct (is_nan x) eqn:E; [|done]. by rewrite (flt_nan_l x y E) in H.
  - destruct (is_nan y) eqn:E; [|done]. by rewrite (flt_nan_r x y E) in H.
Qed.

Lemma detect_Some_lines (line sig : list float) (p c : string) :
  length line = length sig -> 2 <= length line ->
  detect (zip_with classify line sig) = Ok (Some (p, c)) ->
  exists m2 s2, last line = Some m2 /\ last sig = Some s2 /\ fgt m2 s2 = true.
Proof.
  intros Hls Hlen Hdet.
  destruct (detect_lines line sig Hls Hlen)
    as (m1 & s1 & m2 & s2 & _ & _ & H3 & H4 & E).
  rewrite E in Hdet. exists m2, s2.
  rewrite !last_lookup. rewrite <- Hls.
  replace (pred (length line)) with (length line - 1) by lia.
  do 2 (split; [done|]).
  destruct (flt m1 s1); [|discriminate]. by destruct (fgt m2 s2).
Qed.

Lemma scan_symbol_data (w : world) (tf : string) (idx : nat) (sym : string)
    (c : crossover) :
  scan_symbol w tf idx sym = Ok (Some c) ->
  exists (hist : list bar) (d : macd_data),
    ((tf = "4h" /\ exists h, history w sym "60d" "1h" = Ok h /\ h <> [] /\
                             hist = dropna (resample_4h_agg h)) \/
     (tf <> "4h" /\ history w sym "3mo" "1d" = Ok hist)) /\
    30 <= length hist /\
    calculate_macd (Close <$> hist) = Ok (Some d) /\
    detect (signals d) = Ok (Some (previous_type c, current_signal c)) /\
    symbol c = strip_NS sym /\ type_ c = "bullish" /\
    timestamp c = now_at w tf idx /\ timeframe c = tf /\
    macd_value c = macd d /\ signal_value c = signal d /\
    last (Close <$> hist) = Some (price c).
Proof.
  unfold scan_symbol. intros H.
  case_bind; [|discriminate].
  rename a into hist. rename E into Hh.
  destruct hist as [|r hist'] eqn:Eh; [discriminate|]. rewrite <- Eh in *.
  destruct (Z.ltb_spec (len hist) 30) as [|Hlen]; [discriminate|].
  case_bind; [|discriminate].
  destruct a as [d|]; [|discriminate].
  case_bind; [|discriminate].
  destruct a as [[prev cur]|]; [|discriminate].
  case_bind; [|discriminate].
  injection H as <-. cbn.
  exists hist, d. split.
  { destruct (String.eqb_spec tf "4h") as [->|Hne].
    - left. split; [done|].
      destruct (history w sym "60d" "1h") as [h|] eqn:Hp; [|discriminate].
      cbn [mbind result_bind] in Hh. injection Hh as Hh.
      exists h. split; [done|]. destruct h; [by subst|]. by split.
    - right. by split. }
  split. { unfold len in Hlen. lia. }
  do 2 (split; [done|]). do 6 (split; [reflexivity|]).
  destruct (index_neg1 (Close <$> hist)) as (x & Hx & Hi).
  { rewrite Eh. done. }
  rewrite Hx. congruence.
Qed.

Lemma calculate_macd_signals (prices : list float) (d : macd_data) :
  calculate_macd prices = Ok (Some d) ->
  exists line sig,
    signals d = zip_with classify line sig /\
    length line = length prices /\ length sig = length prices /\
    30 <= length prices /\
    last line = Some (macd d) /\ last sig = Some (signal d).
Proof.
  intros Hd.
  destruct (Nat.lt_ge_cases (length prices) 30) as [Hlt|Hge].
  { unfold calculate_macd, len in Hd.
    destruct (Z.ltb_spec (Z.of_nat (length prices)) 30); [discriminate|lia]. }
  destruct (calculate_macd_value prices Hge)
    as (fast & slow & sig & m & s & Hf & Hs & Hsig & Hm & Hsl & Lf & Ls & Lsig & E).
  rewrite E in Hd. injection Hd as <-. cbn [signals macd signal].
  exists (zip_with fsub fast slow), sig.
  split; [done|]. split; [rewrite length_zip_with; lia|]. done.
Qed.

(** X8: an event of an instrument is built from a frame of at least 30 rows (the
    daily frame, or the aggregated hourly frame on the 4-hour timeframe): its
    labels are the last two labels of that frame, its price is the last
    close, its MACD and signal values are the last values of the two lines,
    with the MACD value above the signal value, and none of the three is
    NaN. *)
Theorem scan_symbol_event_data (w : world) (tf : string) (idx : nat) (sym : string)
    (c : crossover) :
  scan_symbol w tf idx sym = Ok (Some c) ->
  exists (hist : list bar) (d : macd_data),
    ((tf = "4h" /\ exists h, history w sym "60d" "1h" = Ok h /\ h <> [] /\
                             hist = dropna (resample_4h_agg h)) \/
     (tf <> "4h" /\ history w sym "3mo" "1d" = Ok hist)) /\
    30 <= length hist /\
    calculate_macd (Close <$> hist) = Ok (Some d) /\
    detect (signals d) = Ok (Some (previous_type c, current_signal c)) /\
    symbol c = strip_NS sym /\ type_ c = "bullish" /\
    timestamp c = now_at w tf idx /\ timeframe c = tf /\
    macd_value c = macd d /\ signal_value c = signal d /\
    last (Close <$> hist) = Some (price c) /\
    fgt (macd_value c) (signal_value c) = true /\
    is_nan (macd_value c) = false /\ is_nan (signal_value c) = false /\
    is_nan (price c) = false.
Proof.
  intros H.
  destruct (scan_symbol_data w tf idx sym c H)
    as (hist & d & Hsrc & Hlen & Hd & Hdet & H1 & H2 & H3 & H4 & H5 & H6 & H7).
  exists hist, d. do 11 (split; [done|]).
  destruct (calculate_macd_signals _ _ Hd) as (line & sig & Es & Ll & Lsig & _ & Hm & Hs).
  rewrite Es in Hdet.
  rewrite length_fmap in Ll, Lsig.
  destruct (detect_Some_lines line sig (previous_type c) (current_signal c))
    as (m2 & s2 & Hm2 & Hs2 & Hgt); [lia|lia|exact Hdet|].
  assert (m2 = macd d) as -> by congruence.
  assert (s2 = signal d) as -> by congruence.
  rewrite H5, H6. split; [done|].
  apply flt_not_nan in Hgt as [Hns Hnm]. do 2 (split; [done|]).
  destruct (is_nan (price c)) eqn:Hn; [|done].
  rewrite last_lookup in H7.
  destruct (calculate_macd_nan_value (Close <$> hist)
              (pred (length (Close <$> hist))) (price c))
    as (d' & Hd' & _ & _ & _ & _ & _ & Hdet'); [|exact H7|exact Hn|].
  { rewrite length_fmap. lia. }
  assert (d' = d) as -> by congruence.
  rewrite Es in Hdet'. congruence.
Qed.

Lemma scan_symbol_event_data_witness :
  exists c,
    scan_symbol (sample_market sample_daily (sample_time 10 0)) "1d" 46 "TCS.NS"
      = Ok (Some c) /\
    symbol c = "TCS" /\ fgt (macd_value c) (signal_value c) = true.
Proof.
  assert (H : exists c,
    scan_symbol (sample_market sample_daily (sample_time 10 0)) "1d" 46 "TCS.NS"
      = Ok (Some c)).
  { eexists. vm_compute. reflexivity. }
  destruct H as [c Hc]. exists c. split; [exact Hc|].
  destruct (scan_symbol_event_data _ _ _ _ _ Hc)
    as (hist & d & _ & _ & _ & _ & Hs & _ & _ & _ & _ & _ & _ & Hgt & _).
  split; [exact Hs|exact Hgt].
Defined.

(** ** The scan loop *)

(** The loop of [scan_crossovers] appends, instrument after instrument, the
    event of the instrument when its body produces one. *)
Lemma scan_loop_concat (w : world) (tf : string) (l : list (nat * string)) :
  forall acc : list crossover,
    fold_left
      (fun crossovers '(idx, sym) =>
         match scan_symbol w tf idx sym with
         | Ok (Some c) => crossovers ++ [c]
         | Ok None => crossovers
         | Raise _ => crossovers
         end) l acc
    = acc ++ mjoin ((fun '(idx, sym) =>
                       match scan_symbol w tf idx sym with
                       | Ok (Some c) => [c]
                       | _ => []
                       end) <$> l).
Proof.
  induction l as [|[idx sym] l IH]; intros acc.
  - cbn. by rewrite app_nil_r.
  - cbn [fold_left fmap list_fmap mjoin list_join]. rewrite IH.
    destruct (scan_symbol w tf idx sym) as [[c|]|e].
    + by rewrite <- app_assoc.
    + reflexivity.
    + reflexivity.
Qed.

Lemma elem_of_indexed (l : list string) (idx : nat) (sym : string) :
  (idx, sym) ∈ zip (seq 0 (length l)) l <-> l !! idx = Some sym.
Proof.
  rewrite list_elem_of_lookup. split.
  - intros [i Hi]. apply lookup_zip_with_Some in Hi as (x & y & [= <- <-] & Hx & Hy).
    apply lookup_seq in Hx as [-> _]. done.
  - intros H. exists idx. apply lookup_zip_with_Some. exists idx, sym.
    split; [done|]. split; [|done]. apply lookup_seq. split; [done|].
    by apply lookup_lt_Some in H.
Qed.

Lemma scan_crossovers_elem (w : world) (tf : string) (c : crossover) :
  c ∈ scan_crossovers w tf <->
  exists idx sym, STOCK_SYMBOLS !! idx = Some sym /\
                  scan_symbol w tf idx sym = Ok (Some c).
Proof.
  unfold scan_crossovers. rewrite scan_loop_concat. cbn [app].
  rewrite list_elem_of_join. split.
  - intros (evs & Hc & Hevs). apply list_elem_of_fmap in Hevs as ([idx sym] & -> & Hin).
    apply elem_of_indexed in Hin. exists idx, sym. split; [done|].
    destruct (scan_symbol w tf idx sym) as [[c'|]|e]; try by apply elem_of_nil in Hc.
    apply list_elem_of_singleton in Hc as ->. done.
  - intros (idx & sym & Hl & Hs). exists [c]. split; [apply list_elem_of_here|].
    apply list_elem_of_fmap. exists (idx, sym). rewrite Hs. split; [done|].
    by apply elem_of_indexed.
Qed.

Lemma scan_loop_sublist (w : world) (tf : string) (l : list (nat * string)) :
  symbol <$> mjoin ((fun '(idx, sym) =>
                       match scan_symbol w tf idx sym with
                       | Ok (Some c) => [c]
                       | _ => []
                       end) <$> l)
  `sublist_of` (strip_NS ∘ snd) <$> l.
Proof.
  induction l as [|[idx sym] l IH]; [done|].
  cbn [fmap list_fmap mjoin list_join].
  destruct (scan_symbol w tf idx sym) as [[c|]|e] eqn:E.
  - cbn [app fmap list_fmap]. apply scan_symbol_event in E as [-> _].
    by apply sublist_skip.
  - by apply sublist_cons.
  - by apply sublist_cons.
Qed.

Lemma snd_indexed (l : list string) : snd <$> zip (seq 0 (length l)) l = l.
Proof. apply snd_zip. by rewrite length_seq. Qed.

Lemma scan_crossovers_sublist (w : world) (tf : string) :
  symbol <$> scan_crossovers w tf `sublist_of` strip_NS <$> STOCK_SYMBOLS.
Proof.
  unfold scan_crossovers. rewrite scan_loop_concat. cbn [app].
  etrans; [apply scan_loop_sublist|].
  rewrite list_fmap_compose, snd_indexed. done.
Qed.

Lemma stripped_symbols_NoDup : NoDup (strip_NS <$> STOCK_SYMBOLS).
Proof. apply (bool_decide_unpack _). vm_compute. reflexivity. Qed.

(** X9: [scan_crossovers] never raises: it reports exactly the events that the
    bodies of the instruments produce, whatever the other instruments did,
    in the order of [STOCK_SYMBOLS] and at most one per instrument, so that
    no symbol occurs twice; when the provider fails for every instrument the
    scan reports nothing. *)
Theorem scan_crossovers_events (w : world) (tf : string) :
  (forall c, c ∈ scan_crossovers w tf <->
     exists idx sym, STOCK_SYMBOLS !! idx = Some sym /\
                     scan_symbol w tf idx sym = Ok (Some c)) /\
  symbol <$> scan_crossovers w tf `sublist_of` strip_NS <$> STOCK_SYMBOLS /\
  NoDup (symbol <$> scan_crossovers w tf) /\
  length (scan_crossovers w tf) <= length STOCK_SYMBOLS /\
  ((forall sym period interval, exists e, history w sym period interval = Raise e) ->
   scan_crossovers w tf = []).
Proof.
  split; [apply scan_crossovers_elem|].
  pose proof (scan_crossovers_sublist w tf) as Hsub.
  split; [exact Hsub|]. split.
  { eapply sublist_NoDup; [apply stripped_symbols_NoDup|exact Hsub]. }
  split.
  { apply sublist_length in Hsub. by rewrite !length_fmap in Hsub. }
  intros Hfail.
  destruct (scan_crossovers w tf) as [|c l] eqn:E; [done|].
  assert (Hc : c ∈ scan_crossovers w tf) by (rewrite E; apply list_elem_of_here).
  apply scan_crossovers_elem in Hc as (idx & sym & _ & Hs).
  apply scan_symbol_data in Hs as (hist & d & Hsrc & _).
  destruct Hsrc as [(_ & h & Hh & _)|(_ & Hh)].
  - destruct (Hfail sym "60d" "1h") as [e He]. congruence.
  - destruct (Hfail sym "3mo" "1d") as [e He]. congruence.
Qed.

(** ** Scans that notify nobody *)

Lemma notify_silent (w : world) (st : session_state) (new4 new1 : list crossover) :
  new4 ++ new1 = [] \/ notification_enabled st = false ->
  notify w st new4 new1 = (st, []).
Proof.
  intros H. unfold notify. destruct H as [-> | ->]; [done|].
  by destruct (new4 ++ new1).
Qed.

(** X10: a scan that finds no new event, or runs with notifications disabled,
    does nothing to the outside: no balloons, no message, no Telegram call,
    and it leaves the time of the last send and the notification switch as
    they were. *)
Theorem after_scan_silent (w : world) (st : session_state)
    (crossovers_4h crossovers_1d : list crossover) :
  new_alerts (previous_alerts st) crossovers_4h ++
    new_alerts (previous_alerts st) crossovers_1d = [] \/
  notification_enabled st = false ->
  (after_scan w st crossovers_4h crossovers_1d).1.2 = [] /\
  last_telegram_sent_time (after_scan w st crossovers_4h crossovers_1d).1.1
    = last_telegram_sent_time st /\
  notification_enabled (after_scan w st crossovers_4h crossovers_1d).1.1
    = notification_enabled st.
Proof.
  intros H.
  destruct (after_scan_notify w st crossovers_4h crossovers_1d) as (He & Hl & Hn).
  cbv zeta in Hl, Hn. rewrite (notify_silent w st _ _ H) in He, Hl, Hn. done.
Qed.

Lemma after_scan_silent_witness :
  (after_scan (sample_world (sample_time 10 45) (Some true))
     (sample_state ∅ (sample_time 10 0)) [] []).1.2 = [].
Proof.
  apply (after_scan_silent (sample_world (sample_time 10 45) (Some true))
           (sample_state ∅ (sample_time 10 0)) [] []).
  left. reflexivity.
Defined.

Lemma notify_state (w : world) (st : session_state) (new4 new1 : list crossover) :
  notification_enabled (notify w st new4 new1).1 = notification_enabled st /\
  previous_alerts (notify w st new4 new1).1 = previous_alerts st /\
  (last_telegram_sent_time (notify w st new4 new1).1 = last_telegram_sent_time st \/
   (last_telegram_sent_time (notify w st new4 new1).1 = now_notify w /\
    SuccessSent (length (new4 ++ new1)) ∈ (notify w st new4 new1).2)).
Proof.
  unfold notify. destruct (new4 ++ new1) as [|c l]; [by auto|].
  destruct (notification_enabled st) eqn:En; [|by auto].
  destruct (fge _ _); [|by auto].
  destruct (notifier_result w) as [[|]|]; cbn; try by auto.
  split; [done|]. split; [done|]. right. split; [done|].
  apply list_elem_of_In. simpl. tauto.
Qed.

(** X11: whatever the notification step does, a scan stores its two event lists
    and the time it ended, returns the two list lengths with the number of
    new events, which is at most their sum, and never touches the
    notification switch; the time of the last send changes only to the
    reading taken before the cooldown test, and only together with the
    success message. *)
Theorem after_scan_stores (w : world) (st : session_state)
    (crossovers_4h crossovers_1d : list crossover) :
  let r := after_scan w st crossovers_4h crossovers_1d in
  crossover_data_4h r.1.1 = crossovers_4h /\
  crossover_data_1d r.1.1 = crossovers_1d /\
  last_scan_time r.1.1 = now_done w /\
  notification_enabled r.1.1 = notification_enabled st /\
  r.2.1.1 = length crossovers_4h /\ r.2.1.2 = length crossovers_1d /\
  r.2.2 <= length crossovers_4h + length crossovers_1d /\
  (last_telegram_sent_time r.1.1 = last_telegram_sent_time st \/
   (last_telegram_sent_time r.1.1 = now_notify w /\ SuccessSent r.2.2 ∈ r.1.2)).
Proof.
  intros r.
  pose proof (notify_state w st (new_alerts (previous_alerts st) crossovers_4h)
                (new_alerts (previous_alerts st) crossovers_1d)) as (Hn & _ & Hl).
  subst r. unfold after_scan.
  destruct (notify w st _ _) as [st1 effects]. cbn in *.
  do 3 (split; [reflexivity|]). split; [done|]. do 2 (split; [reflexivity|]).
  split; [|done].
  rewrite length_app. unfold new_alerts.
  pose proof (length_filter (fun c => alert_key c ∉ previous_alerts st) crossovers_4h).
  pose proof (length_filter (fun c => alert_key c ∉ previous_alerts st) crossovers_1d).
  lia.
Qed.

(** ** Two scans in a row *)

Lemma new_alerts_all (previous : gset string) (crossovers : list crossover) :
  (forall c, c ∈ crossovers -> alert_key c ∉ previous) ->
  new_alerts previous crossovers = crossovers.
Proof.
  intros H. unfold new_alerts. induction crossovers as [|c l IH]; [done|].
  rewrite filter_cons_True by (apply H; apply list_elem_of_here).
  f_equal. apply IH. intros c' Hc'. apply H. by apply list_elem_of_further.
Qed.

Lemma scan_crossovers_timestamp (w : world) (tf : string) (c : crossover) :
  c ∈ scan_crossovers w tf -> exists idx, timestamp c = now_at w tf idx.
Proof.
  intros Hc. apply scan_crossovers_event in Hc as (idx & sym & _ & _ & Ht & _).
  eauto.
Qed.

(** X12: the ledger does not hold events back from one scan to the next: when
    no clock reading of a scan equals a clock reading of the scan before
    it (in particular when time has moved on), every event of the later
    scan is new, because its key carries the time at which it was built. *)
Theorem rescan_all_new (w1 w2 : world) (st0 : session_state) :
  (forall tf idx, valid_datetime (now_at w1 tf idx)) ->
  (forall tf idx, valid_datetime (now_at w2 tf idx)) ->
  (forall tf idx tf' idx', now_at w2 tf idx <> now_at w1 tf' idx') ->
  new_alerts (previous_alerts (scan_stocks_now w1 st0).1.1) (scan_crossovers w2 "4h")
    = scan_crossovers w2 "4h" /\
  new_alerts (previous_alerts (scan_stocks_now w1 st0).1.1) (scan_crossovers w2 "1d")
    = scan_crossovers w2 "1d" /\
  (scan_stocks_now w2 (scan_stocks_now w1 st0).1.1).2.2
    = length (scan_crossovers w2 "4h") + length (scan_crossovers w2 "1d").
Proof.
  intros V1 V2 Hne.
  set (st1 := (scan_stocks_now w1 st0).1.1).
  assert (Hprev : previous_alerts st1 =
                  alert_keys (scan_crossovers w1 "4h" ++ scan_crossovers w1 "1d")).
  { subst st1. unfold scan_stocks_now.
    destruct (after_scan_state w1 st0 (scan_crossovers w1 "4h") (scan_crossovers w1 "1d"))
      as [-> _]. by rewrite alert_keys_app. }
  assert (Hall : forall tf c, c ∈ scan_crossovers w2 tf -> alert_key c ∉ previous_alerts st1).
  { intros tf c Hc Hk. rewrite Hprev in Hk.
    apply elem_of_alert_keys in Hk as (e & He & Hk).
    apply scan_crossovers_timestamp in Hc as [idx Hc].
    assert (exists tf' idx', timestamp e = now_at w1 tf' idx') as (tf' & idx' & Het).
    { apply elem_of_app in He as [He|He];
        apply scan_crossovers_timestamp in He as [idx' He]; eauto. }
    apply alert_key_inj in Hk as [_ Hk].
    - apply (Hne tf idx tf' idx'). congruence.
    - rewrite Het. apply V1.
    - rewrite Hc. apply V2. }
  assert (H4 := new_alerts_all _ _ (Hall "4h")).
  assert (H1 := new_alerts_all _ _ (Hall "1d")).
  split; [exact H4|]. split; [exact H1|].
  unfold scan_stocks_now at 1.
  destruct (after_scan_state w2 st1 (scan_crossovers w2 "4h") (scan_crossovers w2 "1d"))
    as [_ ->].
  by rewrite H4, H1, length_app.
Qed.

Lemma sample_time_valid (h mi : Z) :
  (0 <= h < 24)%Z -> (0 <= mi < 60)%Z -> valid_datetime (sample_time h mi).
Proof. intros Hh Hm. unfold valid_datetime, sample_time. cbn. lia. Qed.

Lemma rescan_all_new_witness :
  (scan_stocks_now (sample_market sample_daily (sample_time 10 15))
     (scan_stocks_now (sample_market sample_daily (sample_time 10 0))
        (sample_state ∅ (sample_time 9 0))).1.1).2.2
  = length (scan_crossovers (sample_market sample_daily (sample_time 10 15)) "4h")
    + length (scan_crossovers (sample_market sample_daily (sample_time 10 15)) "1d").
Proof.
  apply (rescan_all_new (sample_market sample_daily (sample_time 10 0))
           (sample_market sample_daily (sample_time 10 15))
           (sample_state ∅ (sample_time 9 0))).
  - intros tf idx. apply sample_time_valid; lia.
  - intros tf idx. apply sample_time_valid; lia.
  - intros tf idx tf' idx'. discriminate.
Defined.

(** ** Telegram notifier *)

(** *** The rows of buttons *)

Lemma keyboard_step_odd (done : list (list button)) (row : list button) (i : Z) (sym : string) :
  (i mod 2 = 1)%Z ->
  keyboard_step (done, row) (i, sym) = (done, row ++ [make_button sym]).
Proof. intros H. unfold keyboard_step. rewrite H. reflexivity. Qed.

Lemma keyboard_step_even (done : list (list button)) (row : list button) (i : Z) (sym : string) :
  (i mod 2 = 0)%Z ->
  keyboard_step (done, row) (i, sym) = (done ++ [row ++ [make_button sym]], []).
Proof. intros H. unfold keyboard_step. rewrite H. reflexivity. Qed.

(** After [2 * k] symbols the loop holds [k] full rows and an empty current
    row; after one more, the current row holds that symbol's button. *)
Lemma keyboard_loop (rest : list string) : forall (done : list (list button)) (k : nat),
  fold_left keyboard_step
    (zip (seqZ (Z.of_nat (2 * k) + 1) (Z.of_nat (length rest))) rest) (done, [])
  = match rest with
    | [] => (done, [])
    | [a] => (done, [make_button a])
    | a :: b :: rest' =>
        fold_left keyboard_step
          (zip (seqZ (Z.of_nat (2 * S k) + 1) (Z.of_nat (length rest'))) rest')
          (done ++ [[make_button a; make_button b]], [])
    end.
Proof.
  intros done k.
  assert (Hodd : ((Z.of_nat (2 * k) + 1) mod 2 = 1)%Z).
  { rewrite Nat2Z.inj_mul. change (Z.of_nat 2) with 2%Z.
    rewrite Z.add_comm, Z.mul_comm, Z.mod_add by lia. done. }
  assert (Heven : (Z.succ (Z.of_nat (2 * k) + 1) mod 2 = 0)%Z).
  { replace (Z.succ (Z.of_nat (2 * k) + 1)) with (0 + (Z.of_nat k + 1) * 2)%Z by lia.
    by rewrite Z.mod_add by lia. }
  destruct rest as [|a [|b rest']]; [reflexivity| |].
  - cbn [length]. rewrite seqZ_cons by lia. cbn [zip zip_with fold_left].
    rewrite (keyboard_step_odd _ _ _ _ Hodd). reflexivity.
  - cbn [length]. rewrite seqZ_cons by lia. cbn [zip zip_with fold_left].
    rewrite (keyboard_step_odd _ _ _ _ Hodd).
    rewrite seqZ_cons by lia. cbn [zip zip_with fold_left].
    rewrite (keyboard_step_even _ _ _ _ Heven). cbn [app].
    replace (Z.succ (Z.succ (Z.of_nat (2 * k) + 1))) with (Z.of_nat (2 * S k) + 1)%Z by lia.
    replace (Z.pred (Z.pred (Z.of_nat (S (S (length rest'))))))
      with (Z.of_nat (length rest')) by lia.
    reflexivity.
Qed.

Lemma build_keyboard_loop (fuel : nat) : forall (rest : list string) (done : list (list button)) (k : nat),
  length rest <= 2 * fuel ->
  (let '(inline_keyboard, row) :=
     fold_left keyboard_step
       (zip (seqZ (Z.of_nat (2 * k) + 1) (Z.of_nat (length rest))) rest) (done, []) in
   match row with
   | [] => inline_keyboard
   | _ => inline_keyboard ++ [row]
   end) = done ++ rows_of rest fuel.
Proof.
  induction fuel as [|fuel IH]; intros rest done k Hlen.
  - destruct rest; [|simpl in Hlen; lia]. cbn. by rewrite app_nil_r.
  - rewrite keyboard_loop. destruct rest as [|a [|b rest']].
    + cbn. by rewrite app_nil_r.
    + reflexivity.
    + cbn [rows_of]. rewrite IH by (simpl in Hlen; lia).
      by rewrite <- app_assoc.
Qed.

Lemma build_keyboard_rows_of (symbols : list string) :
  build_keyboard symbols = rows_of symbols (length symbols).
Proof.
  unfold build_keyboard, len.
  pose proof (build_keyboard_loop (length symbols) symbols [] 0) as H.
  cbn [Nat.mul Z.of_nat Z.add app] in H. apply H. lia.
Qed.

Lemma rows_of_spec (fuel : nat) : forall symbols : list string,
  length symbols <= 2 * fuel ->
  mjoin (rows_of symbols fuel) = make_button <$> symbols /\
  length (rows_of symbols fuel) = (length symbols + 1) / 2 /\
  (forall i row, rows_of symbols fuel !! i = Some row ->
     row = make_button <$> take 2 (drop (2 * i) symbols) /\ row <> []).
Proof.
  induction fuel as [|fuel IH]; intros symbols Hlen.
  - destruct symbols; [|simpl in Hlen; lia]. cbn. split; [done|]. split; [done|].
    intros i row H. done.
  - destruct symbols as [|a [|b rest]].
    + cbn. split; [done|]. split; [done|]. intros i row H. done.
    + cbn. split; [done|]. split; [done|]. intros [|i] row H; [|done].
      injection H as <-. done.
    + cbn [rows_of]. destruct (IH rest) as (H1 & H2 & H3); [simpl in Hlen; lia|].
      split; [|split].
      * change (mjoin ([make_button a; make_button b] :: rows_of rest fuel))
          with ([make_button a; make_button b] ++ mjoin (rows_of rest fuel)).
        rewrite H1. reflexivity.
      * cbn [length]. rewrite H2.
        replace (S (S (length rest)) + 1) with (length rest + 1 + 1 * 2) by lia.
        rewrite Nat.div_add by lia. lia.
      * intros [|i] row H.
        -- injection H as <-. done.
        -- cbn in H. apply H3 in H as [-> Hne]. split; [|done].
           replace (2 * S i) with (S (S (2 * i))) by lia. reflexivity.
Qed.

(** X13: the buttons are laid out two per row in the order of the symbols: row
    [i] holds the buttons of the symbols [2 i] and [2 i + 1], a last row
    holds one button when the number of symbols is odd, and there is no
    empty row. *)
Theorem build_keyboard_rows (all_symbols : list string) :
  mjoin (build_keyboard all_symbols) = make_button <$> all_symbols /\
  length (build_keyboard all_symbols) = (length all_symbols + 1) / 2 /\
  (forall i row, build_keyboard all_symbols !! i = Some row ->
     row = make_button <$> take 2 (drop (2 * i) all_symbols) /\
     1 <= length row <= 2).
Proof.
  rewrite build_keyboard_rows_of.
  destruct (rows_of_spec (length all_symbols) all_symbols) as (H1 & H2 & H3); [lia|].
  split; [done|]. split; [done|].
  intros i row H. apply H3 in H as [-> Hne]. split; [done|].
  rewrite length_fmap. split; [|rewrite length_take; lia].
  destruct (take 2 (drop (2 * i) all_symbols)) eqn:E; [done|cbn; lia].
Qed.

(** *** What the notifier does *)

Lemma build_keyboard_join (symbols : list string) :
  mjoin (build_keyboard symbols) = make_button <$> symbols.
Proof.
  rewrite build_keyboard_rows_of.
  by destruct (rows_of_spec (length symbols) symbols) as (H1 & _); [lia|].
Qed.

Lemma missing_false (x : option string) :
  missing x = false -> exists s, x = Some s /\ s <> EmptyString.
Proof. destruct x as [[|c s]|]; try discriminate. intros _. by eexists. Qed.

(** X14: [send_telegram_alerts] returns [None], after the one line it prints,
    exactly when a credential is missing or empty, and then posts nothing.
    Otherwise it posts once, to the [sendMessage] address of the bot, a
    Markdown message for the chat whose buttons are those of the 4-hour
    symbols followed by those of the daily symbols, and it returns [True]
    exactly when the response has status 200; another status or an
    exception of the request gives [False]. *)
Theorem send_telegram_alerts_outcome (env : telegram)
    (alerts_4h alerts_1d : list crossover) :
  let r := send_telegram_alerts env alerts_4h alerts_1d in
  (r.1 = None <->
     missing (TELEGRAM_BOT_TOKEN env) || missing (TELEGRAM_CHAT_ID env) = true) /\
  (r.1 = None -> r.2 = [Print "❌ Telegram credentials missing."]) /\
  (r.1 <> None ->
     exists (bot_token chat_id url line : string) (json : payload),
       TELEGRAM_BOT_TOKEN env = Some bot_token /\ bot_token <> EmptyString /\
       TELEGRAM_CHAT_ID env = Some chat_id /\ chat_id <> EmptyString /\
       url = "https://api.telegram.org/bot" +:+ bot_token +:+ "/sendMessage" /\
       r.2 = [Post url json; Print line] /\
       payload_chat_id json = chat_id /\ parse_mode json = "Markdown" /\
       payload_text json =
         join newline (message_lines (now_message env)
                         (extract_symbols alerts_4h) (extract_symbols alerts_1d)) /\
       mjoin (inline_keyboard json) =
         make_button <$> (extract_symbols alerts_4h ++ extract_symbols alerts_1d) /\
       (r.1 = Some true <-> exists body, post env url json = Response 200 body) /\
       (r.1 = Some false <-> ~ exists body, post env url json = Response 200 body)).
Proof.
  intros r. subst r. unfold send_telegram_alerts. cbv zeta.
  destruct (missing (TELEGRAM_BOT_TOKEN env) || missing (TELEGRAM_CHAT_ID env)) eqn:Hm.
  { cbn. split; [done|]. split; [done|]. done. }
  apply orb_false_iff in Hm as [Ht Hc].
  apply missing_false in Ht as (tok & Ht & Htok).
  apply missing_false in Hc as (cid & Hc & Hcid).
  rewrite Ht, Hc.
  change (default EmptyString (Some tok)) with tok.
  change (default EmptyString (Some cid)) with cid.
  set (url := "https://api.telegram.org/bot" +:+ tok +:+ "/sendMessage").
  set (json := {| payload_chat_id := cid;
                  payload_text :=
                    join newline (message_lines (now_message env)
                                    (extract_symbols alerts_4h) (extract_symbols alerts_1d));
                  parse_mode := "Markdown";
                  inline_keyboard :=
                    build_keyboard (extract_symbols alerts_4h ++ extract_symbols alerts_1d) |}).
  assert (Hshape :
    payload_chat_id json = cid /\ parse_mode json = "Markdown" /\
    payload_text json =
      join newline (message_lines (now_message env)
                      (extract_symbols alerts_4h) (extract_symbols alerts_1d)) /\
    mjoin (inline_keyboard json) =
      make_button <$> (extract_symbols alerts_4h ++ extract_symbols alerts_1d)).
  { subst json. cbn. do 3 (split; [reflexivity|]). apply build_keyboard_join. }
  destruct (post env url json) as [code body|msg] eqn:Hp.
  - destruct (Z.eqb_spec code 200) as [->|Hne]; cbn [fst snd].
    + split; [split; intros ?; discriminate|]. split; [intros ?; discriminate|]. intros _.
      exists tok, cid, url, "✅ Telegram alert sent.", json.
      do 6 (split; [done|]).
      destruct Hshape as (H1 & H2 & H3 & H4). do 4 (split; [done|]).
      assert (Hyes : exists b, post env url json = Response 200 b) by eauto.
      split; [split; [done|done]|]. split; [discriminate|done].
    + split; [split; intros ?; discriminate|]. split; [intros ?; discriminate|]. intros _.
      exists tok, cid, url, ("❌ Telegram error: " +:+ body), json.
      do 6 (split; [done|]).
      destruct Hshape as (H1 & H2 & H3 & H4). do 4 (split; [done|]).
      assert (Hno : ~ exists b, post env url json = Response 200 b).
      { intros [b E]. rewrite Hp in E. injection E as E _. done. }
      split; [split; [discriminate|done]|]. split; [done|done].
  - cbn [fst snd]. split; [split; intros ?; discriminate|]. split; [intros ?; discriminate|]. intros _.
    exists tok, cid, url, ("❌ Telegram send failed: " +:+ msg), json.
    do 6 (split; [done|]).
    destruct Hshape as (H1 & H2 & H3 & H4). do 4 (split; [done|]).
    assert (Hno : ~ exists b, post env url json = Response 200 b).
    { intros [b E]. rewrite Hp in E. discriminate E. }
    split; [split; [discriminate|done]|]. split; [done|done].
Qed.

(** *** The symbols of scanned events *)

Lemma stripped_symbols_clean :
  Forall (fun s => py_upper (py_strip s) = s) (strip_NS <$> STOCK_SYMBOLS).
Proof. apply (bool_decide_unpack _). vm_compute. reflexivity. Qed.

Lemma scan_crossovers_symbol (w : world) (tf : string) (c : crossover) :
  c ∈ scan_crossovers w tf -> symbol c ∈ strip_NS <$> STOCK_SYMBOLS.
Proof.
  intros Hc. apply scan_crossovers_event in Hc as (idx & sym & Hs & -> & _).
  apply list_elem_of_fmap. exists sym. split; [done|].
  by apply list_elem_of_lookup_2 in Hs.
Qed.

Lemma extract_symbols_clean (alerts : list crossover) :
  (forall c, c ∈ alerts -> symbol c ∈ strip_NS <$> STOCK_SYMBOLS) ->
  extract_symbols alerts = symbol <$> alerts.
Proof.
  intros H. unfold extract_symbols. apply list_fmap_ext.
  intros i c Hc. pose proof stripped_symbols_clean as HF.
  rewrite Forall_forall in HF. apply HF. apply H.
  by apply list_elem_of_lookup_2 in Hc.
Qed.

(** X15: for the events of a scan, and so for the new events handed to the
    notifier, stripping and upper-casing the symbols changes nothing: the
    message and the buttons name the instruments as the events do. *)
Theorem extract_symbols_scanned (w : world) (tf : string) (previous : gset string) :
  extract_symbols (scan_crossovers w tf) = symbol <$> scan_crossovers w tf /\
  extract_symbols (new_alerts previous (scan_crossovers w tf))
    = symbol <$> new_alerts previous (scan_crossovers w tf).
Proof.
  split; apply extract_symbols_clean.
  - apply scan_crossovers_symbol.
  - intros c Hc. apply elem_of_new_alerts in Hc as [Hc _].
    by apply scan_crossovers_symbol in Hc.
Qed.

(** ** Display of times *)

Lemma hour12_range (h : Z) : (0 <= h < 24)%Z -> (1 <= hour12 h <= 12)%Z.
Proof.
  intros H. unfold hour12. destruct (Z.eqb_spec (h mod 12) 0); [lia|].
  Z.to_euclidean_division_equations; lia.
Qed.

Lemma hour12_am_pm_inj (h h' : Z) :
  (0 <= h < 24)%Z -> (0 <= h' < 24)%Z ->
  hour12 h = hour12 h' -> am_pm h = am_pm h' -> h = h'.
Proof.
  intros H H' E A. unfold hour12, am_pm in *.
  destruct (Z.ltb_spec h 12), (Z.ltb_spec h' 12); try discriminate A;
    destruct (Z.eqb_spec (h mod 12) 0), (Z.eqb_spec (h' mod 12) 0);
    Z.to_euclidean_division_equations; lia.
Qed.

(** X16: the 12-hour display shows an hour from 01 to 12 and tells the time of
    day to the second: two valid datetimes displayed alike have the same
    hour, minute and second (the date and the microseconds are not shown). *)
Theorem format_time_12hr_inj (a b : datetime) :
  valid_datetime a -> valid_datetime b ->
  format_time_12hr a = format_time_12hr b ->
  hour a = hour b /\ minute a = minute b /\ second a = second b /\
  (1 <= hour12 (hour a) <= 12)%Z.
Proof.
  intros (_ & _ & _ & Hh & Hmi & Hs & _) (_ & _ & _ & Hh' & Hmi' & Hs' & _) E.
  pose proof (hour12_range _ Hh) as R. pose proof (hour12_range _ Hh') as R'.
  unfold format_time_12hr in E.
  apply pad2_app_inj in E as [E1 E]; [|lia..]. apply lit_app_inj in E.
  apply pad2_app_inj in E as [E2 E]; [|lia..]. apply lit_app_inj in E.
  apply pad2_app_inj in E as [E3 E]; [|lia..]. apply lit_app_inj in E.
  split; [by apply hour12_am_pm_inj|]. done.
Qed.

Lemma format_time_12hr_inj_witness :
  hour (sample_time 13 5) = hour (sample_time 13 5) /\
  format_time_12hr (sample_time 13 5) = "01:05:00 PM".
Proof.
  split; [|reflexivity].
  apply (format_time_12hr_inj (sample_time 13 5) (sample_time 13 5)).
  - apply sample_time_valid; lia.
  - apply sample_time_valid; lia.
  - reflexivity.
Defined.

(** X17: at every clock reading the market counts as open: [is_trading_hours]
    is true for every valid datetime. *)
Theorem is_trading_hours_always (now : datetime) :
  valid_datetime now -> is_trading_hours now = true.
Proof.
  intros (_ & _ & _ & Hh & _). unfold is_trading_hours.
  destruct (Z.leb_spec 0 (hour now)); [|lia].
  destruct (Z.ltb_spec (hour now) 24); [done|lia].
Qed.

Lemma is_trading_hours_always_witness : is_trading_hours (sample_time 3 0) = true.
Proof. apply is_trading_hours_always. apply sample_time_valid; lia. Defined.

(** ** The auto-refresh of the page *)

Section AutoRefresh.
Local Open Scope Z_scope.

Lemma of_int_15 : of_int 15 = S754_finite false 8444249301319680 (-49).
Proof. vm_compute. reflexivity. Qed.

(** From 15 minutes on, the seconds are at least 900. *)
Lemma total_seconds_lower_900 (p : positive) :
  900000000 <= Z.pos p -> SFleb F900 (total_seconds (Z.pos p)) = true.
Proof.
  intros Hp. rewrite total_seconds_pos. unfold F900.
  apply SFdiv_lower; [apply total_seconds_normal|lia|].
  change (Z.max 0 (-43 - (0 - 0))) with 0.
  change (Z.max 0 (- (-43 - (0 - 0)))) with 43.
  lia.
Qed.

(** Below 15 minutes, the seconds are at most the float just under 900. *)
Lemma total_seconds_upper_900 (p : positive) :
  Z.pos p < 900000000 -> SFleb (total_seconds (Z.pos p)) F900_pred = true.
Proof.
  intros Hp. rewrite total_seconds_pos. unfold F900_pred.
  apply SFdiv_upper; [apply total_seconds_normal|lia|lia|].
  change (Z.max 0 (0 - 0 - -43)) with 43.
  change (Z.max 0 (- (0 - 0 - -43))) with 0.
  lia.
Qed.

(** At least 900 seconds are at least 15 minutes. *)
Lemma minutes_lower_15 (m : positive) (e : Z) :
  2 ^ 52 <= Z.pos m < 2 ^ 53 ->
  SFleb F900 (S754_finite false m e) = true ->
  SFleb (S754_finite false 8444249301319680 (-49))
        (SFdiv prec emax (S754_finite false m e)
           (S754_finite false 8444249301319680 (-47))) = true.
Proof.
  intros Hm H. apply SFleb_finite_pos in H.
  apply SFdiv_lower; [apply minutes_normal; [done|lia]|lia|].
  rewrite Z.max_l by lia. rewrite Z.max_r by lia.
  rewrite Z.pow_0_r, Z.mul_1_r.
  replace (- (-49 - (e - -47))) with (53 + (e + 43)) by lia.
  destruct H as [Hlt|[Heq Hle]].
  - rewrite Z.pow_add_r by lia.
    assert (HP : 2 <= 2 ^ (e + 43)) by (apply pow2_ge_2; lia).
    set (P := 2 ^ (e + 43)) in *.
    assert (2 ^ 52 * (2 ^ 53 * 2) <= Z.pos m * (2 ^ 53 * P)).
    { apply Z.mul_le_mono_nonneg; lia. }
    lia.
  - replace (e + 43) with 0 by lia. rewrite Z.add_0_r. lia.
Qed.

(** At most the float under 900 seconds are at most the float under 15
    minutes. *)
Lemma minutes_upper_15 (m : positive) (e : Z) :
  2 ^ 52 <= Z.pos m < 2 ^ 53 -> -72 <= e ->
  SFleb (S754_finite false m e) F900_pred = true ->
  SFleb (SFdiv prec emax (S754_finite false m e)
           (S754_finite false 8444249301319680 (-47))) F15_pred = true.
Proof.
  intros Hm He H. apply SFleb_finite_pos in H. unfold F15_pred.
  apply SFdiv_upper; [apply minutes_normal; [done|lia]|lia|lia|].
  rewrite Z.max_r by lia. rewrite Z.max_l by lia.
  rewrite Z.pow_0_r, Z.mul_1_r.
  destruct H as [Hlt|[Heq Hle]].
  - assert (HP : 2 ^ (e - -47 - -49) <= 2 ^ 52) by (apply Z.pow_le_mono_r; lia).
    assert (0 < 2 ^ (e - -47 - -49)) by (apply Z.pow_pos_nonneg; lia).
    set (P := 2 ^ (e - -47 - -49)) in *.
    assert (Z.pos m * P <= 2 ^ 53 * 2 ^ 52) by (apply Z.mul_le_mono_nonneg; lia).
    lia.
  - replace (e - -47 - -49) with 53 by lia. lia.
Qed.

Lemma not_SFleb_15 (x : float) :
  SFleb x F15_pred = true ->
  SFleb (S754_finite false 8444249301319680 (-49)) x = false.
Proof.
  unfold F15_pred. intros H.
  destruct x as [s|[|]| |[|] m e];
    [reflexivity|reflexivity|vm_compute in H; discriminate H|reflexivity
    |reflexivity|].
  apply SFleb_finite_pos in H.
  destruct (SFleb _ _) eqn:E; [|done].
  apply SFleb_finite_pos in E. lia.
Qed.

(** The test of the auto-refresh holds exactly from 15 minutes, that is
    900 000 000 microseconds, on. *)
Lemma auto_scan_threshold (d : Z) :
  fge (fdiv_int (total_seconds d) 60) (of_int 15) = (900000000 <=? d).
Proof.
  unfold fge, fdiv_int. rewrite of_int_60, of_int_15.
  destruct d as [|p|p].
  - vm_compute. reflexivity.
  - destruct (SFdiv_shape p 1000000 0 0 (total_seconds_normal p))
      as [Hinf|(m & e & Hfin & Hm & He)].
    + destruct (Z.leb_spec 900000000 (Z.pos p)) as [Hge|Hlt].
      * rewrite total_seconds_pos, Hinf. reflexivity.
      * pose proof (total_seconds_upper_900 p Hlt) as H.
        rewrite total_seconds_pos, Hinf in H. discriminate H.
    + rewrite digits_1000000 in He.
      destruct (Z.leb_spec 900000000 (Z.pos p)) as [Hge|Hlt].
      * pose proof (total_seconds_lower_900 p Hge) as H.
        rewrite total_seconds_pos, Hfin in H |- *.
        by apply minutes_lower_15.
      * pose proof (total_seconds_upper_900 p Hlt) as H.
        rewrite total_seconds_pos, Hfin in H |- *.
        apply not_SFleb_15. apply minutes_upper_15; [done|lia|done].
  - destruct (Z.leb_spec 900000000 (Z.neg p)) as [Hge|_]; [lia|].
    change (total_seconds (Z.neg p))
      with (SFdiv prec emax (S754_finite true p 0) (S754_finite false 1000000 0)).
    rewrite SFdiv_neg.
    destruct (SFdiv_shape p 1000000 0 0 (total_seconds_normal p))
      as [->|(m & e & -> & Hm & He)]; [reflexivity|].
    rewrite digits_1000000 in He.
    cbn [SFopp negb]. rewrite SFdiv_neg.
    destruct (SFdiv_shape m 8444249301319680 e (-47))
      as [->|(m' & e' & -> & _ & _)]; [apply minutes_normal; [done|lia]|reflexivity..].
Qed.

End AutoRefresh.

Lemma min_5_max_0 (x : float) :
  min_5 (max_0 x) = Int 0 \/ min_5 (max_0 x) = Int 5 \/
  (min_5 (max_0 x) = Float x /\ fgt x (of_int 0) = true /\ flt x (of_int 5) = true).
Proof.
  unfold max_0. destruct (fgt x (of_int 0)) eqn:E0; [|by left].
  cbn [min_5]. destruct (flt x (of_int 5)) eqn:E5; [|by right; left].
  right. right. done.
Qed.

(** X18: with auto-refresh switched on, the block scans exactly when 15 minutes
    (900 000 000 microseconds) or more lie between the last scan and the
    clock reading taken at its start; after such a scan the time of the last
    scan is that reading, not the time at which the scan ended, and the
    other fields are those left by the scan.  In every case the block then
    sleeps, for a time that is never negative and never more than 5
    seconds, and reruns the page.  With auto-refresh off it does nothing. *)
Theorem auto_refresh_every_15_minutes (auto_refresh : bool) (current_time : datetime)
    (w : world) (st : session_state) :
  let elapsed := datetime_sub current_time (last_scan_time st) in
  let r := auto_refresh_block auto_refresh current_time w st in
  (auto_refresh = false -> r = (st, [])) /\
  (auto_refresh = true ->
     ((900000000 <= elapsed)%Z ->
        r.1 = set_last_scan_time (scan_stocks_now w st).1.1 current_time /\
        last_scan_time r.1 = current_time /\
        head r.2 = Some (Scan (scan_stocks_now w st).1.2)) /\
     ((elapsed < 900000000)%Z ->
        r.1 = st /\ forall effects, Scan effects ∉ r.2) /\
     exists seconds,
       drop (length r.2 - 2) r.2 = [Sleep seconds; Rerun] /\
       (seconds = Int 0 \/ seconds = Int 5 \/
        exists x, seconds = Float x /\ fgt x (of_int 0) = true /\
                  flt x (of_int 5) = true)).
Proof.
  intros elapsed r. subst r. unfold auto_refresh_block.
  split; [by intros ->|]. intros ->.
  unfold time_since. rewrite auto_scan_threshold. fold elapsed.
  set (t := fdiv_int (total_seconds elapsed) 60).
  pose proof (min_5_max_0 (fsub (of_int (15 * 60)) (fmul t (of_int 60)))) as Hs.
  set (seconds := min_5 (max_0 (fsub (of_int (15 * 60)) (fmul t (of_int 60))))) in *.
  assert (Hsec : seconds = Int 0 \/ seconds = Int 5 \/
            exists x, seconds = Float x /\ fgt x (of_int 0) = true /\
                      flt x (of_int 5) = true).
  { destruct Hs as [Hs|[Hs|Hs]]; [by left|by right; left|]. right. right. eauto. }
  destruct (Z.leb_spec 900000000 elapsed) as [Hge|Hlt].
  - destruct (scan_stocks_now w st) as [[st' effects] [[count_4h count_1d] total_count]].
    cbn [fst snd]. split; [|split].
    + intros _. done.
    + intros Hlt. lia.
    + exists seconds. split; [|done].
      destruct (0 <? total_count); reflexivity.
  - cbn [fst snd app]. split; [|split].
    + intros Hge. lia.
    + intros _. split; [done|]. intros effects Hin.
      apply list_elem_of_In in Hin. simpl in Hin.
      destruct Hin as [?|[?|[]]]; discriminate.
    + exists seconds. split; [reflexivity|done].
Qed.

Lemma auto_refresh_every_15_minutes_witness :
  last_scan_time
    (auto_refresh_block true (sample_time 10 15)
       (sample_market sample_daily (sample_time 10 16))
       (sample_state ∅ (sample_time 10 0))).1
  = sample_time 10 15.
Proof.
  destruct (auto_refresh_every_15_minutes true (sample_time 10 15)
              (sample_market sample_daily (sample_time 10 16))
              (sample_state ∅ (sample_time 10 0))) as [_ H].
  destruct (H eq_refl) as [Hscan _].
  apply Hscan. vm_compute. discriminate.
Defined.

(** ** Start of a session *)

Section Calendar.
Local Open Scope Z_scope.

(** *** From an ordinal back to a date *)

Lemma days_before_year_decomposed (a b c e : Z) :
  0 <= a -> 0 <= b <= 3 -> 0 <= c <= 24 -> 0 <= e <= 3 ->
  days_before_year (400 * a + 100 * b + 4 * c + e + 1)
  = 146097 * a + 36524 * b + 1461 * c + 365 * e.
Proof.
  intros Ha Hb Hc He. unfold days_before_year.
  replace (400 * a + 100 * b + 4 * c + e + 1 - 1) with (400 * a + 100 * b + 4 * c + e) by lia.
  assert (E4 : (400 * a + 100 * b + 4 * c + e) / 4 = 100 * a + 25 * b + c).
  { symmetry. apply (Z.div_unique _ _ _ e); lia. }
  assert (E100 : (400 * a + 100 * b + 4 * c + e) / 100 = 4 * a + b).
  { symmetry. apply (Z.div_unique _ _ _ (4 * c + e)); lia. }
  assert (E400 : (400 * a + 100 * b + 4 * c + e) / 400 = a).
  { symmetry. apply (Z.div_unique _ _ _ (100 * b + 4 * c + e)); lia. }
  rewrite E4, E100, E400. lia.
Qed.

Lemma is_leap_decomposed (a b c e : Z) :
  0 <= a -> 0 <= b <= 3 -> 0 <= c <= 24 -> 0 <= e <= 3 ->
  is_leap (400 * a + 100 * b + 4 * c + e + 1)
  = (e =? 3) && (negb (c =? 24) || (b =? 3)).
Proof.
  intros Ha Hb Hc He. unfold is_leap.
  assert (M4 : (400 * a + 100 * b + 4 * c + e + 1) mod 4 = (e + 1) mod 4).
  { replace (400 * a + 100 * b + 4 * c + e + 1)
      with (e + 1 + (100 * a + 25 * b + c) * 4) by lia.
    apply Z.mod_add. lia. }
  assert (M100 : (400 * a + 100 * b + 4 * c + e + 1) mod 100 = (4 * c + e + 1) mod 100).
  { replace (400 * a + 100 * b + 4 * c + e + 1)
      with (4 * c + e + 1 + (4 * a + b) * 100) by lia.
    apply Z.mod_add. lia. }
  assert (M400 : (400 * a + 100 * b + 4 * c + e + 1) mod 400
                 = (100 * b + 4 * c + e + 1) mod 400).
  { replace (400 * a + 100 * b + 4 * c + e + 1)
      with (100 * b + 4 * c + e + 1 + a * 400) by lia.
    apply Z.mod_add. lia. }
  rewrite M4, M100, M400.
  destruct (Z.eqb_spec e 3) as [->|Hne].
  - change ((3 + 1) mod 4 =? 0) with true. cbn [andb].
    destruct (Z.eqb_spec c 24) as [->|Hc24].
    + change ((4 * 24 + 3 + 1) mod 100 =? 0) with true. cbn [negb orb].
      destruct (Z.eqb_spec b 3) as [->|Hb3].
      * reflexivity.
      * destruct (Z.eqb_spec ((100 * b + 4 * 24 + 3 + 1) mod 400) 0) as [E|_]; [|done].
        exfalso. revert E. Z.to_euclidean_division_equations. lia.
    + cbn [negb orb].
      destruct (Z.eqb_spec ((4 * c + 3 + 1) mod 100) 0) as [E|_]; [|done].
      exfalso. revert E. Z.to_euclidean_division_equations. lia.
  - cbn [andb]. destruct (Z.eqb_spec ((e + 1) mod 4) 0) as [E|_]; [|done].
    exfalso. revert E. Z.to_euclidean_division_equations. lia.
Qed.

Lemma month_day_spec (leapyear : bool) (n : Z) :
  0 <= n < 365 + (if leapyear then 1 else 0) ->
  1 <= (month_day leapyear n).1 <= 12 /\
  1 <= (month_day leapyear n).2 <= 31 /\
  nth (Z.to_nat (month_day leapyear n).1) DAYS_BEFORE_MONTH 0
    + (if (2 <? (month_day leapyear n).1) && leapyear then 1 else 0)
    + (month_day leapyear n).2 = n + 1.
Proof.
  intros Hn.
  assert (Hall : Forall (fun n =>
            forall l : bool,
              n < 365 + (if l then 1 else 0) ->
              1 <= (month_day l n).1 <= 12 /\
              1 <= (month_day l n).2 <= 31 /\
              nth (Z.to_nat (month_day l n).1) DAYS_BEFORE_MONTH 0
                + (if (2 <? (month_day l n).1) && l then 1 else 0)
                + (month_day l n).2 = n + 1) (seqZ 0 366)).
  { apply (bool_decide_unpack _). vm_compute. reflexivity. }
  rewrite Forall_forall in Hall. apply Hall; [|lia].
  apply elem_of_seqZ. destruct leapyear; lia.
Qed.

Lemma ordinal_decomposed (n : Z) :
  0 <= n ->
  exists a b c e r,
    n / 146097 = a /\ n mod 146097 / 36524 = b /\
    n mod 146097 mod 36524 / 1461 = c /\
    n mod 146097 mod 36524 mod 1461 / 365 = e /\
    n mod 146097 mod 36524 mod 1461 mod 365 = r /\
    n = 146097 * a + 36524 * b + 1461 * c + 365 * e + r /\
    0 <= a /\ 0 <= b <= 4 /\ 0 <= c <= 24 /\ 0 <= e <= 4 /\ 0 <= r < 365 /\
    (b = 4 -> c = 0 /\ e = 0 /\ r = 0) /\
    (e = 4 -> r = 0 /\ c <= 23).
Proof.
  intros Hn. eexists _, _, _, _, _. do 5 (split; [reflexivity|]).
  Z.to_euclidean_division_equations. lia.
Qed.

Lemma days_before_month_bounds (y m : Z) :
  1 <= m <= 12 ->
  0 <= days_before_month y m <= 334 + (if is_leap y then 1 else 0).
Proof.
  intros Hm. unfold days_before_month.
  assert (Hall : Forall (fun m =>
            forall l : bool,
              0 <= nth (Z.to_nat m) DAYS_BEFORE_MONTH 0
                   + (if (2 <? m) && l then 1 else 0)
                <= 334 + (if l then 1 else 0)) (seqZ 1 12)).
  { apply (bool_decide_unpack _). vm_compute. reflexivity. }
  rewrite Forall_forall in Hall. apply Hall. apply elem_of_seqZ. lia.
Qed.

Lemma days_before_month_12 (y : Z) :
  days_before_month y 12 = 334 + (if is_leap y then 1 else 0).
Proof. unfold days_before_month. by destruct (is_leap y). Qed.

(** [_ord2ymd] inverts [toordinal]. *)
Lemma ord2ymd_toordinal (n : Z) :
  1 <= n <= MAXORDINAL ->
  1 <= (ord2ymd n).1.1 <= 9999 /\ 1 <= (ord2ymd n).1.2 <= 12 /\
  1 <= (ord2ymd n).2 <= 31 /\
  days_before_year (ord2ymd n).1.1
    + days_before_month (ord2ymd n).1.1 (ord2ymd n).1.2 + (ord2ymd n).2 = n.
Proof.
  unfold MAXORDINAL. intros Hn. unfold ord2ymd. cbv zeta.
  destruct (ordinal_decomposed (n - 1)) as
    (a & b & c & e & r & -> & -> & -> & -> & -> & HN & Ha & Hb & Hc & He & Hr & Hb4 & He4);
    [lia|].
  assert (Hamax : a <= 24).
  { lia. }
  destruct (Z.eqb_spec e 4) as [->|Hne4].
  { destruct He4 as [-> Hc23]; [done|]. cbn [orb fst snd].
    assert (b <= 3) by (destruct (Z.eq_dec b 4) as [Eb|]; [destruct (Hb4 Eb); lia|lia]).
    replace (a * 400 + 1 + (b * 100 + c * 4 + 4) - 1)
      with (400 * a + 100 * b + 4 * c + 3 + 1) by lia.
    rewrite days_before_year_decomposed by lia.
    rewrite days_before_month_12, is_leap_decomposed by lia.
    replace (c =? 24) with false by (symmetry; apply Z.eqb_neq; lia).
    change (if (3 =? 3) && (negb false || (b =? 3)) then 1 else 0) with 1.
    lia. }
  destruct (Z.eqb_spec b 4) as [->|Hnb4].
  { destruct Hb4 as (-> & -> & ->); [done|]. cbn [orb fst snd].
    replace (a * 400 + 1 + (4 * 100 + 0 * 4 + 0) - 1)
      with (400 * a + 100 * 3 + 4 * 24 + 3 + 1) by lia.
    rewrite days_before_year_decomposed by lia.
    rewrite days_before_month_12, is_leap_decomposed by lia.
    change (if (3 =? 3) && (negb (24 =? 24) || (3 =? 3)) then 1 else 0) with 1.
    lia. }
  cbn [orb].
  set (leapyear := (e =? 3) && (negb (c =? 24) || (b =? 3))).
  assert (Hrl : 0 <= r < 365 + (if leapyear then 1 else 0)) by (destruct leapyear; lia).
  pose proof (month_day_spec leapyear r Hrl) as (Hm & Hd & Hsum).
  destruct (month_day leapyear r) as [month day]. cbn [fst snd] in *.
  replace (a * 400 + 1 + (b * 100 + c * 4 + e))
    with (400 * a + 100 * b + 4 * c + e + 1) by lia.
  rewrite days_before_year_decomposed by lia.
  unfold days_before_month. rewrite is_leap_decomposed by lia. fold leapyear.
  split; [lia|]. split; [lia|]. split; [lia|]. lia.
Qed.

(** *** A datetime minus some minutes *)

Lemma toordinal_bounds (t : datetime) :
  valid_datetime t -> 2 <= year t -> 366 <= toordinal t <= MAXORDINAL.
Proof.
  intros (Hy & Hm & Hd & _) Hy2. unfold toordinal, MAXORDINAL.
  pose proof (days_before_month_bounds (year t) (month t) Hm) as Hdbm.
  assert (Hdby : 365 <= days_before_year (year t)
                 /\ days_before_year (year t) + (if is_leap (year t) then 1 else 0)
                    <= 3651694).
  { unfold days_before_year, is_leap.
    destruct (Z.eqb_spec (year t mod 4) 0) as [E4|_]; cbn [andb].
    - destruct (negb (year t mod 100 =? 0) || (year t mod 400 =? 0));
        Z.to_euclidean_division_equations; lia.
    - Z.to_euclidean_division_equations; lia. }
  lia.
Qed.

Lemma datetime_sub_microseconds (a b : datetime) :
  datetime_sub a b = microseconds_of a - microseconds_of b.
Proof. unfold datetime_sub, microseconds_of. lia. Qed.

Lemma minus_minutes_spec (t : datetime) (n : Z) :
  valid_datetime t -> 2 <= year t -> 0 <= n <= 1440 ->
  exists t',
    minus_minutes t n = Some t' /\ valid_datetime t' /\
    microseconds_of t' = microseconds_of t - n * 60 * 1000000.
Proof.
  intros Hv Hy2 Hn.
  pose proof (toordinal_bounds t Hv Hy2) as Hord. unfold MAXORDINAL in Hord.
  destruct Hv as (Hy & Hm & Hd & Hh & Hmi & Hs & Hus).
  unfold minus_minutes. cbv zeta.
  set (us := microseconds_of t - n * 60 * 1000000).
  assert (Hus0 : toordinal t * 86400000000 - 86400000000 <= us
                 < (toordinal t + 1) * 86400000000).
  { subst us. unfold microseconds_of. lia. }
  set (days := us / 86400000000).
  set (rem := us mod 86400000000).
  assert (Hdays : us = days * 86400000000 + rem /\ 0 <= rem < 86400000000).
  { subst days rem. pose proof (Z.div_mod us 86400000000).
    pose proof (Z.mod_pos_bound us 86400000000). lia. }
  assert (Hdr : 365 <= days <= toordinal t) by lia.
  set (seconds := rem / 1000000).
  set (micro := rem mod 1000000).
  assert (Hsec : rem = seconds * 1000000 + micro /\ 0 <= micro < 1000000 /\
                 0 <= seconds < 86400).
  { subst seconds micro. pose proof (Z.div_mod rem 1000000).
    pose proof (Z.mod_pos_bound rem 1000000). lia. }
  assert (Hhms : seconds mod 3600 mod 60 + seconds mod 3600 / 60 * 60
                   + seconds / 3600 * 3600 = seconds /\
                 0 <= seconds / 3600 < 24 /\ 0 <= seconds mod 3600 / 60 < 60 /\
                 0 <= seconds mod 3600 mod 60 < 60).
  { destruct Hsec as (_ & _ & Hsb). revert Hsb. generalize seconds. intros s0 Hsb.
    Z.to_euclidean_division_equations. lia. }
  destruct (Z.ltb_spec 0 days) as [_|]; [|lia].
  unfold MAXORDINAL. destruct (Z.leb_spec days 3652059) as [_|]; [|lia].
  cbn [andb].
  pose proof (ord2ymd_toordinal days) as Ho. unfold MAXORDINAL in Ho.
  destruct Ho as (Hy' & Hm' & Hd' & Hsum); [lia|].
  destruct (ord2ymd days) as [[y m] d]. cbn [fst snd] in *.
  eexists. split; [reflexivity|]. split.
  - unfold valid_datetime. cbn [year month day hour minute second microsecond]. lia.
  - unfold microseconds_of at 1, toordinal.
    cbn [year month day hour minute second microsecond].
    rewrite Hsum. destruct Hhms as (-> & _). lia.
Qed.

End Calendar.

(** X19: a session starts with nothing scanned, an empty ledger, notifications
    on and auto-refresh off, and with the last scan and the last Telegram
    send dated 16 and 46 minutes before the clock readings: so, as long as
    the clock does not run backwards, the first scan that finds events may
    send them at once, whatever the cooldown, and the first pass of the
    auto-refresh scans at once. *)
Theorem initial_session_due (now_scan now_telegram : datetime) :
  valid_datetime now_scan -> valid_datetime now_telegram ->
  (2 <= year now_scan)%Z -> (2 <= year now_telegram)%Z ->
  exists s,
    initial_session now_scan now_telegram = Some s /\
    scan_interval s = 15%Z /\ auto_refresh s = false /\
    crossover_data_4h (state s) = [] /\ crossover_data_1d (state s) = [] /\
    previous_alerts (state s) = ∅ /\ notification_enabled (state s) = true /\
    valid_datetime (last_scan_time (state s)) /\
    valid_datetime (last_telegram_sent_time (state s)) /\
    datetime_sub now_scan (last_scan_time (state s)) = 960000000%Z /\
    datetime_sub now_telegram (last_telegram_sent_time (state s)) = 2760000000%Z /\
    (forall (w : world) (crossovers_4h crossovers_1d : list crossover),
       (0 <= datetime_sub (now_notify w) now_telegram)%Z ->
       crossovers_4h ++ crossovers_1d <> [] ->
       SendTelegramAlerts crossovers_4h crossovers_1d
         ∈ (after_scan w (state s) crossovers_4h crossovers_1d).1.2) /\
    (forall (current_time : datetime) (w : world),
       (0 <= datetime_sub current_time now_scan)%Z ->
       head (auto_refresh_block true current_time w (state s)).2
         = Some (Scan (scan_stocks_now w (state s)).1.2)).
Proof.
  intros V1 V2 Y1 Y2.
  destruct (minus_minutes_spec now_scan 16 V1 Y1) as (ls & Hls & Vls & Mls); [lia|].
  destruct (minus_minutes_spec now_telegram 46 V2 Y2) as (lt & Hlt & Vlt & Mlt); [lia|].
  unfold initial_session. cbv zeta. change (15 + 1)%Z with 16%Z.
  rewrite Hls, Hlt. cbn [mbind option_bind].
  eexists. split; [reflexivity|].
  cbn [scan_interval auto_refresh state crossover_data_4h crossover_data_1d
       previous_alerts notification_enabled last_scan_time last_telegram_sent_time].
  do 6 (split; [reflexivity|]). do 2 (split; [assumption|]).
  assert (Es : datetime_sub now_scan ls = 960000000%Z).
  { rewrite datetime_sub_microseconds, Mls. lia. }
  assert (Et : datetime_sub now_telegram lt = 2760000000%Z).
  { rewrite datetime_sub_microseconds, Mlt. lia. }
  do 2 (split; [assumption|]). split.
  - intros w c4 c1 Hnow Hne.
    set (st := {| crossover_data_4h := []; crossover_data_1d := [];
                  previous_alerts := ∅; notification_enabled := true;
                  last_telegram_sent_time := lt; last_scan_time := ls |}).
    assert (H4 : new_alerts (previous_alerts st) c4 = c4).
    { apply new_alerts_all. intros c _. apply not_elem_of_empty. }
    assert (H1 : new_alerts (previous_alerts st) c1 = c1).
    { apply new_alerts_all. intros c _. apply not_elem_of_empty. }
    destruct (after_scan_notify w st c4 c1) as (-> & _).
    rewrite H4, H1, notify_cases; [|done|done].
    cbv zeta. cbn [last_telegram_sent_time st].
    assert (Hel : (2700000000 <= datetime_sub (now_notify w) lt)%Z).
    { rewrite datetime_sub_microseconds in *. lia. }
    destruct (Z.leb_spec 2700000000 (datetime_sub (now_notify w) lt)) as [_|]; [|lia].
    destruct (notifier_result w) as [[|]|]; apply list_elem_of_In; simpl; tauto.
  - intros current_time w Hnow.
    unfold auto_refresh_block, time_since. rewrite auto_scan_threshold.
    cbn [last_scan_time].
    assert (Hel : (900000000 <= datetime_sub current_time ls)%Z).
    { rewrite datetime_sub_microseconds in *. lia. }
    destruct (Z.leb_spec 900000000 (datetime_sub current_time ls)) as [_|]; [|lia].
    destruct (scan_stocks_now w _) as [[st' effects] [[count_4h count_1d] total_count]].
    reflexivity.
Qed.

Lemma sample_time_year (h mi : Z) : (2 <= year (sample_time h mi))%Z.
Proof. cbn. lia. Qed.

Lemma initial_session_due_witness :
  exists s,
    initial_session (sample_time 10 0) (sample_time 10 0) = Some s /\
    datetime_sub (sample_time 10 0) (last_telegram_sent_time (state s)) = 2760000000%Z.
Proof.
  destruct (initial_session_due (sample_time 10 0) (sample_time 10 0))
    as (s & Hs & _ & _ & _ & _ & _ & _ & _ & _ & _ & Ht & _).
  - apply sample_time_valid; lia.
  - apply sample_time_valid; lia.
  - apply sample_time_year.
  - apply sample_time_year.
  - exists s. split; [exact Hs|exact Ht].
Defined.

(** ** The pause of the auto-refresh *)

Section Pause.
Local Open Scope Z_scope.

(** *** Rounded products *)

Lemma SFmul_normal (mx my : positive) (ex ey : Z) :
  2 ^ 52 <= Z.pos mx * Z.pos my ->
  -1074 <= Zdigits2 (Z.pos mx * Z.pos my) + (ex + ey) - 53 ->
  exists n T m1 m2 e2,
    0 <= n /\
    T * 2 ^ n <= Z.pos mx * Z.pos my < (T + 1) * 2 ^ n /\ 2 ^ 52 <= T < 2 ^ 53 /\
    (m1 = T \/ (m1 = T + 1 /\ T * 2 ^ n < Z.pos mx * Z.pos my)) /\
    ((m2 = m1 /\ e2 = ex + ey + n) \/
     (m1 = 2 ^ 53 /\ m2 = 2 ^ 52 /\ e2 = ex + ey + n + 1)) /\
    2 ^ 52 <= m2 < 2 ^ 53 /\
    SFmul prec emax (S754_finite false mx ex) (S754_finite false my ey) =
      if e2 <=? 971 then S754_finite false (Z.to_pos m2) e2 else S754_infinity false.
Proof.
  intros Hq Hn.
  destruct (binary_round_aux_normal (Z.pos mx * Z.pos my) 0 1 (ex + ey))
    as (T & m1 & m2 & e2 & H); [done|lia|done|].
  cbv zeta in H. destruct H as (Hn0 & HT & HTb & Hm1 & Hm2 & Hm2b & Hres).
  rewrite !Z.mul_1_r, !Z.add_0_r in HT, Hm1.
  exists (Zdigits2 (Z.pos mx * Z.pos my) - 53), T, m1, m2, e2.
  do 6 (split; [done|]).
  unfold SFmul. cbn [xorb]. exact Hres.
Qed.

(** A float with a full mantissa below the exact product is below the
    rounded product. *)
Lemma SFmul_lower (mx my mb : positive) (ex ey eb : Z) :
  2 ^ 52 <= Z.pos mx * Z.pos my ->
  -1074 <= Zdigits2 (Z.pos mx * Z.pos my) + (ex + ey) - 53 ->
  2 ^ 52 <= Z.pos mb ->
  Z.pos mb * 2 ^ Z.max 0 (eb - (ex + ey))
    <= Z.pos mx * Z.pos my * 2 ^ Z.max 0 (- (eb - (ex + ey))) ->
  SFleb (S754_finite false mb eb)
        (SFmul prec emax (S754_finite false mx ex) (S754_finite false my ey)) = true.
Proof.
  intros Hq Hn Hmb H.
  destruct (SFmul_normal mx my ex ey Hq Hn) as (n & T & m1 & m2 & e2 & Hall).
  destruct Hall as (Hn0 & HT & HTb & Hm1 & Hm2 & Hm2b & ->).
  destruct (Z.leb_spec e2 971) as [_|_]; [|reflexivity].
  unfold SFleb, SFcompare.
  set (X := Z.pos mx * Z.pos my) in *.
  assert (HP : 0 < 2 ^ n) by (apply Z.pow_pos_nonneg; lia).
  destruct (Z.compare_spec eb e2) as [Heq|Hlt|Hgt]; [|reflexivity|].
  - assert (Hk : 0 <= eb - (ex + ey + n)) by lia.
    pose proof (scale_le _ _ _ (eb - (ex + ey + n) + n) 0 H ltac:(lia) ltac:(lia) ltac:(lia))
      as Hsc.
    rewrite Z.pow_add_r, Z.pow_0_r, Z.mul_1_r in Hsc by lia.
    set (K := 2 ^ (eb - (ex + ey + n))) in *.
    assert (HK : 1 <= K) by (subst K; apply (Z.pow_le_mono_r 2 0); lia).
    assert (HmbT : Z.pos mb * K <= T).
    { destruct (Z.le_gt_cases (Z.pos mb * K) T) as [|Hlt]; [done|].
      assert ((T + 1) * 2 ^ n <= Z.pos mb * K * 2 ^ n)
        by (apply Z.mul_le_mono_nonneg_r; lia).
      lia. }
    destruct Hm2 as [[-> He2]|(Hc & -> & He2)].
    + assert (K = 1) by (subst K; replace (eb - (ex + ey + n)) with 0 by lia; done).
      assert (Hle : Z.pos mb <= m1) by lia.
      destruct m1 as [|p1|p1]; [lia| |lia]. cbn [Z.to_pos].
      change (Pos.compare_cont Eq mb p1) with (Pos.compare mb p1).
      destruct (Pos.compare_spec mb p1); first [reflexivity | lia].
    + exfalso. assert (2 <= K) by (subst K; apply pow2_ge_2; lia).
      assert (2 * Z.pos mb <= Z.pos mb * K) by nia. lia.
  - exfalso.
    assert (Hk : 1 <= eb - (ex + ey + n)) by lia.
    pose proof (scale_le _ _ _ (eb - (ex + ey + n) + n) 0 H ltac:(lia) ltac:(lia) ltac:(lia))
      as Hsc.
    rewrite Z.pow_add_r, Z.pow_0_r, Z.mul_1_r in Hsc by lia.
    set (K := 2 ^ (eb - (ex + ey + n))) in *.
    assert (HK : 2 <= K) by (subst K; apply pow2_ge_2; lia).
    assert (HmbT : Z.pos mb * K <= T).
    { destruct (Z.le_gt_cases (Z.pos mb * K) T) as [|Hlt']; [done|].
      assert ((T + 1) * 2 ^ n <= Z.pos mb * K * 2 ^ n)
        by (apply Z.mul_le_mono_nonneg_r; lia).
      lia. }
    assert (2 * Z.pos mb <= Z.pos mb * K) by nia. lia.
Qed.

(** *** Differences that are not positive *)

Lemma iter_xO (m d : positive) : Z.pos (Pos.iter xO m d) = Z.pos m * 2 ^ Z.pos d.
Proof.
  induction d as [|d IH] using Pos.peano_ind.
  - cbn [Pos.iter]. lia.
  - rewrite Pos.iter_succ, Pos2Z.inj_succ, Z.pow_succ_r by lia.
    change (Z.pos (Pos.iter xO m d)~0) with (2 * Z.pos (Pos.iter xO m d)).
    rewrite IH. lia.
Qed.

Lemma shl_align_value (mx : positive) (ex ez : Z) :
  ez <= ex -> Z.pos (shl_align mx ex ez).1 = Z.pos mx * 2 ^ (ex - ez).
Proof.
  intros H. unfold shl_align.
  destruct (ez - ex) as [|d|d] eqn:E.
  - replace (ex - ez) with 0 by lia. cbn [fst]. lia.
  - lia.
  - cbn [fst]. rewrite iter_xO. f_equal. f_equal. lia.
Qed.

(** A value rounded with the negative sign is not above zero. *)
Lemma binary_round_aux_neg (m e : Z) (l : location) :
  SFltb (S754_zero false) (binary_round_aux prec emax true m e l) = false.
Proof.
  unfold binary_round_aux.
  destruct (shr_fexp prec emax m e l) as [mrs e'].
  destruct (shr_fexp prec emax _ e' loc_Exact) as [mrs' e''].
  destruct (shr_m mrs'); [reflexivity| |reflexivity].
  by destruct (e'' <=? emax - prec).
Qed.

Lemma binary_normalize_nonpos (z e : Z) :
  z <= 0 -> SFltb (S754_zero false) (binary_normalize prec emax z e false) = false.
Proof.
  intros Hz. unfold binary_normalize. destruct z as [|p|p]; [reflexivity|lia|].
  unfold binary_round.
  destruct (shl_align p e _) as [mz ez]. apply binary_round_aux_neg.
Qed.

Lemma of_int_900 : of_int 900 = F900.
Proof. vm_compute. reflexivity. Qed.

Lemma of_int_0 : of_int 0 = S754_zero false.
Proof. vm_compute. reflexivity. Qed.

(** 900 minus a float that is at least 900 is not above zero. *)
Lemma fsub_900_not_positive (m : positive) (e : Z) :
  2 ^ 52 <= Z.pos m ->
  SFleb F900 (S754_finite false m e) = true ->
  fgt (fsub (of_int 900) (S754_finite false m e)) (of_int 0) = false.
Proof.
  intros Hm H. rewrite of_int_900, of_int_0. unfold fgt, fsub, F900 in *.
  apply SFleb_finite_pos in H.
  unfold SFsub. cbv zeta. cbn [cond_Zopp].
  apply binary_normalize_nonpos.
  rewrite !shl_align_value by lia.
  destruct H as [Hlt|[Heq Hle]].
  - rewrite Z.min_l by lia. rewrite Z.sub_diag, Z.pow_0_r, Z.mul_1_r.
    assert (HP : 2 <= 2 ^ (e - -43)) by (apply pow2_ge_2; lia).
    assert (2 ^ 52 * 2 <= Z.pos m * 2 ^ (e - -43)) by (apply Z.mul_le_mono_nonneg; lia).
    lia.
  - subst e. rewrite Z.min_l by lia. rewrite Z.sub_diag, Z.pow_0_r, !Z.mul_1_r. lia.
Qed.

(** *** The minutes times 60 *)

Lemma digits_product (m : positive) :
  2 ^ 52 <= Z.pos m < 2 ^ 53 ->
  2 ^ 52 <= Z.pos m * Z.pos 8444249301319680 /\
  105 <= Zdigits2 (Z.pos m * Z.pos 8444249301319680).
Proof.
  intros Hm.
  assert (Hq : 2 ^ 104 <= Z.pos m * Z.pos 8444249301319680).
  { change (2 ^ 104) with (2 ^ 52 * 2 ^ 52). apply Z.mul_le_mono_nonneg; lia. }
  split; [lia|].
  destruct (Zdigits2_bounds (Z.pos m * Z.pos 8444249301319680)) as (_ & _ & Hhi); [lia|].
  destruct (Z.le_gt_cases 105 (Zdigits2 (Z.pos m * 8444249301319680))) as [|Hlt]; [done|].
  assert (2 ^ Zdigits2 (Z.pos m * 8444249301319680) <= 2 ^ 104)
    by (apply Z.pow_le_mono_r; lia).
  lia.
Qed.

(** At least 15 minutes, times 60, are at least 900. *)
Lemma seconds_lower_900 (m : positive) (e : Z) :
  2 ^ 52 <= Z.pos m < 2 ^ 53 ->
  SFleb (S754_finite false 8444249301319680 (-49)) (S754_finite false m e) = true ->
  SFleb F900 (SFmul prec emax (S754_finite false m e)
                (S754_finite false 8444249301319680 (-47))) = true.
Proof.
  intros Hm H. apply SFleb_finite_pos in H.
  destruct (digits_product m Hm) as [Hq Hd].
  unfold F900. apply SFmul_lower; [done|lia|lia|].
  destruct H as [Hlt|[Heq Hle]].
  - destruct (Z.le_gt_cases (-43) (e + -47)) as [Hbig|Hsmall].
    + rewrite Z.max_l by lia. rewrite Z.max_r by lia. rewrite Z.pow_0_r, Z.mul_1_r.
      assert (1 <= 2 ^ (- (-43 - (e + -47)))) by (apply (Z.pow_le_mono_r 2 0); lia).
      assert (2 ^ 52 * 8444249301319680 * 1
              <= Z.pos m * 8444249301319680 * 2 ^ (- (-43 - (e + -47))))
        by (apply Z.mul_le_mono_nonneg; lia).
      lia.
    + rewrite Z.max_r by lia. rewrite Z.max_l by lia. rewrite Z.pow_0_r, Z.mul_1_r.
      assert (2 ^ (-43 - (e + -47)) <= 2 ^ 52) by (apply Z.pow_le_mono_r; lia).
      assert (0 < 2 ^ (-43 - (e + -47))) by (apply Z.pow_pos_nonneg; lia).
      assert (7916483719987200 * 2 ^ (-43 - (e + -47)) <= 7916483719987200 * 2 ^ 52)
        by (apply Z.mul_le_mono_nonneg_l; lia).
      assert (2 ^ 52 * 8444249301319680 <= Z.pos m * 8444249301319680)
        by (apply Z.mul_le_mono_nonneg_r; lia).
      lia.
  - subst e. change (Z.max 0 (-43 - (-49 + -47))) with 53.
    change (Z.max 0 (- (-43 - (-49 + -47)))) with 0.
    rewrite Z.pow_0_r, Z.mul_1_r. lia.
Qed.

Lemma SFmul_shape (m : positive) (e : Z) :
  2 ^ 52 <= Z.pos m < 2 ^ 53 -> -1074 <= e ->
  SFmul prec emax (S754_finite false m e) (S754_finite false 8444249301319680 (-47))
    = S754_infinity false \/
  exists m' e',
    SFmul prec emax (S754_finite false m e) (S754_finite false 8444249301319680 (-47))
      = S754_finite false m' e' /\ 2 ^ 52 <= Z.pos m'.
Proof.
  intros Hm He. destruct (digits_product m Hm) as [Hq Hd].
  destruct (SFmul_normal m 8444249301319680 e (-47) Hq) as (n & T & m1 & m2 & e2 & Hall);
    [lia|].
  destruct Hall as (_ & _ & _ & _ & _ & Hm2 & ->).
  destruct (e2 <=? 971); [|by left].
  right. exists (Z.to_pos m2), e2. split; [done|]. rewrite Z2Pos.id by lia. lia.
Qed.

(** From 15 minutes on, nothing is left to wait. *)
Lemma time_until_next_scan_zero (d : Z) :
  900000000 <= d ->
  max_0 (fsub (of_int (15 * 60)) (fmul (fdiv_int (total_seconds d) 60) (of_int 60)))
  = Int 0.
Proof.
  intros Hd. unfold max_0. change (15 * 60) with 900.
  assert (Hgoal : fgt (fsub (of_int 900) (fmul (fdiv_int (total_seconds d) 60) (of_int 60)))
                    (of_int 0) = false); [|by rewrite Hgoal].
  destruct d as [|p|p]; [lia| |lia].
  unfold fdiv_int, fmul. rewrite of_int_60.
  assert (Hinf : fgt (fsub (of_int 900)
                        (SFmul prec emax (S754_infinity false)
                           (S754_finite false 8444249301319680 (-47)))) (of_int 0) = false).
  { vm_compute. reflexivity. }
  destruct (SFdiv_shape p 1000000 0 0 (total_seconds_normal p))
    as [Hi|(m & e & Hfin & Hm & He)].
  { rewrite total_seconds_pos, Hi. exact Hinf. }
  rewrite digits_1000000 in He.
  pose proof (total_seconds_lower_900 p Hd) as Hs.
  rewrite total_seconds_pos, Hfin in Hs |- *.
  pose proof (minutes_lower_15 m e Hm Hs) as Ht.
  destruct (SFdiv_shape m 8444249301319680 e (-47))
    as [Hi|(m' & e' & Hfin' & Hm' & He')]; [apply minutes_normal; [done|lia]| |].
  { rewrite Hi. exact Hinf. }
  rewrite Hfin' in Ht |- *.
  rewrite (digits_full m Hm), digits_F60 in He'.
  pose proof (seconds_lower_900 m' e' Hm' Ht) as Hsec.
  destruct (SFmul_shape m' e' Hm') as [Hi|(m'' & e'' & Hfin'' & Hm'')]; [lia| |].
  { rewrite Hi. vm_compute. reflexivity. }
  rewrite Hfin'' in Hsec |- *.
  by apply fsub_900_not_positive.
Qed.

End Pause.

(** X20: after a scan started by the auto-refresh the page does not wait: the
    block sleeps for 0 seconds and reruns at once. *)
Theorem auto_refresh_no_pause_after_scan (current_time : datetime) (w : world)
    (st : session_state) :
  (900000000 <= datetime_sub current_time (last_scan_time st))%Z ->
  exists scanned,
    (auto_refresh_block true current_time w st).2
      = Scan (scan_stocks_now w st).1.2 :: scanned ++ [Sleep (Int 0); Rerun] /\
    (scanned = [] \/ scanned = [SuccessAutoScan (scan_stocks_now w st).2.2]).
Proof.
  intros Hd. unfold auto_refresh_block, time_since.
  rewrite auto_scan_threshold.
  destruct (Z.leb_spec 900000000 (datetime_sub current_time (last_scan_time st)))
    as [_|]; [|lia].
  rewrite (time_until_next_scan_zero _ Hd).
  destruct (scan_stocks_now w st) as [[st' effects] [[count_4h count_1d] total_count]].
  cbn [fst snd min_5]. change (0 <? 5)%Z with true. cbv iota.
  destruct (0 <? total_count).
  - exists [SuccessAutoScan total_count]. split; [reflexivity|by right].
  - exists []. split; [reflexivity|by left].
Qed.

Lemma auto_refresh_no_pause_after_scan_witness :
  exists scanned,
    (auto_refresh_block true (sample_time 10 15)
       (sample_market sample_daily (sample_time 10 16))
       (sample_state ∅ (sample_time 10 0))).2
    = Scan (scan_stocks_now (sample_market sample_daily (sample_time 10 16))
              (sample_state ∅ (sample_time 10 0))).1.2
      :: scanned ++ [Sleep (Int 0); Rerun].
Proof.
  destruct (auto_refresh_no_pause_after_scan (sample_time 10 15)
              (sample_market sample_daily (sample_time 10 16))
              (sample_state ∅ (sample_time 10 0))) as (scanned & H & _).
  - vm_compute. discriminate.
  - exists scanned. exact H.
Defined.

(** ** The labels and the zero line *)

(** The branch of the chain that is taken, with the tests that failed
    before it. *)
Lemma classify_branch (m s : float) :
  let zero := of_int 0 in
  (fgt m s && fgt m zero && fgt s zero = true /\ classify m s = STRONG_BUY) \/
  (fgt m s && fgt m zero && fgt s zero = false /\
   flt m s && flt m zero && flt s zero = true /\ classify m s = STRONG_SELL) \/
  (fgt m s && fgt m zero && fgt s zero = false /\
   flt m s && flt m zero && flt s zero = false /\
   fgt m s && flt m zero = true /\ classify m s = WEAK_BUY) \/
  (fgt m s && fgt m zero && fgt s zero = false /\
   flt m s && flt m zero && flt s zero = false /\
   fgt m s && flt m zero = false /\
   flt m s && fgt m zero = true /\ classify m s = WEAK_SELL) \/
  (fgt m s && fgt m zero && fgt s zero = false /\
   flt m s && flt m zero && flt s zero = false /\
   fgt m s && flt m zero = false /\ flt m s && fgt m zero = false /\
   fgt m s = true /\ classify m s = BUY) \/
  (fgt m s && fgt m zero && fgt s zero = false /\
   flt m s && flt m zero && flt s zero = false /\
   fgt m s && flt m zero = false /\ flt m s && fgt m zero = false /\
   fgt m s = false /\ flt m s = true /\ classify m s = SELL) \/
  (fgt m s = false /\ flt m s = false /\ classify m s = NO_SIGNAL).
Proof.
  intros zero. unfold classify. fold zero.
  destruct (fgt m s && fgt m zero && fgt s zero) eqn:E1; [by left|]. right.
  destruct (flt m s && flt m zero && flt s zero) eqn:E2; [by left|]. right.
  destruct (fgt m s && flt m zero) eqn:E3; [by left|]. right.
  destruct (flt m s && fgt m zero) eqn:E4; [by left|]. right.
  destruct (fgt m s) eqn:E5; [by left|]. right.
  destruct (flt m s) eqn:E6; [by left|]. right. done.
Qed.

Lemma fgt_flt (x y : float) : fgt x y = flt y x.
Proof. reflexivity. Qed.

(** X21: each label tells where zero lies with respect to the two values.
    STRONG BUY: signal above zero and MACD above signal (the test that
    MACD is above zero is then implied); STRONG SELL: signal below zero and
    MACD below signal; WEAK BUY: MACD above signal but below zero; WEAK
    SELL: MACD below signal but above zero; BUY: MACD above signal, not
    below zero, with a signal that is not above zero; SELL: MACD below
    signal, not above zero, with a signal that is not below zero. *)
Theorem classify_zero_position (m s : float) :
  let zero := of_int 0 in
  (classify m s = STRONG_BUY <-> fgt m s = true /\ fgt s zero = true) /\
  (classify m s = STRONG_SELL <-> flt m s = true /\ flt s zero = true) /\
  (classify m s = WEAK_BUY <-> fgt m s = true /\ flt m zero = true) /\
  (classify m s = WEAK_SELL <-> flt m s = true /\ fgt m zero = true) /\
  (classify m s = BUY <->
     fgt m s = true /\ flt m zero = false /\ fgt s zero = false) /\
  (classify m s = SELL <->
     flt m s = true /\ fgt m zero = false /\ flt s zero = false).
Proof.
  intros zero.
  assert (Hup : fgt m s = true -> fgt s zero = true -> fgt m zero = true).
  { rewrite !fgt_flt. intros H1 H2. by apply (flt_trans zero s m). }
  assert (Hdown : flt m s = true -> flt s zero = true -> flt m zero = true).
  { intros H1 H2. by apply (flt_trans m s zero). }
  assert (Hms : fgt m s = true -> flt m s = false) by (apply flt_asym).
  assert (Hm0 : fgt m zero = true -> flt m zero = false) by (apply flt_asym).
  assert (Hs0 : fgt s zero = true -> flt s zero = false) by (apply flt_asym).
  pose proof (classify_branch m s) as Hb. cbv zeta in Hb. fold zero in Hb.
  destruct (fgt m s) eqn:Ems, (flt m s) eqn:Ems';
    try (specialize (Hms eq_refl); discriminate Hms);
    destruct (fgt m zero) eqn:Em0, (flt m zero) eqn:Em0';
    try (specialize (Hm0 eq_refl); discriminate Hm0);
    destruct (fgt s zero) eqn:Es0, (flt s zero) eqn:Es0';
    try (specialize (Hs0 eq_refl); discriminate Hs0);
    try (specialize (Hup eq_refl eq_refl); discriminate Hup);
    try (specialize (Hdown eq_refl eq_refl); discriminate Hdown);
    cbn [andb] in Hb;
    destruct Hb as [Hb|[Hb|[Hb|[Hb|[Hb|[Hb|Hb]]]]]];
    try (destruct Hb as (? & ?); discriminate);
    try (destruct Hb as (? & ? & ?); discriminate);
    try (destruct Hb as (? & ? & ? & ?); discriminate);
    try (destruct Hb as (? & ? & ? & ? & ?); discriminate);
    try (destruct Hb as (? & ? & ? & ? & ? & ?); discriminate);
    try (destruct Hb as (? & ? & ? & ? & ? & ? & ?); discriminate);
    repeat match goal with H : _ /\ _ |- _ => destruct H end;
    match goal with H : classify m s = _ |- _ => rewrite H end;
    repeat split; intros; try discriminate; try done;
    repeat match goal with H : _ /\ _ |- _ => destruct H end; try discriminate.
Qed.

(** ** Emission of a crossover event *)

(** On a frame of at least 30 rows the body of the loop reaches the
    detector: what it does is decided by the labels of [calculate_macd]. *)
Lemma scan_symbol_on_frame (w : world) (tf : string) (idx : nat) (sym : string)
    (hist : list bar) :
  ((tf = "4h" /\ exists h, history w sym "60d" "1h" = Ok h /\
                           hist = dropna (resample_4h_agg h)) \/
   (tf <> "4h" /\ history w sym "3mo" "1d" = Ok hist)) ->
  30 <= length hist ->
  scan_symbol w tf idx sym =
    (let prices := Close <$> hist in
     md ← calculate_macd prices;
     match md with
     | None => Ok None
     | Some macd_data =>
         found ← detect (signals macd_data);
         match found with
         | Some (prev_signal, current_signal) =>
             last_price ← index prices (-1);
             Ok (Some {| symbol := strip_NS sym;
                         type_ := "bullish";
                         previous_type := prev_signal;
                         current_signal := current_signal;
                         timestamp := now_at w tf idx;
                         macd_value := macd macd_data;
                         signal_value := signal macd_data;
                         price := last_price;
                         timeframe := tf |})
         | None => Ok None
         end
     end).
Proof.
  intros Hsrc Hlen. unfold scan_symbol.
  assert (Hfetch :
    (if String.eqb tf "4h"
     then h ← history w sym "60d" "1h";
          Ok (match h with [] => h | _ => dropna (resample_4h_agg h) end)
     else history w sym "3mo" "1d") = Ok hist).
  { destruct Hsrc as [(-> & h & Hh & ->)|(Hne & Hh)].
    - rewrite String.eqb_refl, Hh. cbn [mbind result_bind].
      destruct h as [|r h']; [|done].
      exfalso. vm_compute in Hlen. lia.
    - destruct (String.eqb_spec tf "4h") as [|_]; done. }
  rewrite Hfetch. cbn [mbind result_bind].
  destruct hist as [|r hist']; [cbn in Hlen; lia|].
  destruct (Z.ltb_spec (len (r :: hist')) 30) as [Hlt|_]; [|reflexivity].
  unfold len in Hlt. lia.
Qed.

(** C2: on a label sequence with at least two labels, the test guarding
    the append looks at the last two only and succeeds exactly when the one
    before last is bearish and the last is bullish; so bullish-to-bearish,
    bullish-to-bullish and any pair with NO_SIGNAL give nothing.  And the
    loop emits accordingly: for an instrument whose frame has at least 30
    rows (so that [calculate_macd] returns its labels, one per row), with
    [prev] and [curr] the last two labels, the body appends the event of
    the instrument, built from these two labels, exactly when [prev] is
    bearish and [curr] is bullish, and the list returned by
    [scan_crossovers] holds an event of the instrument exactly then. *)
Theorem crossover_emitted_iff_bearish_to_bullish :
  (forall signals : list string,
     2 <= length signals ->
     exists prev curr,
       signals !! (length signals - 2) = Some prev /\
       signals !! (length signals - 1) = Some curr /\
       (detect signals = Ok (Some (prev, curr)) <->
          prev ∈ bearish_signals /\ curr ∈ bullish_signals) /\
       (detect signals = Ok None <->
          ~ (prev ∈ bearish_signals /\ curr ∈ bullish_signals)) /\
       (prev ∈ bullish_signals -> detect signals = Ok None) /\
       (curr ∈ bearish_signals -> detect signals = Ok None) /\
       (prev = NO_SIGNAL \/ curr = NO_SIGNAL -> detect signals = Ok None) /\
       detect signals = detect [prev; curr]) /\
  (forall (w : world) (tf : string) (idx : nat) (sym : string) (hist : list bar),
     ((tf = "4h" /\ exists h, history w sym "60d" "1h" = Ok h /\
                              hist = dropna (resample_4h_agg h)) \/
      (tf <> "4h" /\ history w sym "3mo" "1d" = Ok hist)) ->
     30 <= length hist ->
     exists (d : macd_data) (prev curr : string) (last_price : float),
       calculate_macd (Close <$> hist) = Ok (Some d) /\
       length (signals d) = length hist /\
       signals d !! (length (signals d) - 2) = Some prev /\
       signals d !! (length (signals d) - 1) = Some curr /\
       last (Close <$> hist) = Some last_price /\
       let event :=
         {| symbol := strip_NS sym; type_ := "bullish";
            previous_type := prev; current_signal := curr;
            timestamp := now_at w tf idx;
            macd_value := macd d; signal_value := signal d;
            price := last_price; timeframe := tf |} in
       (prev ∈ bearish_signals /\ curr ∈ bullish_signals ->
        scan_symbol w tf idx sym = Ok (Some event)) /\
       (~ (prev ∈ bearish_signals /\ curr ∈ bullish_signals) ->
        scan_symbol w tf idx sym = Ok None) /\
       (STOCK_SYMBOLS !! idx = Some sym ->
        (event ∈ scan_crossovers w tf <->
           prev ∈ bearish_signals /\ curr ∈ bullish_signals) /\
        ((exists c, c ∈ scan_crossovers w tf /\ symbol c = strip_NS sym) <->
           prev ∈ bearish_signals /\ curr ∈ bullish_signals))).
Proof.
  split; [exact detect_last_two|].
  intros w tf idx sym hist Hsrc Hlen.
  destruct (calculate_macd_value (Close <$> hist))
    as (fast & slow & sig & m & s & Hf & Hs & Hsig & Hm & Hsl & Lf & Ls & Lsig & Hd).
  { rewrite length_fmap. lia. }
  rewrite length_fmap in Lf, Ls, Lsig.
  set (d := {| macd := m; signal := s; histogram := fsub m s;
               signals := zip_with classify (zip_with fsub fast slow) sig |}) in *.
  assert (Ld : length (signals d) = length hist).
  { subst d. cbn [signals]. rewrite !length_zip_with. lia. }
  destruct (detect_last_two (signals d))
    as (prev & curr & Hp & Hc & Hyes & Hno & _); [lia|].
  destruct (index_neg1 (Close <$> hist)) as (last_price & Hlast & Hidx).
  { intros E. apply (f_equal length) in E. rewrite length_fmap in E. cbn in E. lia. }
  exists d, prev, curr, last_price.
  do 5 (split; [done|]). intros event.
  pose proof (scan_symbol_on_frame w tf idx sym hist Hsrc Hlen) as Hscan.
  cbv zeta in Hscan. rewrite Hd in Hscan. cbn [mbind result_bind] in Hscan.
  assert (Hemit : prev ∈ bearish_signals /\ curr ∈ bullish_signals ->
                  scan_symbol w tf idx sym = Ok (Some event)).
  { intros H. apply Hyes in H. rewrite H in Hscan. cbn [mbind result_bind] in Hscan.
    rewrite Hidx in Hscan. exact Hscan. }
  assert (Hskip : ~ (prev ∈ bearish_signals /\ curr ∈ bullish_signals) ->
                  scan_symbol w tf idx sym = Ok None).
  { intros H. apply Hno in H. rewrite H in Hscan. exact Hscan. }
  do 2 (split; [done|]).
  intros Hsym.
  assert (Hdec : prev ∈ bearish_signals /\ curr ∈ bullish_signals \/
                 ~ (prev ∈ bearish_signals /\ curr ∈ bullish_signals)).
  { destruct (decide (prev ∈ bearish_signals)); [|right; tauto].
    destruct (decide (curr ∈ bullish_signals)); [left|right]; tauto. }
  split.
  - split.
    + intros Hin. apply scan_crossovers_elem in Hin as (idx' & sym' & _ & Hs').
      apply scan_symbol_event in Hs' as (_ & _ & _ & Hb1 & Hb2). done.
    + intros H. apply scan_crossovers_elem. exists idx, sym. split; [done|]. by apply Hemit.
  - split.
    + intros (c & Hin & Hc').
      destruct Hdec as [Hd'|Hd']; [done|]. exfalso.
      apply scan_crossovers_elem in Hin as (idx' & sym' & Hsym' & Hs').
      apply scan_symbol_event in Hs' as Hev. destruct Hev as (Hname & _).
      assert (idx' = idx) as ->.
      { apply (NoDup_lookup _ _ _ (strip_NS sym) stripped_symbols_NoDup).
        - rewrite list_lookup_fmap, Hsym'. cbn. congruence.
        - by rewrite list_lookup_fmap, Hsym. }
      assert (sym' = sym) as -> by congruence.
      rewrite (Hskip Hd') in Hs'. discriminate.
    + intros H. exists event. split; [|reflexivity].
      apply scan_crossovers_elem. exists idx, sym. split; [done|]. by apply Hemit.
Qed.

(** NO_SIGNAL before BUY gives nothing, SELL before WEAK BUY gives the
    pair, and the sample market, whose daily closes fall for 29 days and
    jump on the last one, makes the scan emit the event of its instrument. *)
Lemma crossover_emitted_iff_bearish_to_bullish_witness :
  detect [NO_SIGNAL; BUY] = Ok None /\
  detect [BUY; SELL; WEAK_BUY] = Ok (Some (SELL, WEAK_BUY)) /\
  exists c,
    scan_symbol (sample_market sample_daily (sample_time 10 0)) "1d" 46 "TCS.NS"
      = Ok (Some c) /\
    c ∈ scan_crossovers (sample_market sample_daily (sample_time 10 0)) "1d" /\
    symbol c = "TCS" /\
    previous_type c = STRONG_SELL /\ current_signal c = WEAK_BUY.
Proof.
  destruct crossover_emitted_iff_bearish_to_bullish as [Hdet Hscan].
  split; [|split].
  - destruct (Hdet [NO_SIGNAL; BUY] ltac:(simpl; lia))
      as (prev & curr & Hp & Hc & _ & _ & _ & _ & Hn & _).
    apply Hn. left. simpl in Hp. congruence.
  - destruct (Hdet [BUY; SELL; WEAK_BUY] ltac:(simpl; lia))
      as (prev & curr & Hp & Hc & Hiff & _).
    simpl in Hp, Hc. injection Hp as <-. injection Hc as <-.
    apply Hiff. split; apply list_elem_of_In; simpl; tauto.
  - destruct (Hscan (sample_market sample_daily (sample_time 10 0)) "1d" 46 "TCS.NS"
                sample_daily)
      as (d & prev & curr & last_price & Hd & Hl & Hp & Hc & Hlast & Hemit & _ & Hlist).
    { right. split; [discriminate|reflexivity]. }
    { vm_compute. lia. }
    vm_compute in Hd. injection Hd as <-.
    vm_compute in Hp. injection Hp as <-.
    vm_compute in Hc. injection Hc as <-.
    assert (Hx : "STRONG SELL" ∈ bearish_signals /\ "WEAK BUY" ∈ bullish_signals).
    { split; apply list_elem_of_In; simpl; tauto. }
    eexists. split; [exact (Hemit Hx)|].
    split; [exact (proj2 (proj1 (Hlist eq_refl)) Hx)|].
    split; [reflexivity|]. split; reflexivity.
Defined.
